(** * qlbridge lexer: a shallow embedding of [lexer.go] and its properties

    The Go source is a hand-written state-machine lexer in the style of
    [text/template]: a [Lexer] record holds the input, the read position,
    the token-start position, the width of the last rune read, a channel of
    tokens with room for one token, and a stack of pending state functions.

    Conventions of the embedding:
    - Go [int] and [rune] values are [Z]; Go strings are byte strings and
      are modelled by [string] (one [ascii] per byte); positions are byte
      offsets.
    - A method of [*Lexer] is a computation in the monad [M]: it takes the
      lexer and returns either a value with the updated lexer, a run-time
      panic, a send on the full token channel (which blocks for ever, since
      the state functions run in the goroutine that would receive), or
      exhaustion of the fuel that bounds the open-ended [for] loops.
    - State functions ([StateFn] values) are defunctionalised into the
      inductive type [StateFn]; Go's [nil] state is [None].
    - Calls into the logging package are dropped, but their arguments are
      still evaluated when that evaluation reads the lexer. *)

From Stdlib Require Import ZArith List String Ascii Bool Lia.
Import ListNotations.

Local Open Scope string_scope.
Local Open Scope Z_scope.

(** ** The parts of Go's standard library the lexer calls *)

Module Go.

Definition rune := Z.

Definition byte_val (c : ascii) : Z := Z.of_N (N_of_ascii c).
Definition chr (z : Z) : ascii := ascii_of_N (Z.to_N z).

Definition len (s : string) : Z := Z.of_nat (String.length s).

Fixpoint drop (n : nat) (s : string) : string :=
  match n, s with
  | O, _ => s
  | S _, EmptyString => EmptyString
  | S n', String _ s' => drop n' s'
  end.

Fixpoint take (n : nat) (s : string) : string :=
  match n, s with
  | O, _ => EmptyString
  | S _, EmptyString => EmptyString
  | S n', String c s' => String c (take n' s')
  end.

(** [s[lo:hi]]; [None] stands for the run-time panic
    "slice bounds out of range". *)
Definition slice (s : string) (lo hi : Z) : option string :=
  if (0 <=? lo) && (lo <=? hi) && (hi <=? len s)
  then Some (take (Z.to_nat (hi - lo)) (drop (Z.to_nat lo) s))
  else None.

(** [s[lo:]] *)
Definition slice_from (s : string) (lo : Z) : option string :=
  slice s lo (len s).

(** [s[i]]; [None] stands for the panic "index out of range". *)
Definition index (s : string) (i : Z) : option Z :=
  if (0 <=? i) && (i <? len s)
  then match drop (Z.to_nat i) s with
       | String c _ => Some (byte_val c)
       | EmptyString => None
       end
  else None.

(** *** unicode/utf8 *)

Definition RuneError : rune := 0xFFFD.

(** The [first] table of package utf8, for lead bytes [>= 0x80]: the size
    of the sequence and the accepted range of the second byte. *)
Definition first (s0 : Z) : option (Z * Z * Z) :=
  if (0xC2 <=? s0) && (s0 <=? 0xDF) then Some (2, 0x80, 0xBF)
  else if s0 =? 0xE0 then Some (3, 0xA0, 0xBF)
  else if (0xE1 <=? s0) && (s0 <=? 0xEC) then Some (3, 0x80, 0xBF)
  else if s0 =? 0xED then Some (3, 0x80, 0x9F)
  else if (0xEE <=? s0) && (s0 <=? 0xEF) then Some (3, 0x80, 0xBF)
  else if s0 =? 0xF0 then Some (4, 0x90, 0xBF)
  else if (0xF1 <=? s0) && (s0 <=? 0xF3) then Some (4, 0x80, 0xBF)
  else if s0 =? 0xF4 then Some (4, 0x80, 0x8F)
  else None.

Definition cont_byte (b : Z) : bool := (0x80 <=? b) && (b <=? 0xBF).

(** [utf8.DecodeRuneInString]: the rune and its width in bytes. *)
Definition DecodeRuneInString (s : string) : rune * Z :=
  match s with
  | EmptyString => (RuneError, 0)
  | String c0 t0 =>
    let s0 := byte_val c0 in
    if s0 <? 0x80 then (s0, 1)
    else
      match first s0 with
      | None => (RuneError, 1)
      | Some (sz, lo, hi) =>
        if len s <? sz then (RuneError, 1)
        else
          match t0 with
          | EmptyString => (RuneError, 1)
          | String c1 t1 =>
            let s1 := byte_val c1 in
            if (s1 <? lo) || (hi <? s1) then (RuneError, 1)
            else if sz <=? 2
            then (Z.lor (Z.shiftl (Z.land s0 0x1F) 6) (Z.land s1 0x3F), 2)
            else
              match t1 with
              | EmptyString => (RuneError, 1)
              | String c2 t2 =>
                let s2 := byte_val c2 in
                if negb (cont_byte s2) then (RuneError, 1)
                else if sz <=? 3
                then (Z.lor (Z.lor (Z.shiftl (Z.land s0 0x0F) 12)
                                   (Z.shiftl (Z.land s1 0x3F) 6))
                            (Z.land s2 0x3F), 3)
                else
                  match t2 with
                  | EmptyString => (RuneError, 1)
                  | String c3 _ =>
                    let s3 := byte_val c3 in
                    if negb (cont_byte s3) then (RuneError, 1)
                    else (Z.lor (Z.lor (Z.lor (Z.shiftl (Z.land s0 0x07) 18)
                                              (Z.shiftl (Z.land s1 0x3F) 12))
                                       (Z.shiftl (Z.land s2 0x3F) 6))
                                (Z.land s3 0x3F), 4)
                  end
              end
          end
      end
  end.

(** [string(r)]: the UTF-8 encoding of a rune; runes that are not valid
    code points encode as U+FFFD. *)
Definition string_of_rune (r : rune) : string :=
  if (0 <=? r) && (r <? 0x80) then String (chr r) EmptyString
  else if (0x80 <=? r) && (r <? 0x800)
  then String (chr (Z.lor 0xC0 (Z.shiftr r 6)))
         (String (chr (Z.lor 0x80 (Z.land r 0x3F))) EmptyString)
  else if (r <? 0) || (0x10FFFF <? r) || ((0xD800 <=? r) && (r <=? 0xDFFF))
  then String (chr 0xEF) (String (chr 0xBF) (String (chr 0xBD) EmptyString))
  else if r <? 0x10000
  then String (chr (Z.lor 0xE0 (Z.shiftr r 12)))
         (String (chr (Z.lor 0x80 (Z.land (Z.shiftr r 6) 0x3F)))
            (String (chr (Z.lor 0x80 (Z.land r 0x3F))) EmptyString))
  else String (chr (Z.lor 0xF0 (Z.shiftr r 18)))
         (String (chr (Z.lor 0x80 (Z.land (Z.shiftr r 12) 0x3F)))
            (String (chr (Z.lor 0x80 (Z.land (Z.shiftr r 6) 0x3F)))
               (String (chr (Z.lor 0x80 (Z.land r 0x3F))) EmptyString))).

(** [for _, r := range s]: the runes of [s] in order. *)
Fixpoint runes_from (n : nat) (s : string) : list rune :=
  match n with
  | O => []
  | S n' =>
    match s with
    | EmptyString => []
    | _ => let '(r, w) := DecodeRuneInString s in
           r :: runes_from n' (drop (Z.to_nat w) s)
    end
  end.

Definition runes (s : string) : list rune := runes_from (String.length s) s.

(** *** strings *)

(** [strings.IndexRune]: the byte offset of the first rune of [s] equal
    to [r], or [-1]. *)
Fixpoint IndexRune_from (n : nat) (i : Z) (s : string) (r : rune) : Z :=
  match n with
  | O => -1
  | S n' =>
    match s with
    | EmptyString => -1
    | _ => let '(c, w) := DecodeRuneInString s in
           if c =? r then i
           else IndexRune_from n' (i + w) (drop (Z.to_nat w) s) r
    end
  end.

Definition IndexRune (s : string) (r : rune) : Z :=
  IndexRune_from (String.length s) 0 s r.

Definition HasPrefix (s p : string) : bool := String.prefix p s.

Fixpoint is_ascii (s : string) : bool :=
  match s with
  | EmptyString => true
  | String c t => (byte_val c <? 0x80) && is_ascii t
  end.

Definition upper_byte (c : ascii) : ascii :=
  let b := byte_val c in
  if (0x61 <=? b) && (b <=? 0x7A) then chr (b - 32) else c.

Definition lower_byte (c : ascii) : ascii :=
  let b := byte_val c in
  if (0x41 <=? b) && (b <=? 0x5A) then chr (b + 32) else c.

Fixpoint map_bytes (f : ascii -> ascii) (s : string) : string :=
  match s with
  | EmptyString => EmptyString
  | String c t => String (f c) (map_bytes f t)
  end.

(** *** unicode *)

(** [unicode.IsSpace]: the White_Space property. *)
Definition IsSpace (r : rune) : bool :=
  ((0x09 <=? r) && (r <=? 0x0D)) || (r =? 0x20) || (r =? 0x85)
  || (r =? 0xA0) || (r =? 0x1680) || ((0x2000 <=? r) && (r <=? 0x200A))
  || (r =? 0x2028) || (r =? 0x2029) || (r =? 0x202F) || (r =? 0x205F)
  || (r =? 0x3000).

(** The character tables of package unicode above U+007F, the case
    mapping of strings that hold a byte above 0x7F, and [strconv.Quote]
    (the [%q] verb) belong to the standard library and are taken as
    given. *)
Record Tables : Type := mkTables {
  letter_hi : rune -> bool;
  digit_hi : rune -> bool;
  to_lower_hi : rune -> rune;
  ToUpper_hi : string -> string;
  ToLower_hi : string -> string;
  Quote : string -> string;
  (* categories L and Z are disjoint *)
  letter_not_space : forall r, letter_hi r = true -> IsSpace r = false
}.

(** Tables that know no letter, digit or case pair above U+007F.  They
    instantiate the closed examples, whose inputs are plain ASCII and never
    consult them. *)
Definition ascii_tables : Tables :=
  mkTables (fun _ => false) (fun _ => false) (fun r => r)
           (fun s => s) (fun s => s) (fun s => s)
           (fun r (H : false = true) =>
              False_ind (IsSpace r = false) (diff_false_true H)).

(** Below U+0080 the predicates are those of ASCII.  The only negative rune
    the lexer handles is [eof = -1]: it is neither letter, digit nor space,
    and [ToLower] leaves it as it is. *)
Section Unicode.
Variable U : Tables.

Definition IsLetter (r : rune) : bool :=
  if r <? 0 then false
  else if r <? 0x80
  then ((0x41 <=? r) && (r <=? 0x5A)) || ((0x61 <=? r) && (r <=? 0x7A))
  else letter_hi U r.

Definition IsDigit (r : rune) : bool :=
  if r <? 0 then false
  else if r <? 0x80 then (0x30 <=? r) && (r <=? 0x39)
  else digit_hi U r.

Definition ToLower (r : rune) : rune :=
  if r <? 0x80
  then (if (0x41 <=? r) && (r <=? 0x5A) then r + 32 else r)
  else to_lower_hi U r.

Definition ToUpperString (s : string) : string :=
  if is_ascii s then map_bytes upper_byte s else ToUpper_hi U s.

Definition ToLowerString (s : string) : string :=
  if is_ascii s then map_bytes lower_byte s else ToLower_hi U s.
End Unicode.

End Go.

Import Go.

(** ** Tokens *)

(** The constants of [TokenType].  The type is [uint16] in the source: its
    values without a constant are reached through [TokenType_of_value]. *)
Inductive TokenType : Type :=
| TokenNil | TokenEOF | TokenError | TokenText | TokenComment
| TokenCommentStart | TokenCommentEnd | TokenCommentSingleLine
| TokenCommentHash
| TokenBool | TokenFloat | TokenInteger | TokenString | TokenList | TokenMap
| TokenStar | TokenEqual | TokenNE | TokenGE | TokenLE | TokenGT | TokenLT
| TokenLeftParenthesis | TokenRightParenthesis | TokenComma
| TokenLogicOr | TokenLogicAnd | TokenIN | TokenLike | TokenNegate
| TokenEOS | TokenUdfExpr | TokenTable | TokenColumn | TokenInsert
| TokenInto | TokenUpdate | TokenSet | TokenAs | TokenDelete | TokenFrom
| TokenSelect | TokenSkip | TokenWhere | TokenGroupBy | TokenValues
| TokenValue | TokenValueWithSingleQuote | TokenKey | TokenTag.

Record Token : Type := mkToken { T : TokenType; V : string }.

(** [TokenType.String], through [TokenNameMap]. *)
Definition TokenType_String (typ : TokenType) : string :=
  match typ with
  | TokenEOF => "EOF"
  | TokenError => "Error"
  | TokenComment => "Comment"
  | TokenCommentStart => "/*"
  | TokenCommentEnd => "*/"
  | TokenCommentHash => "#"
  | TokenCommentSingleLine => "--"
  | TokenText => "Text"
  | TokenBool => "Bool"
  | TokenFloat => "Float"
  | TokenInteger => "Integer"
  | TokenString => "String"
  | TokenList => "List"
  | TokenMap => "Map"
  | TokenStar => "Star"
  | TokenEqual => "Equal"
  | TokenNE => "NE"
  | TokenGE => "GE"
  | TokenLE => "LE"
  | TokenGT => "GT"
  | TokenLT => "LT"
  | TokenLeftParenthesis => "LeftParenthesis"
  | TokenRightParenthesis => "RightParenthesis"
  | TokenComma => "Comma"
  | TokenLogicOr => "Or"
  | TokenLogicAnd => "And"
  | TokenIN => "IN"
  | TokenLike => "LIKE"
  | TokenNegate => "NOT"
  | TokenUdfExpr => "EXPR"
  | TokenEOS => "EndOfStatement"
  | TokenTable => "table"
  | TokenColumn => "column"
  | TokenInsert => "insert"
  | TokenInto => "into"
  | TokenUpdate => "update"
  | TokenSet => "set"
  | TokenAs => "as"
  | TokenDelete => "delete"
  | TokenFrom => "from"
  | TokenSelect => "select"
  | TokenWhere => "where"
  | TokenGroupBy => "group by"
  | TokenValues => "values"
  | TokenValue => "value"
  | TokenValueWithSingleQuote => "valueWithSingleQuote"
  | TokenNil | TokenSkip | TokenKey | TokenTag => "not implemented"
  end.

(** ** The lexer record and its monad *)

(** The state functions of the source, as values.  [Fn_keyword] is the
    closure built by [makeStateFnKeyword]. *)
Inductive StateFn : Type :=
| Fn_lexStatement
| Fn_lexValue
| Fn_lexExpressionOrIdentity
| Fn_lexExpression
| Fn_keyword (tokenType : TokenType) (matchFn : StateFn)
| Fn_lexSqlFromTable
| Fn_lexSqlEndOfStatement
| Fn_lexSqlWhere
| Fn_lexSqlWhereColumn
| Fn_lexSqlWhereCommaOrLogicOrNext
| Fn_lexSqlWhereColumnExpr
| Fn_lexGroupBy
| Fn_lexSqlGroupByColumns
| Fn_lexColumnOrComma
| Fn_lexNumber.

Record NamedStateFn : Type := mkNamed { Name : string; Fn : StateFn }.

(** The fields [emitter], [doubleDelim] and [dialect] of the source are
    never read by the lexing code and are left out. *)
Record Lexer : Type := mkLexer {
  input : string;
  state : option StateFn;
  pos : Z;
  start : Z;
  width : Z;
  tokens : list Token;
  stack : list NamedStateFn
}.

(** [make(chan Token, 1)] *)
Definition tokens_cap : nat := 1.

Definition set_state (s : option StateFn) (l : Lexer) : Lexer :=
  mkLexer (input l) s (pos l) (start l) (width l) (tokens l) (stack l).
Definition set_pos (p : Z) (l : Lexer) : Lexer :=
  mkLexer (input l) (state l) p (start l) (width l) (tokens l) (stack l).
Definition set_start (p : Z) (l : Lexer) : Lexer :=
  mkLexer (input l) (state l) (pos l) p (width l) (tokens l) (stack l).
Definition set_width (w : Z) (l : Lexer) : Lexer :=
  mkLexer (input l) (state l) (pos l) (start l) w (tokens l) (stack l).
Definition set_tokens (ts : list Token) (l : Lexer) : Lexer :=
  mkLexer (input l) (state l) (pos l) (start l) (width l) ts (stack l).
Definition set_stack (st : list NamedStateFn) (l : Lexer) : Lexer :=
  mkLexer (input l) (state l) (pos l) (start l) (width l) (tokens l) st.

Inductive Result (A : Type) : Type :=
| Ret (a : A) (l : Lexer)      (* normal return *)
| Panic (msg : string)         (* run-time panic *)
| Blocked (t : Token) (l : Lexer)
    (* [l.tokens <- t] while the channel is full: no receiver can run *)
| NoFuel.                     (* the fuel of a loop ran out *)

Arguments Ret {A} a l.
Arguments Panic {A} msg.
Arguments Blocked {A} t l.
Arguments NoFuel {A}.

Definition M (A : Type) : Type := Lexer -> Result A.

Definition ret {A : Type} (a : A) : M A := fun l => Ret a l.

Definition bind {A B : Type} (m : M A) (k : A -> M B) : M B :=
  fun l =>
    match m l with
    | Ret a l' => k a l'
    | Panic msg => Panic msg
    | Blocked t l' => Blocked t l'
    | NoFuel => NoFuel
    end.

Declare Scope lexer_scope.
Delimit Scope lexer_scope with lexer.
Notation "x <- m ;; k" := (bind m (fun x => k))
  (at level 61, m at next level, right associativity) : lexer_scope.
Notation "m ;; k" := (bind m (fun _ => k))
  (at level 61, right associativity) : lexer_scope.
Local Open Scope lexer_scope.

Definition gets {A : Type} (f : Lexer -> A) : M A := fun l => Ret (f l) l.
Definition modify (f : Lexer -> Lexer) : M unit := fun l => Ret tt (f l).
Definition panic {A : Type} (msg : string) : M A := fun _ => Panic msg.
Definition no_fuel {A : Type} : M A := fun _ => NoFuel.

Definition bounds_panic : string :=
  "runtime error: index or slice bounds out of range".

(** A slice or index expression over the input: a value or a panic. *)
Definition checked {A : Type} (o : option A) : M A :=
  match o with
  | Some a => ret a
  | None => panic bounds_panic
  end.

Definition eof : rune := -1.
Definition decDigits : string := "0123456789".
Definition hexDigits : string := "0123456789ABCDEF".
Definition IDENTITY_CHARS : string := "_.".
Definition IDENTITY_LAX_CHARS : string := "_./ ".

Definition NewLexer (inp : string) : Lexer :=
  mkLexer inp (Some Fn_lexStatement) 0 0 0 [] [].

(** Rune literals.  The double quote is written by its code. *)
Definition ch (c : ascii) : rune := byte_val c.
Definition squote : rune := 39.
Definition dquote : rune := 34.
Definition is_quote (r : rune) : bool := (r =? squote) || (r =? dquote).

(** ** Helpers *)

Definition isDigit (r : rune) : bool := (r >=? ch "0") && (r <=? ch "9").

Definition isWhiteSpace (r : rune) : bool :=
  (r =? 13) || (r =? 10) || (r =? 9) || (r =? ch " ").

Section Helpers.
Variable U : Tables.

Definition isAlNum (r : rune) : bool :=
  (r =? ch "_") || IsLetter U r || IsDigit U r.

Definition isAlpha (r : rune) : bool :=
  (r =? ch "_") || IsLetter U r || (r =? ch ".").

Definition isAlNumOrPeriod (r : rune) : bool :=
  (r =? ch "_") || IsLetter U r || IsDigit U r || (r =? ch ".").

Definition isIdentifierRune (r : rune) : bool :=
  if IsLetter U r || IsDigit U r then true
  else existsb (fun allowedRune => allowedRune =? r) (runes IDENTITY_CHARS).

Definition isLaxIdentifierRune (r : rune) : bool :=
  if IsLetter U r || IsDigit U r then true
  else existsb (fun allowedRune => allowedRune =? r)
               (runes IDENTITY_LAX_CHARS).
End Helpers.

(** ** The continuation stack *)

(** [l.tokens <- t] *)
Definition send (t : Token) : M unit :=
  fun l =>
    if (List.length (tokens l) <? tokens_cap)%nat
    then Ret tt (set_tokens (tokens l ++ [t])%list l)
    else Blocked t l.

(** [errorf]: the message is already formatted by the caller. *)
Definition errorf (msg : string) : M (option StateFn) :=
  send (mkToken TokenError msg) ;; ret None.

Definition push (name : string) (st : StateFn) : M unit :=
  modify (fun l => set_stack (stack l ++ [mkNamed name st])%list l).

Definition pop : M (option StateFn) :=
  fun l =>
    match List.length (stack l) with
    | O => errorf "BUG in lexer: no states to pop." l
    | S li =>
      match nth_error (stack l) li with
      | Some last => Ret (Some (Fn last)) (set_stack (firstn li (stack l)) l)
      | None => Panic "runtime error: index out of range"
      end
    end.

(** ** The cursor *)

Definition next : M rune :=
  fun l =>
    if pos l >=? len (input l) then Ret eof (set_width 0 l)
    else
      match slice_from (input l) (pos l) with
      | None => Panic "runtime error: slice bounds out of range"
      | Some s =>
        let '(r, w) := DecodeRuneInString s in
        Ret r (set_pos (pos l + w) (set_width w l))
      end.

Fixpoint skipX (ct : nat) : M unit :=
  match ct with
  | O => ret tt
  | S ct' => _ <- next ;; skipX ct'
  end.

Definition backup : M unit :=
  modify (fun l => set_pos (pos l - width l) l).

Definition peek : M rune :=
  r <- next ;; backup ;; ret r.

(** [peekX]: the sum [l.pos+x] of two Go [int]s is taken in [Z]; the two
    agree as long as the sum does not exceed the largest [int]. *)
Definition peekX (x : Z) : M string :=
  fun l =>
    if pos l + x >? len (input l)
    then checked (slice_from (input l) (pos l)) l
    else checked (slice (input l) (pos l) (pos l + x)) l.

Definition isEnd : M bool :=
  gets (fun l => pos l >=? len (input l)).

Definition emit (t : TokenType) : M unit :=
  fun l =>
    match slice (input l) (start l) (pos l) with
    | None => Panic "runtime error: slice bounds out of range"
    | Some s => (send (mkToken t s) ;; modify (fun l => set_start (pos l) l)) l
    end.

Definition ignore : M unit :=
  modify (fun l => set_start (pos l) l).

Definition accept (valid : string) : M bool :=
  r <- next ;;
  if IndexRune valid r >=? 0 then ret true
  else backup ;; ret false.

Fixpoint acceptRun_loop (fuel : nat) (valid : string) : M unit :=
  match fuel with
  | O => no_fuel
  | S fuel' =>
    r <- next ;;
    if IndexRune valid r >=? 0 then acceptRun_loop fuel' valid else ret tt
  end.

Definition acceptRun (fuel : nat) (valid : string) : M bool :=
  p <- gets pos ;;
  acceptRun_loop fuel valid ;;
  backup ;;
  p' <- gets pos ;;
  ret (p' >? p).

Definition current : M string :=
  fun l =>
    match slice (input l) (start l) (pos l) with
    | None => Panic "runtime error: slice bounds out of range"
    | Some str => Ret str (set_start (pos l) l)
    end.

Fixpoint skipWhiteSpaces_loop (fuel : nat) : M unit :=
  match fuel with
  | O => no_fuel
  | S fuel' =>
    r <- next ;;
    if IsSpace r then skipWhiteSpaces_loop fuel' else ret tt
  end.

Definition skipWhiteSpaces (fuel : nat) : M unit :=
  skipWhiteSpaces_loop fuel ;; backup ;; ignore.

(** [errorToken] ignores its format: the token text is the pending lexeme. *)
Definition errorToken (format : string) : M (option StateFn) :=
  emit TokenError ;; ret None.

Fixpoint backup_times (i : nat) : M unit :=
  match i with
  | O => ret tt
  | S i' => backup ;; backup_times i'
  end.

Section Cursor.
Variable U : Tables.

(** The loop counter [i] advances one byte at a time, whatever the width
    of the rune decoded at [l.pos+i]; [n] is the number of iterations
    left, [len(l.input)-l.pos-i]. *)
Fixpoint peekWord_loop (n : nat) (i : Z) (word : string) : M string :=
  match n with
  | O => ret word
  | S n' =>
    fun l =>
      match slice_from (input l) (pos l + i) with
      | None => Panic "runtime error: slice bounds out of range"
      | Some s =>
        let '(r, _) := DecodeRuneInString s in
        if IsSpace r || negb (isAlNumOrPeriod U r) then Ret word l
        else peekWord_loop n' (i + 1) (word ++ string_of_rune r)%string l
      end
  end.

Definition peekWord : M string :=
  fun l => peekWord_loop (Z.to_nat (len (input l) - pos l)) 0 "" l.

Fixpoint match_loop (matchTo : list rune) (skip : Z) : M bool :=
  match matchTo with
  | [] => ret true
  | matchRune :: rest =>
    if skip >? 0 then match_loop rest (skip - 1)
    else
      nr <- next ;;
      if negb (matchRune =? nr) && negb (ToLower U nr =? matchRune)
      then ret false
      else match_loop rest skip
  end.

Definition match_ (matchTo : string) (skip : Z) : M bool :=
  ok <- match_loop (runes matchTo) skip ;;
  if ok then
    r <- peek ;;
    ret (isWhiteSpace r)
  else ret false.

Fixpoint tryMatch_loop (matchTo : list rune) (i : nat) : M bool :=
  match matchTo with
  | [] => ret true
  | matchRune :: rest =>
    let i := S i in
    nextRune <- next ;;
    if negb (ToLower U nextRune =? matchRune)
    then backup_times i ;; ret false
    else tryMatch_loop rest i
  end.

Definition tryMatch (matchTo : string) : M bool :=
  tryMatch_loop (runes matchTo) O.

Fixpoint isExpr_loop (n : nat) (i : Z) : M bool :=
  match n with
  | O => ret false
  | S n' =>
    fun l =>
      match slice_from (input l) (pos l + i) with
      | None => Panic "runtime error: slice bounds out of range"
      | Some s =>
        let '(r, _) := DecodeRuneInString s in
        if (r =? ch "(") && (i >? 0) then Ret true l
        else if IsSpace r then Ret false l
        else if negb (isAlNumOrPeriod U r) then Ret false l
        else isExpr_loop n' (i + 1) l
      end
  end.

Definition isExpr : M bool :=
  r <- peek ;;
  if r =? squote then ret false
  else if isDigit r then ret false
  else fun l => isExpr_loop (Z.to_nat (len (input l) - pos l)) 0 l.

Definition isNextKeyword : M bool :=
  word <- peekWord ;;
  ret (ToUpperString U word =? "FROM")%string.

Definition isIdentity : M bool :=
  r <- peek ;;
  if r =? squote then ret false
  else if isDigit r then ret false
  else if isAlpha U r then ret true
  else ret false.

Definition lexMatch (typ : TokenType) (skip : Z) (fn : option StateFn)
  : M (option StateFn) :=
  _ <- peekWord ;;
  m <- match_ (TokenType_String typ) skip ;;
  if m then emit typ ;; ret fn
  else
    cur <- current ;;
    errorToken ("Unexpected token:" ++ cur).

Definition lexIfElseMatch (fuel : nat) (typ : TokenType)
           (matchState noMatchState : option StateFn)
  : M (option StateFn) :=
  skipWhiteSpaces fuel ;;
  m <- tryMatch (TokenType_String typ) ;;
  if m then emit typ ;; ret matchState
  else ret noMatchState.
End Cursor.

(** ** State functions *)

Section States.
Variable U : Tables.

(** *** Comments *)

Fixpoint lexMultilineCmt_loop (fuel : nat) : M unit :=
  match fuel with
  | O => no_fuel
  | S fuel' =>
    fun l =>
      match slice_from (input l) (pos l) with
      | None => Panic "runtime error: slice bounds out of range"
      | Some s =>
        if HasPrefix s "*/" then Ret tt l
        else
          (r <- next ;;
           if eof =? r
           then panic "Unexpected end of file inside multiline comment"
           else lexMultilineCmt_loop fuel') l
      end
  end.

Definition lexMultilineCmt (fuel : nat) (nextFn : option StateFn)
  : M (option StateFn) :=
  _ <- next ;;
  _ <- next ;;
  lexMultilineCmt_loop fuel ;;
  _ <- next ;;
  _ <- next ;;
  emit TokenComment ;;
  ret nextFn.

Fixpoint lexSingleLineCmt_loop (fuel : nat) : M unit :=
  match fuel with
  | O => no_fuel
  | S fuel' =>
    r <- next ;;
    if (r =? 10) || (r =? eof) then backup
    else lexSingleLineCmt_loop fuel'
  end.

Definition lexSingleLineCmt (fuel : nat) (nextFn : option StateFn)
  : M (option StateFn) :=
  r <- next ;;
  (if (r =? ch "-") || (r =? ch "/") then _ <- next ;; ret tt else ret tt) ;;
  lexSingleLineCmt_loop fuel ;;
  emit TokenComment ;;
  ret nextFn.

Definition lexComment (fuel : nat) (nextFn : option StateFn)
  : M (option StateFn) :=
  fun l =>
    match slice_from (input l) (pos l) with
    | None => Panic "runtime error: slice bounds out of range"
    | Some s =>
      if HasPrefix s "/*" then lexMultilineCmt fuel nextFn l
      else if HasPrefix s "//" then lexSingleLineCmt fuel nextFn l
      else if HasPrefix s "--" then lexSingleLineCmt fuel nextFn l
      else if HasPrefix s "#" then lexSingleLineCmt fuel nextFn l
      else Ret None l
    end.

(** *** Statement *)

Definition lexStatement (fuel : nat) : M (option StateFn) :=
  skipWhiteSpaces fuel ;;
  r <- peek ;;
  if (r =? ch "/") || (r =? ch "-") || (r =? ch "#")
  then lexComment fuel (Some Fn_lexStatement)
  else if (r =? ch "s") || (r =? ch "S")
  then
    push "from keyword" (Fn_keyword TokenFrom Fn_lexSqlFromTable) ;;
    lexMatch U TokenSelect 0 (Some Fn_lexColumnOrComma)
  else
    (* default: only the log call, whose argument peeks again *)
    _ <- peek ;;
    (* Correctly reached EOF. *)
    p <- gets pos ;;
    s <- gets start ;;
    (if p >? s then emit TokenText else ret tt) ;;
    emit TokenEOF ;;
    ret None.

(** *** Values *)

(** The loop over a quoted value.  [rune] and [typ] are the loop's
    variables; each iteration starts with the [l.next()] of the [for]
    clause. *)
Fixpoint lexValue_quoted (fuel : nat) (typ : TokenType)
  : M (option StateFn) :=
  match fuel with
  | O => no_fuel
  | S fuel' =>
    rune <- next ;;
    if is_quote rune then
      e <- isEnd ;;
      if negb e then
        rune <- next ;;
        (* check for ''' *)
        if is_quote rune then
          (* typ = TokenValueWithSingleQuote, then the test [rune == 0] *)
          if rune =? 0
          then errorToken "string value was not delimited"
          else lexValue_quoted fuel' TokenValueWithSingleQuote
        else
          backup ;;
          backup ;;
          emit typ ;;
          _ <- next ;;
          ignore ;;
          ret None
      else
        (* at the very end *)
        backup ;;
        emit typ ;;
        _ <- next ;;
        ret None
    else if rune =? 0
    then errorToken "string value was not delimited"
    else lexValue_quoted fuel' typ
  end.

Fixpoint lexValue_plain (fuel : nat) : M unit :=
  match fuel with
  | O => no_fuel
  | S fuel' =>
    rune <- next ;;
    if negb (isWhiteSpace rune) && negb (rune =? ch ",")
       && negb (rune =? ch ")")
    then lexValue_plain fuel'
    else ret tt
  end.

(** The method [(l *Lexer) lexValue]. *)
Definition Lexer_lexValue (fuel : nat) : M (option StateFn) :=
  skipWhiteSpaces fuel ;;
  e <- isEnd ;;
  if e then errorToken "expected value but got EOF"
  else
    rune <- next ;;
    if rune =? ch ")" then ret None
    else if is_quote rune then
      ignore ;;
      lexValue_quoted fuel TokenValue
    else
      lexValue_plain fuel ;;
      backup ;;
      emit TokenValue ;;
      ret None.

(** The state function [lexValue]. *)
Definition lexValue (fuel : nat) : M (option StateFn) :=
  _ <- Lexer_lexValue fuel ;;
  ret None.

(** *** Identifiers and expressions *)

Fixpoint identifier_loop (fuel : nat) (p : rune -> bool) : M rune :=
  match fuel with
  | O => no_fuel
  | S fuel' =>
    r <- next ;;
    if p r then identifier_loop fuel' p else ret r
  end.

(** The argument of an [errorToken] call that slices the pending lexeme. *)
Definition lexeme : M string :=
  fun l => checked (slice (input l) (start l) (pos l)) l.

Definition lexIdentifier (fuel : nat) (typ : TokenType)
           (nextFn : option StateFn) : M (option StateFn) :=
  skipWhiteSpaces fuel ;;
  firstChar <- next ;;
  if (firstChar =? ch "[") || (firstChar =? squote) then
    ignore ;;
    nextChar <- next ;;
    if negb (IsLetter U nextChar) then
      s <- lexeme ;;
      errorToken ("identifier must begin with a letter " ++ s)
    else
      nextChar <- identifier_loop fuel (isLaxIdentifierRune U) ;;
      if ((firstChar =? ch "[") && (nextChar =? ch "]"))
         || ((firstChar =? squote) && (nextChar =? squote))
      then
        (* wasQouted = true *)
        backup ;;
        _ <- lexeme ;;
        emit typ ;;
        _ <- next ;;
        ignore ;;
        ret nextFn
      else
        errorToken ("unexpected character in identifier:  "
                    ++ string_of_rune nextChar)
  else
    if negb (IsLetter U firstChar) then
      s <- lexeme ;;
      errorToken ("identifier must begin with a letter " ++ s)
    else
      _ <- identifier_loop fuel (isIdentifierRune U) ;;
      backup ;;
      emit typ ;;
      ret nextFn.

Definition lexExpression : M (option StateFn) :=
  firstChar <- next ;;
  if negb (firstChar =? ch "(") then
    s <- lexeme ;;
    errorToken ("expression must begin with a paren: ( " ++ s)
  else
    emit TokenLeftParenthesis ;;
    ret (Some Fn_lexColumnOrComma).

Definition lexExpressionIdentifier (fuel : nat) (nextFn : option StateFn)
  : M (option StateFn) :=
  skipWhiteSpaces fuel ;;
  firstChar <- next ;;
  if negb (IsLetter U firstChar) then
    s <- lexeme ;;
    errorToken ("identifier must begin with a letter " ++ s)
  else
    _ <- identifier_loop fuel (isIdentifierRune U) ;;
    backup ;;
    emit TokenUdfExpr ;;
    ret nextFn.

Definition lexExpressionOrIdentity (fuel : nat) : M (option StateFn) :=
  skipWhiteSpaces fuel ;;
  _ <- peekWord U ;;
  _ <- peek ;;
  e <- isExpr U ;;
  if e then lexExpressionIdentifier fuel (Some Fn_lexExpression)
  else
    i <- isIdentity U ;;
    if i then
      _ <- peekWord U ;;
      _ <- lexIdentifier fuel TokenColumn None ;;
      ret None
    else Lexer_lexValue fuel.

(** *** FROM, WHERE, GROUP BY *)

(** The closure of [makeStateFnKeyword]; it matches [TokenFrom] whatever
    [tokenType] it was built with. *)
Definition makeStateFnKeyword (fuel : nat) (tokenType : TokenType)
           (matchFn : StateFn) : M (option StateFn) :=
  skipWhiteSpaces fuel ;;
  lexMatch U TokenFrom 0 (Some matchFn).

Definition lexSqlFromTable (fuel : nat) : M (option StateFn) :=
  _ <- peekWord U ;;
  lexIdentifier fuel TokenTable (Some Fn_lexSqlWhere).

Definition lexSqlEndOfStatement (fuel : nat) : M (option StateFn) :=
  skipWhiteSpaces fuel ;;
  r <- next ;;
  (if r =? ch ";" then emit TokenEOS else ret tt) ;;
  e <- isEnd ;;
  if e then ret None
  else
    cur <- current ;;
    errorToken ("Unexpected token:" ++ cur).

Definition lexSqlWhere (fuel : nat) : M (option StateFn) :=
  lexIfElseMatch U fuel TokenWhere
                 (Some Fn_lexSqlWhereColumn) (Some Fn_lexGroupBy).

Definition lexSqlWhereColumn (fuel : nat) : M (option StateFn) :=
  lexIdentifier fuel TokenColumn (Some Fn_lexSqlWhereColumnExpr).

(** The second [switch] of [lexSqlWhereCommaOrLogicOrNext]. *)
Definition lexSqlWhereLogic : M (option StateFn) :=
  word <- peekWord U ;;
  let word := ToUpperString U word in
  if (word =? "")%string then ret (Some Fn_lexGroupBy)
  else if (word =? "OR")%string then
    skipX 2 ;;
    emit TokenLogicOr ;;
    ret (Some Fn_lexSqlWhereColumn)
  else if (word =? "AND")%string then
    skipX 3 ;;
    backup ;;
    emit TokenLogicAnd ;;
    ret (Some Fn_lexSqlWhereColumn)
  else
    backup ;;
    (* Since we do not have another Where expr, then go to next *)
    ret (Some Fn_lexGroupBy).

Definition lexSqlWhereCommaOrLogicOrNext (fuel : nat)
  : M (option StateFn) :=
  skipWhiteSpaces fuel ;;
  r <- next ;;
  if r =? ch "(" then
    emit TokenLeftParenthesis ;;
    skipWhiteSpaces fuel ;;
    lexSqlWhereLogic
  else if r =? ch ")" then
    emit TokenRightParenthesis ;;
    skipWhiteSpaces fuel ;;
    lexSqlWhereLogic
  else if r =? ch "," then
    emit TokenComma ;;
    ret (Some Fn_lexSqlWhereColumn)
  else
    backup ;;
    lexSqlWhereLogic.

(** What follows the [switch] of [lexSqlWhereColumnExpr]. *)
Definition lexSqlWhereColumnExpr_end : M (option StateFn) :=
  push "lexSqlWhereCommaOrLogicOrNext" Fn_lexSqlWhereCommaOrLogicOrNext ;;
  push "lexValue" Fn_lexValue ;;
  ret None.

Definition lexSqlWhereColumnExpr (fuel : nat) : M (option StateFn) :=
  skipWhiteSpaces fuel ;;
  r <- next ;;
  if r =? ch "!" then
    r2 <- peek ;;
    if r2 =? ch "=" then
      _ <- next ;;
      emit TokenNE ;;
      lexSqlWhereColumnExpr_end
    else
      (* "Found ! without equal" is logged *)
      ret None
  else if r =? ch "=" then
    emit TokenEqual ;;
    lexSqlWhereColumnExpr_end
  else if r =? ch ">" then
    r2 <- peek ;;
    (if r2 =? ch "=" then _ <- next ;; emit TokenGE else ret tt) ;;
    emit TokenGT ;;
    lexSqlWhereColumnExpr_end
  else if r =? ch "<" then
    r2 <- peek ;;
    (if r2 =? ch "=" then _ <- next ;; emit TokenLE else ret tt) ;;
    lexSqlWhereColumnExpr_end
  else
    backup ;;
    word <- peekWord U ;;
    let word := ToUpperString U word in
    if (word =? "IN")%string then
      skipX 2 ;;
      emit TokenIN ;;
      push "lexSqlWhereCommaOrLogicOrNext"
           Fn_lexSqlWhereCommaOrLogicOrNext ;;
      push "lexColumnOrComma" Fn_lexColumnOrComma ;;
      ret None
    else if (word =? "LIKE")%string then
      skipX 4 ;;
      emit TokenLike ;;
      lexSqlWhereColumnExpr_end
    else
      lexSqlWhereColumnExpr_end.

Definition lexGroupBy (fuel : nat) : M (option StateFn) :=
  lexIfElseMatch U fuel TokenGroupBy
                 (Some Fn_lexSqlGroupByColumns)
                 (Some Fn_lexSqlEndOfStatement).

Definition lexSqlGroupByColumns : M (option StateFn) :=
  ret (Some Fn_lexColumnOrComma).

(** *** Column lists *)

Definition lexColumnOrComma_switch (r : rune) : M (option StateFn) :=
  if r =? ch "(" then
    emit TokenLeftParenthesis ;;
    ret (Some Fn_lexColumnOrComma)
  else if r =? ch ")" then
    emit TokenRightParenthesis ;;
    ret None
  else if r =? ch "," then
    emit TokenComma ;;
    ret (Some Fn_lexColumnOrComma)
  else if r =? ch "*" then
    emit TokenStar ;;
    ret None
  else
    backup ;;
    k <- isNextKeyword U ;;
    if k then ret None
    else
      n <- gets (fun l => List.length (stack l)) ;;
      (if (n <? 10)%nat
       then push "columnorcomma" Fn_lexColumnOrComma
       else ret tt) ;;
      ret (Some Fn_lexExpressionOrIdentity).

Definition lexColumnOrComma (fuel : nat) : M (option StateFn) :=
  skipWhiteSpaces fuel ;;
  r <- next ;;
  if ToLower U r =? ch "a" then
    p2 <- peekX 2 ;;
    if (ToLowerString U p2 =? "s ")%string then
      _ <- next ;;
      emit TokenAs ;;
      ret (Some Fn_lexValue)
    else lexColumnOrComma_switch r
  else lexColumnOrComma_switch r.

(** *** Numbers *)

(** The end of [scanNumber]: the next thing must not be alphanumeric. *)
Definition scanNumber_end (typ : TokenType) : M (TokenType * bool) :=
  r <- peek ;;
  if isAlNum U r then
    _ <- next ;;
    ret (typ, false)
  else ret (typ, true).

Definition scanNumber (fuel : nat) : M (TokenType * bool) :=
  let typ := TokenInteger in
  hasSign <- accept "+-" ;;
  p <- gets pos ;;
  inp <- gets input ;;
  prefix <- checked (slice inp p (p + 2)) ;;
  if (prefix =? "0x")%string then
    (* Hexadecimal. *)
    if hasSign then ret (typ, false)
    else
      _ <- acceptRun fuel "0x" ;;
      h <- acceptRun fuel hexDigits ;;
      if negb h then ret (typ, false)
      else
        d <- accept "." ;;
        if d then ret (typ, false)
        else scanNumber_end typ
  else
    (* Decimal. *)
    d <- acceptRun fuel decDigits ;;
    if negb d then ret (typ, false)
    else
      dot <- accept "." ;;
      r <- (if dot then
              f <- acceptRun fuel decDigits ;;
              if negb f then ret (typ, false) else ret (TokenFloat, true)
            else
              st <- gets start ;;
              b <- checked (index inp (if hasSign then st + 1 else st)) ;;
              if b =? ch "0" then ret (typ, false) else ret (typ, true)) ;;
      let '(typ, go_on) := r in
      if negb go_on then ret (typ, false)
      else
        e <- accept "e" ;;
        if e then
          _ <- accept "+-" ;;
          f <- acceptRun fuel decDigits ;;
          if negb f then ret (typ, false)
          else scanNumber_end TokenFloat
        else scanNumber_end typ.

Definition lexNumber (fuel : nat) : M (option StateFn) :=
  r <- scanNumber fuel ;;
  let '(typ, ok) := r in
  if negb ok then
    s <- lexeme ;;
    errorf ("bad number syntax: " ++ Quote U s)
  else
    (* Emits tokenFloat or tokenInteger. *)
    emit typ ;;
    ret None.

(** ** The driver *)

(** Calling a [StateFn] value. *)
Definition call (fuel : nat) (fn : StateFn) : M (option StateFn) :=
  match fn with
  | Fn_lexStatement => lexStatement fuel
  | Fn_lexValue => lexValue fuel
  | Fn_lexExpressionOrIdentity => lexExpressionOrIdentity fuel
  | Fn_lexExpression => lexExpression
  | Fn_keyword tokenType matchFn => makeStateFnKeyword fuel tokenType matchFn
  | Fn_lexSqlFromTable => lexSqlFromTable fuel
  | Fn_lexSqlEndOfStatement => lexSqlEndOfStatement fuel
  | Fn_lexSqlWhere => lexSqlWhere fuel
  | Fn_lexSqlWhereColumn => lexSqlWhereColumn fuel
  | Fn_lexSqlWhereCommaOrLogicOrNext => lexSqlWhereCommaOrLogicOrNext fuel
  | Fn_lexSqlWhereColumnExpr => lexSqlWhereColumnExpr fuel
  | Fn_lexGroupBy => lexGroupBy fuel
  | Fn_lexSqlGroupByColumns => lexSqlGroupByColumns
  | Fn_lexColumnOrComma => lexColumnOrComma fuel
  | Fn_lexNumber => lexNumber fuel
  end.

(** [l.state = l.state(l)] *)
Definition step (fuel : nat) : M unit :=
  st <- gets state ;;
  match st with
  | None => panic "invalid memory address or nil pointer dereference"
  | Some fn =>
    nxt <- call fuel fn ;;
    modify (set_state nxt)
  end.

Fixpoint NextToken (fuel : nat) : M Token :=
  match fuel with
  | O => no_fuel
  | S fuel' =>
    fun l =>
      match tokens l with
      | token :: rest => Ret token (set_tokens rest l)
      | [] =>
        match state l, stack l with
        | None, _ :: _ =>
          (st <- pop ;;
           modify (set_state st) ;;
           step fuel' ;;
           NextToken fuel') l
        | None, [] => Ret (mkToken TokenEOF "") l
        | Some _, _ => (step fuel' ;; NextToken fuel') l
        end
      end
  end.

(** [n] successive calls of [NextToken]. *)
Fixpoint NextTokens (fuel : nat) (n : nat) : M (list Token) :=
  match n with
  | O => ret []
  | S n' =>
    t <- NextToken fuel ;;
    ts <- NextTokens fuel n' ;;
    ret (t :: ts)
  end.
End States.

(** ** Notions used by the statements *)

(** A lexer over [inp] with no current state, as a state function finds it
    when it is run on its own. *)
Definition lexer_at (inp : string) : Lexer := mkLexer inp None 0 0 0 [] [].

(** What a caller can observe of one run of a state function: the state it
    returned and the tokens it left in the channel, or the token whose send
    blocked behind the tokens already queued. *)
Inductive Outcome : Type :=
| Returned (next : option StateFn) (queued : list Token)
| Stuck (queued : list Token) (pending : Token)
| Panicked (msg : string)
| OutOfFuel.

Definition outcome (r : Result (option StateFn)) : Outcome :=
  match r with
  | Ret nxt l => Returned nxt (tokens l)
  | Blocked t l => Stuck (tokens l) t
  | Panic msg => Panicked msg
  | NoFuel => OutOfFuel
  end.

Definition run_comparator (U : Tables) (fuel : nat) (s : string) : Outcome :=
  outcome (lexSqlWhereColumnExpr U fuel (lexer_at s)).

Definition run_number (U : Tables) (fuel : nat) (s : string) : Outcome :=
  outcome (lexNumber U fuel (lexer_at s)).

Definition run_identifier (U : Tables) (fuel : nat) (s : string) : Outcome :=
  outcome (lexIdentifier U fuel TokenColumn None (lexer_at s)).

(** A bare identifier: a letter followed by letters, digits, [_] or [.]. *)
Definition bare_identifier (U : Tables) (s : string) : bool :=
  match runes s with
  | [] => false
  | r :: rest => IsLetter U r && forallb (isIdentifierRune U) rest
  end.

Definition select_star (table : string) : string := "SELECT * FROM " ++ table.

(** The inputs of the worked examples. *)
Definition where_ge : string := "select a from t where a >= 5 ".
Definition typo : string := "selec * from t".

Definition from_kw : NamedStateFn :=
  mkNamed "from keyword" (Fn_keyword TokenFrom Fn_lexSqlFromTable).

(** The body of a quoted value that holds no quote (and no NUL) up to the
    end of the input. *)
Definition unclosed (body : string) : bool :=
  forallb (fun r => negb (is_quote r) && negb (r =? 0)) (runes body).

(** The rune on which [lexStatement] dispatches: the one it peeks after
    skipping white space. *)
Definition dispatch_rune (fuel : nat) (inp : string) : option rune :=
  match (skipWhiteSpaces fuel ;; peek) (NewLexer inp) with
  | Ret r _ => Some r
  | _ => None
  end.

Definition statement_prefix (r : rune) : bool :=
  (r =? ch "/") || (r =? ch "-") || (r =? ch "#")
  || (r =? ch "s") || (r =? ch "S").

(** What [next], [peek] and [skipWhiteSpaces] leave untouched. *)
Definition same_but_cursor (l l' : Lexer) : Prop :=
  input l' = input l /\ tokens l' = tokens l /\ stack l' = stack l /\
  state l' = state l.


(** [peekWord] as a function of the unread input. *)
Fixpoint peekWord_str (U : Tables) (s : string) (word : string) : string :=
  match s with
  | EmptyString => word
  | String _ t =>
    let '(r, _) := DecodeRuneInString s in
    if IsSpace r || negb (isAlNumOrPeriod U r) then word
    else peekWord_str U t (word ++ string_of_rune r)%string
  end.

(** ** The remaining functions of the source *)

(** [consumeWord] *)
Definition consumeWord (word : string) : M unit :=
  modify (fun l => set_pos (pos l + len word) l).

(** [strings.Count(s, "\n")] *)
Fixpoint count_newlines (s : string) : Z :=
  match s with
  | EmptyString => 0
  | String c t => (if byte_val c =? 10 then 1 else 0) + count_newlines t
  end.

(** [strings.LastIndex(s, "\n")], with [i] the offset of [s]. *)
Fixpoint LastIndex_newline_from (i : Z) (s : string) (found : Z) : Z :=
  match s with
  | EmptyString => found
  | String c t =>
    LastIndex_newline_from (i + 1) t (if byte_val c =? 10 then i else found)
  end.

Definition LastIndex_newline (s : string) : Z :=
  LastIndex_newline_from 0 s (-1).

(** [lineNumber]: one more than the newlines before the cursor. *)
Definition lineNumber : M Z :=
  fun l =>
    match slice (input l) 0 (pos l) with
    | None => Panic "runtime error: slice bounds out of range"
    | Some s => Ret (1 + count_newlines s) l
    end.

(** [columnNumber]: the distance to the last newline before the cursor, to
    the start of the input when there is none. *)
Definition columnNumber : M Z :=
  fun l =>
    match slice (input l) 0 (pos l) with
    | None => Panic "runtime error: slice bounds out of range"
    | Some s =>
      let n := LastIndex_newline s in
      let n := if n =? -1 then 0 else n in
      Ret (pos l - n) l
    end.

(** [lexLeftParen]; the token it emits is [TokenComment]. *)
Definition lexLeftParen (nextFn : option StateFn) : M (option StateFn) :=
  r <- next ;;
  if r =? ch "(" then
    emit TokenComment ;;
    ret nextFn
  else ret None.

Section MoreHelpers.
Variable U : Tables.

(** [isIdentCh]: a [switch] of two cases. *)
Definition isIdentCh (r : rune) : bool :=
  if isAlNum U r then true
  else if r =? ch "_" then true
  else false.
End MoreHelpers.

(** ** Further notions used by the statements *)

(** [push] for each state function of [sts], in order. *)
Fixpoint push_all (sts : list NamedStateFn) : M unit :=
  match sts with
  | [] => ret tt
  | s :: rest => push (Name s) (Fn s) ;; push_all rest
  end.

(** [n] calls of [pop]; the states they return, in order. *)
Fixpoint pop_all (n : nat) : M (list (option StateFn)) :=
  match n with
  | O => ret []
  | S n' =>
    st <- pop ;;
    sts <- pop_all n' ;;
    ret (st :: sts)
  end.

(** The lexer is finished: nothing queued, no state, no continuation. *)
Definition terminated (l : Lexer) : Prop :=
  tokens l = [] /\ state l = None /\ stack l = [].

(** The kinds that [TokenNameMap] has no entry for. *)
Definition unnamed (typ : TokenType) : bool :=
  match typ with
  | TokenNil | TokenSkip | TokenKey | TokenTag => true
  | _ => false
  end.

(** The runes the loop of an unquoted value goes on at. *)
Definition in_value (rune : rune) : bool :=
  negb (isWhiteSpace rune) && negb (rune =? ch ",") && negb (rune =? ch ")").

(** The runes the loop of a single-line comment goes on at. *)
Definition in_line (r : rune) : bool := negb ((r =? 10) || (r =? eof)).

(** The openings of a single-line comment. *)
Definition comment_prefix (prefix : string) : Prop :=
  prefix = "#" \/ prefix = "--" \/ prefix = "//".

(** The message of the panic of [lexMultilineCmt]. *)
Definition eof_in_comment : string :=
  "Unexpected end of file inside multiline comment".

(** The width left by reading [m]. *)
Definition width_after (m : string) (w : Z) : Z :=
  match m with
  | EmptyString => w
  | _ => 1
  end.

(** A byte that belongs to a word. *)
Definition word_byte (U : Tables) (c : ascii) : bool :=
  (byte_val c <? 128) && negb (IsSpace (byte_val c))
  && isAlNumOrPeriod U (byte_val c).

Fixpoint word_bytes (U : Tables) (m : string) : bool :=
  match m with
  | EmptyString => true
  | String c t => word_byte U c && word_bytes U t
  end.

(** What ends a word: the end of the input, or a rune that is white space
    or neither letter, digit, underscore nor period. *)
Definition word_end (U : Tables) (rest : string) : Prop :=
  rest = EmptyString \/
  (let r := fst (DecodeRuneInString rest) in
   IsSpace r || negb (isAlNumOrPeriod U r)) = true.

(** The stack after [lexColumnOrComma] has seen the start of a column. *)
Definition pushed_below_ten (stk : list NamedStateFn) : list NamedStateFn :=
  if (List.length stk <? 10)%nat
  then (stk ++ [mkNamed "columnorcomma" Fn_lexColumnOrComma])%list
  else stk.

(** [TokenType] is [uint16] in the source.  Its constants are numbered by
    [iota], from [TokenNil = 0] to [TokenTag = 49], in this order; the
    other values of the type have no constant and no entry in
    [TokenNameMap]. *)
Definition token_constants : list TokenType :=
  [TokenNil; TokenEOF; TokenError; TokenText; TokenComment;
   TokenCommentStart; TokenCommentEnd; TokenCommentSingleLine;
   TokenCommentHash; TokenBool; TokenFloat; TokenInteger; TokenString;
   TokenList; TokenMap; TokenStar; TokenEqual; TokenNE; TokenGE; TokenLE;
   TokenGT; TokenLT; TokenLeftParenthesis; TokenRightParenthesis;
   TokenComma; TokenLogicOr; TokenLogicAnd; TokenIN; TokenLike;
   TokenNegate; TokenEOS; TokenUdfExpr; TokenTable; TokenColumn;
   TokenInsert; TokenInto; TokenUpdate; TokenSet; TokenAs; TokenDelete;
   TokenFrom; TokenSelect; TokenSkip; TokenWhere; TokenGroupBy;
   TokenValues; TokenValue; TokenValueWithSingleQuote; TokenKey; TokenTag].

(** The constant whose value is [n], if there is one. *)
Definition TokenType_of_value (n : Z) : option TokenType :=
  if n <? 0 then None else nth_error token_constants (Z.to_nat n).

(** [TokenType.String] on any value of the type: the name in
    [TokenNameMap], or the default. *)
Definition String_of_value (n : Z) : string :=
  match TokenType_of_value n with
  | Some typ => TokenType_String typ
  | None => "not implemented"
  end.

(** The value [n] has an entry in [TokenNameMap]. *)
Definition named_value (n : Z) : bool :=
  match TokenType_of_value n with
  | Some typ => negb (unnamed typ)
  | None => false
  end.

(** [math.MaxInt32].  Go's [int] holds 32 bits at least, so that a sum of
    [int]s up to this bound wraps on no platform. *)
Definition MaxInt32 : Z := 2147483647.

(** The name inside a quoted identifier: a letter, then letters, digits,
    underscores, periods, slashes and blanks. *)
Definition lax_name (U : Tables) (s : string) : bool :=
  match runes s with
  | [] => false
  | r :: rest => IsLetter U r && forallb (isLaxIdentifierRune U) rest
  end.

(** The bytes that open a quoted identifier. *)
Definition opens (op : ascii) : bool :=
  (byte_val op =? ch "[") || (byte_val op =? squote).

(** The byte [cl] closes what [op] opened: a bracket for a bracket, a single
    quote for a single quote. *)
Definition closes (op cl : ascii) : bool :=
  ((byte_val op =? ch "[") && (byte_val cl =? ch "]"))
  || ((byte_val op =? squote) && (byte_val cl =? squote)).

(** * Properties *)

(** ** Strings and slices *)

Lemma len_nonneg (s : string) : 0 <= len s.
Proof. unfold len; lia. Qed.

Lemma len_String (c : ascii) (s : string) : len (String c s) = len s + 1.
Proof. unfold len; cbn [String.length]; lia. Qed.

Lemma drop_length (n : nat) (s : string) :
  String.length (drop n s) = (String.length s - n)%nat.
Proof.
  revert s; induction n as [|n IH]; intros [|c s]; cbn; auto.
Qed.

Lemma drop_all (n : nat) (s : string) :
  (String.length s <= n)%nat -> drop n s = EmptyString.
Proof.
  revert s; induction n as [|n IH]; intros [|c s]; cbn; intros H;
    try reflexivity; try lia.
  apply IH; lia.
Qed.

Lemma drop_nonempty (n : nat) (s : string) :
  (n < String.length s)%nat -> drop n s <> EmptyString.
Proof.
  intros H E. apply (f_equal String.length) in E.
  rewrite drop_length in E. cbn in E. lia.
Qed.

Lemma drop_drop (n m : nat) (s : string) :
  drop m (drop n s) = drop (n + m) s.
Proof.
  revert s; induction n as [|n IH]; intros s; cbn; auto.
  destruct s as [|c s]; [destruct m; reflexivity | apply IH].
Qed.

Lemma take_all (n : nat) (s : string) :
  (String.length s <= n)%nat -> take n s = s.
Proof.
  revert s; induction n as [|n IH]; intros [|c s]; cbn; intros H;
    try reflexivity; try lia.
  f_equal; apply IH; lia.
Qed.

Lemma take_length (n : nat) (s : string) :
  String.length (take n s) = Nat.min n (String.length s).
Proof.
  revert s; induction n as [|n IH]; intros [|c s]; cbn; auto.
Qed.

Lemma slice_ok (s : string) (lo hi : Z) :
  0 <= lo <= hi -> hi <= len s ->
  slice s lo hi = Some (take (Z.to_nat (hi - lo)) (drop (Z.to_nat lo) s)).
Proof.
  intros H1 H2. unfold slice.
  replace (0 <=? lo) with true by (symmetry; apply Z.leb_le; lia).
  replace (lo <=? hi) with true by (symmetry; apply Z.leb_le; lia).
  replace (hi <=? len s) with true by (symmetry; apply Z.leb_le; lia).
  reflexivity.
Qed.

Lemma slice_from_ok (s : string) (lo : Z) :
  0 <= lo <= len s -> slice_from s lo = Some (drop (Z.to_nat lo) s).
Proof.
  intros H. unfold slice_from. rewrite slice_ok by lia.
  rewrite take_all; [reflexivity|].
  rewrite drop_length. unfold len in *. lia.
Qed.

Lemma slice_empty (s : string) (p : Z) :
  0 <= p <= len s -> slice s p p = Some EmptyString.
Proof.
  intros H. rewrite slice_ok by lia. rewrite Z.sub_diag. reflexivity.
Qed.

(** [hi <= len s] can be checked by computation when only a prefix of [s]
    is known. *)
Lemma le_len_take (s : string) (hi : Z) :
  0 <= hi -> String.length (take (Z.to_nat hi) s) = Z.to_nat hi -> hi <= len s.
Proof.
  intros H0 H. rewrite take_length in H. unfold len. lia.
Qed.

(** ** Decoding *)

Lemma DecodeRuneInString_width (s : string) :
  s <> EmptyString ->
  1 <= snd (DecodeRuneInString s) <= len s.
Proof.
  intros Hs. destruct s as [|c0 t0]; [congruence|].
  pose proof (len_nonneg t0) as H0. rewrite len_String.
  unfold DecodeRuneInString.
  destruct (byte_val c0 <? 128); cbn [snd]; [lia|].
  destruct (first (byte_val c0)) as [[[sz lo] hi]|]; cbn [snd]; [|lia].
  destruct (len (String c0 t0) <? sz); cbn [snd]; [lia|].
  destruct t0 as [|c1 t1]; cbn [snd]; [lia|].
  pose proof (len_nonneg t1) as H1. rewrite len_String.
  destruct ((byte_val c1 <? lo) || (hi <? byte_val c1)); cbn [snd]; [lia|].
  destruct (sz <=? 2); cbn [snd]; [lia|].
  destruct t1 as [|c2 t2]; cbn [snd]; [lia|].
  pose proof (len_nonneg t2) as H2. rewrite len_String.
  destruct (negb (cont_byte (byte_val c2))); cbn [snd]; [lia|].
  destruct (sz <=? 3); cbn [snd]; [lia|].
  destruct t2 as [|c3 t3]; cbn [snd]; [lia|].
  pose proof (len_nonneg t3) as H3. rewrite len_String.
  destruct (negb (cont_byte (byte_val c3))); cbn [snd]; lia.
Qed.

Lemma runes_from_ge (n : nat) (s : string) :
  (String.length s <= n)%nat -> runes_from n s = runes s.
Proof.
  unfold runes.
  remember (String.length s) as m eqn:Hm.
  revert n s Hm. induction m as [m IH] using lt_wf_ind. intros n s Hm Hn.
  destruct s as [|c t]; [cbn in Hm; subst m; destruct n; reflexivity|].
  destruct n as [|n]; [cbn in Hm; lia|].
  destruct m as [|m]; [cbn in Hm; lia|].
  cbn [runes_from].
  pose proof (DecodeRuneInString_width (String c t) ltac:(congruence)) as Hw.
  destruct (DecodeRuneInString (String c t)) as [r w]. cbn [snd] in Hw.
  f_equal.
  assert (Hl : (String.length (drop (Z.to_nat w) (String c t)) <= m)%nat).
  { rewrite drop_length. lia. }
  remember (drop (Z.to_nat w) (String c t)) as s'.
  rewrite (IH (String.length s')) with (n := n) (s := s'); try lia; auto.
  rewrite (IH (String.length s')) with (n := m) (s := s'); try lia; auto.
Qed.

Lemma runes_step (s : string) :
  s <> EmptyString ->
  runes s = fst (DecodeRuneInString s)
            :: runes (drop (Z.to_nat (snd (DecodeRuneInString s))) s).
Proof.
  intros Hs. pose proof (DecodeRuneInString_width s Hs) as Hw.
  unfold runes at 1. destruct s as [|c t]; [congruence|].
  cbn [String.length runes_from].
  destruct (DecodeRuneInString (String c t)) as [r w]. cbn [fst snd] in *.
  f_equal. apply runes_from_ge. rewrite drop_length. cbn [String.length]. lia.
Qed.

(** ** Letters *)

Lemma IsLetter_cases (U : Tables) (r : rune) :
  IsLetter U r = true ->
  65 <= r <= 90 \/ 97 <= r <= 122 \/ (128 <= r /\ letter_hi U r = true).
Proof.
  unfold IsLetter.
  destruct (Z.ltb_spec r 0); [discriminate|].
  destruct (Z.ltb_spec r 128).
  - rewrite orb_true_iff, !andb_true_iff, !Z.leb_le. lia.
  - intros H'. right; right. split; [lia | exact H'].
Qed.

Lemma IsSpace_false_ascii_letter (r : rune) :
  65 <= r <= 90 \/ 97 <= r <= 122 -> IsSpace r = false.
Proof.
  intros H. unfold IsSpace.
  rewrite !orb_false_iff, !andb_false_iff, !Z.leb_gt, !Z.eqb_neq. lia.
Qed.

Lemma IsLetter_not_space (U : Tables) (r : rune) :
  IsLetter U r = true -> IsSpace r = false.
Proof.
  intros H. destruct (IsLetter_cases U r H) as [H1|[H1|[H1 H2]]].
  - apply IsSpace_false_ascii_letter; lia.
  - apply IsSpace_false_ascii_letter; lia.
  - apply (letter_not_space U r H2).
Qed.

Lemma IsLetter_not_delim (U : Tables) (r : rune) :
  IsLetter U r = true -> (r =? ch "[") || (r =? squote) = false.
Proof.
  intros H. rewrite orb_false_iff, !Z.eqb_neq.
  change (ch "[") with 91. change squote with 39.
  destruct (IsLetter_cases U r H) as [H1|[H1|[H1 H2]]]; lia.
Qed.

Lemma isIdentifierRune_eof (U : Tables) : isIdentifierRune U eof = false.
Proof. reflexivity. Qed.

(** ** The monad *)

Lemma bind_eq {A B : Type} (m : M A) (k : A -> M B) (l : Lexer)
      (a : A) (l' : Lexer) (R : Result B) :
  m l = Ret a l' -> k a l' = R -> bind m k l = R.
Proof. intros H1 H2. unfold bind. rewrite H1. exact H2. Qed.

Lemma bind_NoFuel {A B : Type} (m : M A) (k : A -> M B) (l : Lexer) :
  m l = NoFuel -> bind m k l = NoFuel.
Proof. intros H. unfold bind. rewrite H. reflexivity. Qed.

Lemma bind_Panic {A B : Type} (m : M A) (k : A -> M B) (l : Lexer)
      (msg : string) :
  m l = Panic msg -> bind m k l = Panic msg.
Proof. intros H. unfold bind. rewrite H. reflexivity. Qed.

(** ** The cursor *)

(** [next] as a function of the unread input; it computes as soon as the
    bytes at the position are known. *)
Lemma next_view (l : Lexer) :
  0 <= pos l ->
  next l =
  match drop (Z.to_nat (pos l)) (input l) with
  | EmptyString => Ret eof (set_width 0 l)
  | String c t =>
    let '(r, w) := DecodeRuneInString (String c t) in
    Ret r (set_pos (pos l + w) (set_width w l))
  end.
Proof.
  intros H. unfold next.
  destruct (Z.geb_spec (pos l) (len (input l))) as [Hge|Hlt].
  - rewrite drop_all; [reflexivity | unfold len in Hge; lia].
  - rewrite slice_from_ok by lia.
    destruct (drop (Z.to_nat (pos l)) (input l)) eqn:E; [|reflexivity].
    exfalso. revert E. apply drop_nonempty. unfold len in Hlt. lia.
Qed.

Lemma next_at_end (l : Lexer) :
  len (input l) <= pos l -> next l = Ret eof (set_width 0 l).
Proof.
  intros H. unfold next.
  destruct (Z.geb_spec (pos l) (len (input l))); [reflexivity | lia].
Qed.

Lemma isEnd_at_end (l : Lexer) :
  len (input l) <= pos l -> isEnd l = Ret true l.
Proof.
  intros H. unfold isEnd, gets.
  destruct (Z.geb_spec (pos l) (len (input l))); [reflexivity | lia].
Qed.

Lemma next_spec (l l' : Lexer) (r : rune) :
  0 <= pos l <= len (input l) ->
  next l = Ret r l' ->
  pos l' - width l' = pos l /\ 0 <= width l' /\ pos l' <= len (input l') /\
  start l' = start l /\ same_but_cursor l l'.
Proof.
  intros Hpos. rewrite next_view by lia. unfold same_but_cursor.
  destruct (drop (Z.to_nat (pos l)) (input l)) as [|c t] eqn:E.
  - intros H; inversion H; subst; cbn. repeat split; lia.
  - pose proof (DecodeRuneInString_width (String c t) ltac:(congruence)) as Hw.
    assert (Hlen : len (String c t) = len (input l) - pos l).
    { rewrite <- E. unfold len. rewrite drop_length. unfold len in Hpos. lia. }
    destruct (DecodeRuneInString (String c t)) as [r' w]. cbn [snd] in Hw.
    intros H; inversion H; subst; cbn. repeat split; lia.
Qed.

(** [next] reads only the input and the position. *)
Lemma next_frame (l : Lexer) (s w : Z) (r : rune) (l' : Lexer) :
  next l = Ret r l' ->
  next (set_start s (set_width w l)) = Ret r (set_start s l').
Proof.
  unfold next. cbn [pos input set_start set_width].
  destruct (pos l >=? len (input l)).
  - intros H; inversion H; subst. reflexivity.
  - destruct (slice_from (input l) (pos l)); [|discriminate].
    destruct (DecodeRuneInString s0) as [r' w'].
    intros H; inversion H; subst. reflexivity.
Qed.

Lemma peek_spec (l l' : Lexer) (r : rune) :
  0 <= pos l <= len (input l) ->
  peek l = Ret r l' ->
  pos l' = pos l /\ start l' = start l /\ same_but_cursor l l' /\
  peek l' = Ret r l'.
Proof.
  intros Hpos H. unfold peek, bind in H.
  destruct (next l) as [r1 l1| | |] eqn:En; try discriminate.
  cbn in H. inversion H; subst r1 l'. clear H.
  destruct (next_spec l l1 r Hpos En) as (Hp & Hw & Hle & Hs & Hsame).
  cbn [pos start set_pos]. repeat split; try apply Hsame; auto.
  unfold peek. eapply bind_eq.
  - pose proof (next_frame l (start l) (width l1) r l1 En) as Hf.
    replace (set_pos (pos l1 - width l1) l1)
      with (set_start (start l) (set_width (width l1) l)); [exact Hf|].
    destruct Hsame as (Hi & Ht & Hk & Hst).
    destruct l, l1; cbn in *. subst. reflexivity.
  - cbn. destruct Hsame as (Hi & Ht & Hk & Hst).
    destruct l, l1; cbn in *. subst. reflexivity.
Qed.

Lemma skipWhiteSpaces_loop_spec (fuel : nat) :
  forall (l l' : Lexer),
    0 <= pos l <= len (input l) ->
    skipWhiteSpaces_loop fuel l = Ret tt l' ->
    0 <= pos l' - width l' /\ 0 <= width l' /\ pos l' <= len (input l') /\
    same_but_cursor l l'.
Proof.
  induction fuel as [|fuel IH]; intros l l' Hpos H; [discriminate|].
  cbn [skipWhiteSpaces_loop] in H. unfold bind in H.
  destruct (next l) as [r l1| | |] eqn:En; try discriminate.
  destruct (next_spec l l1 r Hpos En) as (Hp & Hw & Hle & Hs & Hsame).
  unfold same_but_cursor in *.
  destruct (IsSpace r).
  - apply IH in H; [|lia].
    destruct H as (H1 & H2 & H3 & H4). repeat split; try lia.
    all: destruct H4 as (? & ? & ? & ?), Hsame as (? & ? & ? & ?); congruence.
  - inversion H; subst. repeat split; try lia; apply Hsame.
Qed.

Lemma skipWhiteSpaces_spec (fuel : nat) (l l' : Lexer) :
  0 <= pos l <= len (input l) ->
  skipWhiteSpaces fuel l = Ret tt l' ->
  0 <= pos l' <= len (input l') /\ start l' = pos l' /\ same_but_cursor l l'.
Proof.
  intros Hpos H. unfold skipWhiteSpaces, bind in H.
  destruct (skipWhiteSpaces_loop fuel l) as [[] l1| | |] eqn:E; try discriminate.
  apply skipWhiteSpaces_loop_spec in E; [|exact Hpos].
  cbn in H. inversion H; subst l'. cbn.
  destruct E as (H1 & H2 & H3 & H4). repeat split; try lia; apply H4.
Qed.

Lemma peekWord_loop_view (U : Tables) (l : Lexer) (n : nat) :
  forall (i : Z) (word : string),
    0 <= pos l -> 0 <= i -> pos l + i <= len (input l) ->
    n = Z.to_nat (len (input l) - pos l - i) ->
    peekWord_loop U n i word l =
    Ret (peekWord_str U (drop (Z.to_nat (pos l + i)) (input l)) word) l.
Proof.
  induction n as [|n IH]; intros i word Hp Hi Hle Hn.
  - cbn. rewrite drop_all; [reflexivity | unfold len in *; lia].
  - cbn [peekWord_loop]. rewrite slice_from_ok by lia.
    destruct (drop (Z.to_nat (pos l + i)) (input l)) as [|c t] eqn:E.
    { exfalso. revert E. apply drop_nonempty. unfold len in *. lia. }
    cbn [peekWord_str].
    destruct (DecodeRuneInString (String c t)) as [r w].
    destruct (IsSpace r || negb (isAlNumOrPeriod U r)); [reflexivity|].
    rewrite IH by lia. do 2 f_equal.
    replace (Z.to_nat (pos l + (i + 1))) with (Z.to_nat (pos l + i) + 1)%nat
      by lia.
    rewrite <- drop_drop, E. reflexivity.
Qed.

Lemma peekWord_view (U : Tables) (l : Lexer) :
  0 <= pos l <= len (input l) ->
  peekWord U l = Ret (peekWord_str U (drop (Z.to_nat (pos l)) (input l)) "") l.
Proof.
  intros H. unfold peekWord.
  rewrite peekWord_loop_view by lia.
  rewrite Z.add_0_r. reflexivity.
Qed.

(** ** Running the lexer on an input of which a prefix is known

    [ev] evaluates a computation of [M] at a lexer given as a record,
    one [bind] at a time; reads of the input go through the views above. *)

Ltac head_of E := lazymatch E with ?f _ => head_of f | _ => E end.

Ltac le_len := apply le_len_take; [lia | cbn; reflexivity].

Ltac proj :=
  cbv beta iota delta [tokens state stack pos start width input
                       set_pos set_start set_width set_tokens set_stack
                       set_state].

Ltac ev_step :=
  cbv beta iota;
  lazymatch goal with
  | |- bind _ _ _ = _ => eapply bind_eq
  | |- ret _ _ = _ => reflexivity
  | |- Ret _ _ = _ => reflexivity
  | |- gets _ _ = _ => unfold gets; proj; reflexivity
  | |- modify _ _ = _ =>
      unfold modify; proj; cbn; rewrite ?Z.sub_0_r; reflexivity
  | |- next _ = _ =>
      first [ rewrite next_at_end by (proj; lia); proj; reflexivity
            | rewrite next_view by (proj; lia); proj; cbn; reflexivity ]
  | |- pop _ = _ =>
      unfold pop; proj; cbn [List.length nth_error firstn Fn]; reflexivity
  | |- isEnd _ = _ => rewrite isEnd_at_end by (proj; lia); reflexivity
  | |- peekWord _ _ = _ =>
      rewrite peekWord_view by (proj; split; [lia | le_len]); reflexivity
  | |- context [slice ?s ?a ?b] =>
      rewrite (slice_ok s a b) by (proj; first [lia | le_len]); cbn
  | |- context [runes ?s] =>
      let r := eval vm_compute in (runes s) in
      change (runes s) with r
  | |- (if ?c then _ else _) _ = _ =>
      let c' := eval vm_compute in c in
      (change c with c')
  | |- (if ?c then _ else _) = _ =>
      let c' := eval vm_compute in c in
      (change c with c')
  | |- ?E = _ =>
      let h := head_of E in
      first [progress cbn [h] | unfold h]; proj
  end.

Ltac ev := repeat ev_step.

(** ** The driver *)

(** Once the state is [nil], the stack empty and the channel drained, every
    call returns the end-of-input token and changes nothing. *)
Lemma NextToken_terminal (U : Tables) (fuel : nat) (l : Lexer) :
  tokens l = [] -> state l = None -> stack l = [] ->
  NextToken U (S fuel) l = Ret (mkToken TokenEOF "") l.
Proof.
  intros Ht Hs Hk. cbn [NextToken]. rewrite Ht, Hs, Hk. reflexivity.
Qed.

Section Concrete.
Variable U : Tables.
Variable k : nat.

(** C1 (the code departs from the claim).  The claim: a transition invoked
  by the driver emits one token and pauses, or returns a next state with
  no token, or ends the scan with an error token, and never emits two
  tokens.  On [select a from t where a >= 5 ] the first six calls of
  [NextToken] return SELECT, COLUMN, FROM, TABLE, WHERE, COLUMN; the
  seventh invokes [lexSqlWhereColumnExpr], which sends [>=] as TokenGE
  and, in the same invocation, goes on to send TokenGT: the second send
  finds the one-slot channel full and blocks, so the transition does
  none of the three things and [NextToken] never returns. *)
Theorem ge_transition_sends_twice :
NextTokens U (40 + k) 6 (NewLexer where_ge) =
Ret [mkToken TokenSelect "select"; mkToken TokenColumn "a";
     mkToken TokenFrom "from"; mkToken TokenTable "t";
     mkToken TokenWhere "where"; mkToken TokenColumn "a"]
    (mkLexer where_ge (Some Fn_lexSqlWhereColumnExpr) 23 23 1 [] []) /\
call U (40 + k) Fn_lexSqlWhereColumnExpr
     (mkLexer where_ge (Some Fn_lexSqlWhereColumnExpr) 23 23 1 [] []) =
Blocked (mkToken TokenGT "")
        (mkLexer where_ge (Some Fn_lexSqlWhereColumnExpr) 26 26 1
                 [mkToken TokenGE ">="] []) /\
NextToken U (40 + k)
     (mkLexer where_ge (Some Fn_lexSqlWhereColumnExpr) 23 23 1 [] []) =
Blocked (mkToken TokenGT "")
        (mkLexer where_ge (Some Fn_lexSqlWhereColumnExpr) 26 26 1
                 [mkToken TokenGE ">="] []).
Proof. repeat split; vm_compute; reflexivity. Qed.

(** C2 (the code departs from the claim).  The claim: after an
  end-of-input or error token every further call of [NextToken] returns
  end-of-input and never resumes scanning.  On [selec * from t] the first
  call returns an error token and leaves the FROM continuation on the
  stack; the second call pops it, scans on (the position moves from 6 to
  7) and returns a second error token; only the third call returns
  end-of-input. *)
Theorem scanning_resumes_after_error :
NextToken U (40 + k) (NewLexer typo) =
Ret (mkToken TokenError "") (mkLexer typo None 6 6 1 [] [from_kw]) /\
NextToken U (40 + k) (mkLexer typo None 6 6 1 [] [from_kw]) =
Ret (mkToken TokenError "") (mkLexer typo None 7 7 1 [] []) /\
NextToken U (40 + k) (mkLexer typo None 7 7 1 [] []) =
Ret (mkToken TokenEOF "") (mkLexer typo None 7 7 1 [] []).
Proof. repeat split; vm_compute; reflexivity. Qed.

(** C4 (the code departs from the claim).  The claim: the comparator lexer
  emits exactly one operator token for each of [!=], [=], [>], [>=],
  [<], [<=], IN, LIKE, and an error token for a bare [!].  What
  [lexSqlWhereColumnExpr] does: one token of the right kind for [!=],
  [=], [>], [<=], IN and LIKE; for [>=] it queues TokenGE and blocks on
  sending TokenGT; for [<] and for a bare [!] it returns with no token
  at all. *)
Theorem comparator_tokens :
run_comparator U (8 + k) "!= 5" = Returned None [mkToken TokenNE "!="] /\
run_comparator U (8 + k) "= 5" = Returned None [mkToken TokenEqual "="] /\
run_comparator U (8 + k) "> 5" = Returned None [mkToken TokenGT ">"] /\
run_comparator U (8 + k) "<= 5" = Returned None [mkToken TokenLE "<="] /\
run_comparator U (8 + k) "IN (1)" = Returned None [mkToken TokenIN "IN"] /\
run_comparator U (8 + k) "LIKE 'a'"
= Returned None [mkToken TokenLike "LIKE"] /\
run_comparator U (8 + k) ">= 5"
= Stuck [mkToken TokenGE ">="] (mkToken TokenGT "") /\
run_comparator U (8 + k) "< 5" = Returned None [] /\
run_comparator U (8 + k) "! 5" = Returned None [].
Proof. repeat split; vm_compute; reflexivity. Qed.

(** C7.  The number scanner classifies [123] as INTEGER, [123.45] as FLOAT,
  [0x1A2B] as INTEGER and [-3e-3] as FLOAT, each with the whole input as
  text, and answers [0123] and [0x1.5] with an error token whose text is
  the bad-number message. *)
Theorem number_classification :
run_number U (8 + k) "123" = Returned None [mkToken TokenInteger "123"] /\
run_number U (8 + k) "123.45"
= Returned None [mkToken TokenFloat "123.45"] /\
run_number U (8 + k) "0x1A2B"
= Returned None [mkToken TokenInteger "0x1A2B"] /\
run_number U (8 + k) "-3e-3" = Returned None [mkToken TokenFloat "-3e-3"] /\
run_number U (8 + k) "0123"
= Returned None
    [mkToken TokenError ("bad number syntax: " ++ Quote U "0123")] /\
run_number U (8 + k) "0x1.5"
= Returned None
    [mkToken TokenError ("bad number syntax: " ++ Quote U "0x1.")].
Proof. repeat split; vm_compute; reflexivity. Qed.

(** [lexIdentifier] on the quoted identifiers of the specification and on
    the two ways of mismatching their delimiters. *)
Lemma quoted_identifier_examples :
run_identifier U (16 + k) "[first name]"
= Returned None [mkToken TokenColumn "first name"] /\
run_identifier U (16 + k) "'first name'"
= Returned None [mkToken TokenColumn "first name"] /\
run_identifier U (16 + k) "[first name'"
= Returned None [mkToken TokenError "first name'"] /\
run_identifier U (16 + k) "'first name]"
= Returned None [mkToken TokenError "first name]"].
Proof. repeat split; vm_compute; reflexivity. Qed.
End Concrete.

(** ** SELECT * FROM table *)

(** The loop of [lexIdentifier] reads identifier runes up to the end of the
    input and stops on [eof]. *)
Lemma identifier_loop_end (p : rune -> bool) :
  p eof = false ->
  forall (fuel : nat) (l : Lexer),
    0 <= pos l <= len (input l) ->
    forallb p (runes (drop (Z.to_nat (pos l)) (input l))) = true ->
    (String.length (drop (Z.to_nat (pos l)) (input l)) < fuel)%nat ->
    identifier_loop fuel p l =
    Ret eof (mkLexer (input l) (state l) (len (input l)) (start l) 0
                     (tokens l) (stack l)).
Proof.
  intros Hp. induction fuel as [|fuel IH]; intros l Hpos Hall Hfuel; [lia|].
  cbn [identifier_loop]. unfold bind.
  rewrite next_view by lia.
  destruct (drop (Z.to_nat (pos l)) (input l)) as [|c t] eqn:E.
  - rewrite Hp. unfold ret. f_equal.
    assert (pos l = len (input l)) as Hend.
    { apply (f_equal String.length) in E. rewrite drop_length in E.
      cbn in E. unfold len in *. lia. }
    destruct l; cbn in *. subst. reflexivity.
  - pose proof (DecodeRuneInString_width (String c t) ltac:(congruence)) as Hw.
    rewrite runes_step in Hall by congruence.
    destruct (DecodeRuneInString (String c t)) as [r w].
    cbn [fst snd] in *. cbn [forallb] in Hall.
    apply andb_true_iff in Hall. destruct Hall as [Hr Hrest].
    rewrite Hr.
    assert (Hlen : len (String c t) = len (input l) - pos l).
    { rewrite <- E. unfold len. rewrite drop_length. unfold len in Hpos. lia. }
    assert (Hd : drop (Z.to_nat (pos l + w)) (input l)
                 = drop (Z.to_nat w) (String c t)).
    { rewrite <- E, drop_drop. f_equal. lia. }
    rewrite IH.
    + reflexivity.
    + cbn. lia.
    + cbn [pos input set_pos set_width]. rewrite Hd. exact Hrest.
    + cbn [pos input set_pos set_width]. rewrite Hd, drop_length.
      cbn [String.length] in *. lia.
Qed.

(** [lexIdentifier] on one space followed by a bare identifier that ends
    the input. *)
Lemma lexIdentifier_bare (U : Tables) (fuel : nat) (typ : TokenType)
      (nextFn : option StateFn) (inp : string) (st : option StateFn)
      (p s w : Z) (stk : list NamedStateFn) (tbl : string) :
  0 <= p ->
  drop (Z.to_nat p) inp = String " " tbl ->
  bare_identifier U tbl = true ->
  (String.length tbl + 2 <= fuel)%nat ->
  lexIdentifier U fuel typ nextFn (mkLexer inp st p s w [] stk) =
  Ret nextFn (mkLexer inp st (len inp) (len inp) 0 [mkToken typ tbl] stk).
Proof.
  intros Hp Hdrop Hbare Hfuel.
  assert (Hlen : len inp = p + 1 + len tbl).
  { apply (f_equal String.length) in Hdrop. rewrite drop_length in Hdrop.
    cbn [String.length] in Hdrop. unfold len. lia. }
  assert (Hdrop1 : drop (Z.to_nat (p + 1)) inp = tbl).
  { replace (Z.to_nat (p + 1)) with (Z.to_nat p + 1)%nat by lia.
    rewrite <- drop_drop, Hdrop. reflexivity. }
  unfold bare_identifier in Hbare.
  destruct tbl as [|c t]; [discriminate|].
  rewrite runes_step in Hbare by congruence.
  pose proof (DecodeRuneInString_width (String c t) ltac:(congruence)) as Hw.
  destruct (DecodeRuneInString (String c t)) as [r1 w1] eqn:Hdec.
  cbn [fst snd] in *.
  apply andb_true_iff in Hbare. destruct Hbare as [Hletter Hrest].
  pose proof (len_nonneg (String c t)) as Hn.
  (* the two reads of skipWhiteSpaces *)
  assert (Hnext0 : forall s' w',
             next (mkLexer inp st p s' w' [] stk) =
             Ret 32 (mkLexer inp st (p + 1) s' 1 [] stk)).
  { intros. rewrite next_view by (cbn; lia). cbn [pos input]. rewrite Hdrop.
    reflexivity. }
  assert (Hnext1 : forall s' w',
             next (mkLexer inp st (p + 1) s' w' [] stk) =
             Ret r1 (mkLexer inp st (p + 1 + w1) s' w1 [] stk)).
  { intros. rewrite next_view by (cbn; lia). cbn [pos input]. rewrite Hdrop1.
    rewrite Hdec. reflexivity. }
  destruct fuel as [|[|fuel]]; try lia.
  unfold lexIdentifier.
  eapply bind_eq.
  { unfold skipWhiteSpaces. eapply bind_eq.
    { cbn [skipWhiteSpaces_loop]. eapply bind_eq; [apply Hnext0|].
      change (IsSpace 32) with true. cbv iota.
      eapply bind_eq; [apply Hnext1|].
      rewrite (IsLetter_not_space U r1 Hletter). reflexivity. }
    eapply bind_eq; [reflexivity|]. reflexivity. }
  proj. replace (p + 1 + w1 - w1) with (p + 1) by lia.
  eapply bind_eq; [apply Hnext1|].
  rewrite (IsLetter_not_delim U r1 Hletter). rewrite Hletter. cbv iota.
  cbn [negb]. cbv iota.
  eapply bind_eq.
  { rewrite (identifier_loop_end _ (isIdentifierRune_eof U)).
    - reflexivity.
    - cbn [pos input]. lia.
    - cbn [pos input].
      replace (Z.to_nat (p + 1 + w1)) with (Z.to_nat (p + 1) + Z.to_nat w1)%nat
        by lia.
      rewrite <- drop_drop, Hdrop1. exact Hrest.
    - cbn [pos input].
      replace (Z.to_nat (p + 1 + w1)) with (Z.to_nat (p + 1) + Z.to_nat w1)%nat
        by lia.
      rewrite <- drop_drop, Hdrop1, drop_length. cbn [String.length] in *. lia. }
  proj.
  eapply bind_eq; [reflexivity|]. proj. rewrite Z.sub_0_r.
  eapply bind_eq.
  { unfold emit. proj. rewrite slice_ok by lia.
    replace (len inp - (p + 1)) with (len (String c t)) by lia.
    rewrite Hdrop1, take_all by (unfold len; lia).
    eapply bind_eq; [reflexivity|]. reflexivity. }
  reflexivity.
Qed.

(** After the table name, at the end of the input: no WHERE, no GROUP BY,
    nothing left, hence end-of-input. *)
Lemma after_table_eof (U : Tables) (fuel : nat) (inp : string) (s w : Z) :
  (5 <= fuel)%nat ->
  NextToken U fuel (mkLexer inp (Some Fn_lexSqlWhere) (len inp) s w [] []) =
  Ret (mkToken TokenEOF "") (mkLexer inp None (len inp) (len inp) 0 [] []).
Proof.
  intros Hf. destruct fuel as [|[|[|[|[|f]]]]]; try lia.
  pose proof (len_nonneg inp).
  ev.
Qed.

Section SelectStar.
Variable U : Tables.
Variable table : string.
Hypothesis Htable : bare_identifier U table = true.

Lemma select_call1 (fuel : nat) :
(3 <= fuel)%nat ->
NextToken U fuel (NewLexer (select_star table)) =
Ret (mkToken TokenSelect "SELECT")
    (mkLexer (select_star table) (Some Fn_lexColumnOrComma) 6 6 1 []
             [from_kw]).
Proof.
intros Hf. destruct fuel as [|[|[|f]]]; try lia.
unfold NewLexer, select_star, from_kw. ev.
Qed.

Lemma select_call2 (fuel : nat) :
(4 <= fuel)%nat ->
NextToken U fuel
          (mkLexer (select_star table) (Some Fn_lexColumnOrComma) 6 6 1 []
                   [from_kw]) =
Ret (mkToken TokenStar "*")
    (mkLexer (select_star table) None 8 8 1 [] [from_kw]).
Proof.
intros Hf. destruct fuel as [|[|[|[|f]]]]; try lia.
unfold select_star, from_kw. ev.
Qed.

Lemma select_call3 (fuel : nat) :
(4 <= fuel)%nat ->
NextToken U fuel (mkLexer (select_star table) None 8 8 1 [] [from_kw]) =
Ret (mkToken TokenFrom "FROM")
    (mkLexer (select_star table) (Some Fn_lexSqlFromTable) 13 13 1 [] []).
Proof.
intros Hf. destruct fuel as [|[|[|[|f]]]]; try lia.
unfold select_star, from_kw. ev.
Qed.

Lemma select_call4 (fuel : nat) :
(String.length table + 4 <= fuel)%nat ->
NextToken U fuel
          (mkLexer (select_star table) (Some Fn_lexSqlFromTable) 13 13 1
                   [] []) =
Ret (mkToken TokenTable table)
    (mkLexer (select_star table) (Some Fn_lexSqlWhere)
             (len (select_star table)) (len (select_star table)) 0 [] []).
Proof.
intros Hf. destruct fuel as [|[|f]]; try lia.
cbn [NextToken]. proj.
eapply bind_eq.
{ unfold step. eapply bind_eq; [reflexivity|]. cbv beta iota.
  eapply bind_eq; [|reflexivity].
  unfold call, lexSqlFromTable.
  eapply bind_eq.
  { unfold select_star. ev_step. }
  apply lexIdentifier_bare; [lia | reflexivity | exact Htable | lia]. }
reflexivity.
Qed.

(** C3.  For every bare identifier [table], five successive calls of
  [NextToken] on [SELECT * FROM table] return SELECT, STAR, FROM,
  TABLE with text [table], and end-of-input, provided the fuel covers the
  length of the table name. *)
Theorem select_star_from_table (fuel : nat) :
(String.length table + 5 <= fuel)%nat ->
NextTokens U fuel 5 (NewLexer (select_star table)) =
Ret [mkToken TokenSelect "SELECT"; mkToken TokenStar "*";
     mkToken TokenFrom "FROM"; mkToken TokenTable table;
     mkToken TokenEOF ""]
    (mkLexer (select_star table) None
             (len (select_star table)) (len (select_star table)) 0 [] []).
Proof.
intros Hf. cbn [NextTokens].
eapply bind_eq; [apply select_call1; lia|].
eapply bind_eq; [|reflexivity].
eapply bind_eq; [apply select_call2; lia|].
eapply bind_eq; [|reflexivity].
eapply bind_eq; [apply select_call3; lia|].
eapply bind_eq; [|reflexivity].
eapply bind_eq; [apply select_call4; lia|].
eapply bind_eq; [|reflexivity].
eapply bind_eq; [apply after_table_eof; lia|].
reflexivity.
Qed.
End SelectStar.

Lemma select_star_from_table_witness :
  bare_identifier ascii_tables "users" = true /\
  (String.length "users" + 5 <= 16)%nat /\
  NextTokens ascii_tables 16 5 (NewLexer (select_star "users")) =
  Ret [mkToken TokenSelect "SELECT"; mkToken TokenStar "*";
       mkToken TokenFrom "FROM"; mkToken TokenTable "users";
       mkToken TokenEOF ""]
      (mkLexer (select_star "users") None
               (len (select_star "users")) (len (select_star "users")) 0
               [] []).
Proof.
  split; [reflexivity|]. split; [cbn; lia|].
  apply (select_star_from_table ascii_tables "users").
  - reflexivity.
  - cbn; lia.
Defined.

(** ** Quoted values that are never closed *)

(** At the end of the input [next] returns [eof], which is neither a quote
    nor the rune [0] the loop tests for, so the loop goes round for ever. *)
Lemma lexValue_quoted_diverges (fuel : nat) :
  forall (typ : TokenType) (l : Lexer),
    0 <= pos l <= len (input l) ->
    unclosed (drop (Z.to_nat (pos l)) (input l)) = true ->
    lexValue_quoted fuel typ l = NoFuel.
Proof.
  induction fuel as [|fuel IH]; intros typ l Hpos Hun; [reflexivity|].
  cbn [lexValue_quoted]. unfold bind at 1.
  rewrite next_view by lia.
  destruct (drop (Z.to_nat (pos l)) (input l)) as [|c t] eqn:E.
  - change (is_quote eof) with false. change (eof =? 0) with false. cbv iota.
    apply IH; cbn [pos input set_width]; [lia|]. rewrite E. exact Hun.
  - pose proof (DecodeRuneInString_width (String c t) ltac:(congruence)) as Hw.
    unfold unclosed in Hun. rewrite runes_step in Hun by congruence.
    destruct (DecodeRuneInString (String c t)) as [r w].
    cbn [fst snd forallb] in *.
    apply andb_true_iff in Hun. destruct Hun as [Hr Hrest].
    apply andb_true_iff in Hr. destruct Hr as [Hq H0].
    apply negb_true_iff in Hq. apply negb_true_iff in H0.
    rewrite Hq, H0.
    assert (Hlen : len (String c t) = len (input l) - pos l).
    { rewrite <- E. unfold len. rewrite drop_length. unfold len in Hpos. lia. }
    apply IH; cbn [pos input set_pos set_width]; [lia|].
    replace (Z.to_nat (pos l + w)) with (Z.to_nat (pos l) + Z.to_nat w)%nat
      by lia.
    rewrite <- drop_drop, E. exact Hrest.
Qed.

Lemma is_quote_ascii (q : ascii) :
  is_quote (byte_val q) = true ->
  (byte_val q <? 128) = true /\ IsSpace (byte_val q) = false /\
  (byte_val q =? ch ")") = false.
Proof.
  unfold is_quote, squote, dquote. intros H.
  apply orb_true_iff in H. rewrite !Z.eqb_eq in H.
  destruct H as [H|H]; rewrite H; repeat split; reflexivity.
Qed.

(** C5 (the code departs from the claim).  The claim: on a quoted value
    that is never closed the value lexer terminates with an
    unterminated-literal error token.  The code: for every input made of a
    quote followed by a body without quote or NUL, [lexValue] returns
    nothing, whatever fuel it is given: its loop waits for the rune [0],
    while the end of the input reads as [eof = -1]. *)
Theorem unterminated_quoted_value_diverges
        (q : ascii) (body : string) (fuel : nat) :
  is_quote (byte_val q) = true ->
  unclosed body = true ->
  Lexer_lexValue fuel (lexer_at (String q body)) = NoFuel.
Proof.
  intros Hq Hbody.
  destruct (is_quote_ascii q Hq) as (Hlt & Hsp & Hparen).
  pose proof (len_nonneg body) as Hn.
  assert (Hnext : forall s w,
             next (mkLexer (String q body) None 0 s w [] []) =
             Ret (byte_val q) (mkLexer (String q body) None 1 s 1 [] [])).
  { intros. rewrite next_view by (cbn; lia). cbn [pos input Z.to_nat drop].
    cbn [DecodeRuneInString]. rewrite Hlt. reflexivity. }
  unfold Lexer_lexValue, lexer_at.
  destruct fuel as [|fuel].
  { apply bind_NoFuel. apply bind_NoFuel. reflexivity. }
  eapply bind_eq.
  { unfold skipWhiteSpaces. eapply bind_eq.
    { cbn [skipWhiteSpaces_loop]. eapply bind_eq; [apply Hnext|].
      rewrite Hsp. reflexivity. }
    eapply bind_eq; reflexivity. }
  proj. change (1 - 1) with 0.
  eapply bind_eq.
  { unfold isEnd, gets. proj. reflexivity. }
  replace (0 >=? len (String q body)) with false
    by (symmetry; rewrite Z.geb_leb; apply Z.leb_gt; rewrite len_String; lia).
  cbv iota.
  eapply bind_eq; [apply Hnext|].
  rewrite Hparen, Hq. cbv iota.
  eapply bind_eq; [reflexivity|]. proj.
  apply lexValue_quoted_diverges; cbn [pos input].
  - rewrite len_String. lia.
  - exact Hbody.
Qed.

Lemma unterminated_quoted_value_diverges_witness :
  is_quote (byte_val "'") = true /\
  unclosed "abc" = true /\
  Lexer_lexValue 1000 (lexer_at "'abc") = NoFuel.
Proof.
  split; [reflexivity|]. split; [reflexivity|].
  apply (unterminated_quoted_value_diverges "'" "abc" 1000); reflexivity.
Defined.

(** ** Statements that start with no known keyword *)

Lemma next_returns (l : Lexer) :
  0 <= pos l -> exists (r : rune) (l' : Lexer), next l = Ret r l'.
Proof.
  intros H. rewrite next_view by lia.
  destruct (drop (Z.to_nat (pos l)) (input l)) as [|c t]; [eauto|].
  destruct (DecodeRuneInString (String c t)) as [r w]. eauto.
Qed.

(** With more fuel than unread bytes the loop of [skipWhiteSpaces] ends. *)
Lemma skipWhiteSpaces_loop_returns (fuel : nat) :
  forall l : Lexer,
    0 <= pos l <= len (input l) ->
    (String.length (drop (Z.to_nat (pos l)) (input l)) < fuel)%nat ->
    exists l' : Lexer, skipWhiteSpaces_loop fuel l = Ret tt l'.
Proof.
  induction fuel as [|fuel IH]; intros l Hpos Hfuel; [lia|].
  cbn [skipWhiteSpaces_loop]. unfold bind.
  rewrite next_view by lia.
  destruct (drop (Z.to_nat (pos l)) (input l)) as [|c t] eqn:E.
  - change (IsSpace eof) with false. unfold ret. eauto.
  - pose proof (DecodeRuneInString_width (String c t) ltac:(congruence)) as Hw.
    assert (Hlen : len (String c t) = len (input l) - pos l).
    { rewrite <- E. unfold len. rewrite drop_length. unfold len in Hpos. lia. }
    destruct (DecodeRuneInString (String c t)) as [r w]. cbn [snd] in Hw.
    destruct (IsSpace r); [|unfold ret; eauto].
    apply IH; cbn [pos input set_pos set_width]; [lia|].
    replace (Z.to_nat (pos l + w)) with (Z.to_nat (pos l) + Z.to_nat w)%nat
      by lia.
    rewrite <- drop_drop, E, drop_length. cbn [String.length] in *. lia.
Qed.

(** [lexStatement] always finds a rune to dispatch on. *)
Lemma dispatch_rune_total (fuel : nat) (inp : string) :
  (String.length inp < fuel)%nat ->
  exists r : rune, dispatch_rune fuel inp = Some r.
Proof.
  intros Hfuel. pose proof (len_nonneg inp) as Hn.
  assert (Hb : 0 <= pos (NewLexer inp) <= len (input (NewLexer inp))).
  { unfold NewLexer; cbn [pos input]; lia. }
  assert (Hf : (String.length (drop (Z.to_nat (pos (NewLexer inp)))
                                   (input (NewLexer inp))) < fuel)%nat).
  { cbn [NewLexer pos input Z.to_nat drop]. exact Hfuel. }
  destruct (skipWhiteSpaces_loop_returns fuel (NewLexer inp) Hb Hf)
    as [l0 Hloop].
  assert (Hskip : exists l1, skipWhiteSpaces fuel (NewLexer inp) = Ret tt l1).
  { unfold skipWhiteSpaces, bind. rewrite Hloop.
    unfold backup, ignore, modify. eexists. reflexivity. }
  destruct Hskip as [l1 Hskip].
  destruct (skipWhiteSpaces_spec fuel _ _ Hb Hskip) as (Hp1 & _).
  destruct (next_returns l1 ltac:(lia)) as (r & l2 & Hnext).
  exists r. unfold dispatch_rune, bind. rewrite Hskip.
  unfold peek, bind. rewrite Hnext. reflexivity.
Qed.

(** C6 (the code departs from the claim).  The claim: when the first rune
    after the leading white space is none of [/], [-], [#], [s], [S], the
    statement lexer emits an error token and not a plain end-of-input.
    The code: for every input, when the rune [lexStatement] dispatches on
    is none of these five, [lexStatement] leaves exactly the token
    end-of-input with empty text in the channel and returns [nil], and
    that token is what the first call of [NextToken] returns. *)
Theorem lexStatement_unrecognized_is_EOF
        (U : Tables) (fuel : nat) (inp : string) (r : rune) :
  dispatch_rune fuel inp = Some r ->
  statement_prefix r = false ->
  exists l' : Lexer,
    lexStatement U fuel (NewLexer inp) = Ret None l' /\
    tokens l' = [mkToken TokenEOF ""] /\
    NextToken U (S fuel) (NewLexer inp) =
    Ret (mkToken TokenEOF "") (set_tokens [] (set_state None l')).
Proof.
  unfold dispatch_rune. intros Hd Hr.
  unfold bind in Hd.
  destruct (skipWhiteSpaces fuel (NewLexer inp)) as [[] l1| | |] eqn:Hskip;
    try discriminate.
  destruct (peek l1) as [r' l2| | |] eqn:Hpeek; try discriminate.
  inversion Hd; subst r'. clear Hd.
  pose proof (len_nonneg inp) as Hn.
  destruct (skipWhiteSpaces_spec fuel (NewLexer inp) l1
              ltac:(unfold NewLexer; cbn [pos input]; lia) Hskip)
    as (Hp1 & Hs1 & Hi1 & Ht1 & Hk1 & Hst1).
  destruct (peek_spec _ _ _ Hp1 Hpeek)
    as (Hp2 & Hs2 & (Hi2 & Ht2 & Hk2 & Hst2) & Hpeek2).
  cbn in Ht1, Hst1.
  unfold statement_prefix in Hr. rewrite !orb_false_iff in Hr.
  destruct Hr as ((((Hr1 & Hr2) & Hr3) & Hr4) & Hr5).
  assert (Hstmt : lexStatement U fuel (NewLexer inp) =
                  Ret None (set_start (pos l2)
                              (set_tokens [mkToken TokenEOF ""] l2))).
  { unfold lexStatement.
    eapply bind_eq; [exact Hskip|].
    eapply bind_eq; [exact Hpeek|].
    rewrite Hr1, Hr2, Hr3, Hr4, Hr5. cbn [orb]. cbv iota.
    eapply bind_eq; [exact Hpeek2|].
    eapply bind_eq; [reflexivity|].
    eapply bind_eq; [reflexivity|].
    replace (pos l2 >? start l2) with false
      by (symmetry; rewrite Z.gtb_ltb; apply Z.ltb_ge; lia).
    eapply bind_eq; [reflexivity|].
    eapply bind_eq; [|reflexivity].
    unfold emit. rewrite Hs2, Hs1, <- Hp2, slice_empty by (rewrite Hi2; lia).
    eapply bind_eq.
    - unfold send. rewrite Ht2, Ht1. reflexivity.
    - reflexivity. }
  eexists. split; [exact Hstmt|]. split; [reflexivity|].
  destruct fuel as [|fuel]; [discriminate Hskip|].
  cbn [NextToken]. cbn [tokens state NewLexer].
  eapply bind_eq.
  { unfold step. eapply bind_eq; [reflexivity|]. cbv beta iota.
    eapply bind_eq; [exact Hstmt|]. reflexivity. }
  cbn [NextToken]. reflexivity.
Qed.

Lemma lexStatement_unrecognized_is_EOF_witness :
  dispatch_rune 20 "insert into t" = Some (ch "i") /\
  statement_prefix (ch "i") = false /\
  exists l' : Lexer,
    lexStatement ascii_tables 20 (NewLexer "insert into t") = Ret None l' /\
    tokens l' = [mkToken TokenEOF ""] /\
    NextToken ascii_tables 21 (NewLexer "insert into t") =
    Ret (mkToken TokenEOF "") (set_tokens [] (set_state None l')).
Proof.
  split; [reflexivity|]. split; [reflexivity|].
  apply (lexStatement_unrecognized_is_EOF ascii_tables 20 "insert into t"
           (ch "i")); reflexivity.
Defined.

(** ** Stepping back *)




(** ** Numbers on short inputs *)

(** C10.  When fewer than two bytes are left after the optional sign, the
    slice [l.input[l.pos:l.pos+2]] of the hexadecimal test is out of
    range and [scanNumber] panics. *)
Theorem scanNumber_short_input_panics
        (U : Tables) (fuel : nat) (l : Lexer) (hasSign : bool) (l1 : Lexer) :
  accept "+-" l = Ret hasSign l1 ->
  len (input l1) - pos l1 < 2 ->
  scanNumber U fuel l = Panic bounds_panic.
Proof.
  intros Hacc Hshort. unfold scanNumber.
  eapply bind_eq; [exact Hacc|].
  eapply bind_eq; [reflexivity|].
  eapply bind_eq; [reflexivity|].
  apply bind_Panic. unfold slice.
  replace (pos l1 + 2 <=? len (input l1)) with false
    by (symmetry; apply Z.leb_gt; lia).
  rewrite andb_false_r. reflexivity.
Qed.

Lemma scanNumber_short_input_panics_witness :
  accept "+-" (lexer_at "+1") = Ret true (mkLexer "+1" None 1 0 1 [] []) /\
  len (input (mkLexer "+1" None 1 0 1 [] []))
  - pos (mkLexer "+1" None 1 0 1 [] []) < 2 /\
  scanNumber ascii_tables 8 (lexer_at "+1") = Panic bounds_panic.
Proof.
  split; [reflexivity|]. split; [reflexivity|].
  apply (scanNumber_short_input_panics ascii_tables 8 (lexer_at "+1") true
           (mkLexer "+1" None 1 0 1 [] [])); reflexivity.
Defined.

(** The three inputs the claim names. *)
Lemma scanNumber_single_digit_panics (U : Tables) (fuel : nat) :
  scanNumber U fuel (lexer_at "0") = Panic bounds_panic /\
  scanNumber U fuel (lexer_at "5") = Panic bounds_panic /\
  scanNumber U fuel (lexer_at "+1") = Panic bounds_panic.
Proof. repeat split; vm_compute; reflexivity. Qed.

(** Conversely, [scanNumber] returns only when two bytes were left. *)
Lemma scanNumber_returns_only_with_two_bytes
      (U : Tables) (fuel : nat) (l : Lexer) (x : TokenType * bool)
      (l' : Lexer) :
  scanNumber U fuel l = Ret x l' ->
  exists (hasSign : bool) (l1 : Lexer),
    accept "+-" l = Ret hasSign l1 /\ pos l1 + 2 <= len (input l1).
Proof.
  intros H. unfold scanNumber in H. unfold bind at 1 in H.
  destruct (accept "+-" l) as [hasSign l1| | |] eqn:Hacc; try discriminate.
  exists hasSign, l1. split; [reflexivity|].
  unfold bind at 1 in H. cbn [gets] in H. unfold bind at 1 in H. cbn [gets] in H.
  unfold bind at 1 in H. unfold slice in H.
  destruct (Z.leb_spec (pos l1 + 2) (len (input l1))); [assumption|].
  rewrite andb_false_r in H. discriminate.
Qed.

(** * Further properties

    The functions the properties above leave aside, and the ones they
    touch, on inputs of any length: what is known of the input is a
    prefix and the shape of what follows it. *)

(** ** The continuation stack, the driver at rest, the names of tokens *)

Lemma set_stack_same (l : Lexer) : set_stack (stack l) l = l.
Proof. destruct l; reflexivity. Qed.

Lemma pop_last (l : Lexer) (stk : list NamedStateFn) (e : NamedStateFn) :
  pop (set_stack (stk ++ [e])%list l) = Ret (Some (Fn e)) (set_stack stk l).
Proof.
  unfold pop. cbn [stack set_stack].
  rewrite length_app. cbn [List.length].
  replace (List.length stk + 1)%nat with (S (List.length stk)) by lia.
  rewrite nth_error_app2 by lia. rewrite Nat.sub_diag. cbn [nth_error].
  rewrite firstn_app, Nat.sub_diag, firstn_all. cbn [firstn].
  rewrite app_nil_r. reflexivity.
Qed.

Lemma push_all_stack (sts : list NamedStateFn) :
  forall l : Lexer,
    push_all sts l = Ret tt (set_stack (stack l ++ sts)%list l).
Proof.
  induction sts as [|s sts IH]; intros l.
  - cbn. rewrite app_nil_r, set_stack_same. reflexivity.
  - cbn [push_all]. unfold bind, push, modify. rewrite IH.
    cbn [stack set_stack]. rewrite <- app_assoc. destruct s; reflexivity.
Qed.

Lemma pop_all_rev (sts : list NamedStateFn) :
  forall (l : Lexer) (stk : list NamedStateFn),
    pop_all (List.length sts) (set_stack (stk ++ sts)%list l) =
    Ret (map (fun s => Some (Fn s)) (rev sts)) (set_stack stk l).
Proof.
  induction sts as [|s sts IH] using rev_ind; intros l stk.
  - cbn. rewrite app_nil_r. reflexivity.
  - rewrite length_app. cbn [List.length].
    replace (List.length sts + 1)%nat with (S (List.length sts)) by lia.
    cbn [pop_all]. unfold bind at 1.
    rewrite app_assoc, pop_last. unfold bind at 1. rewrite IH.
    rewrite rev_app_distr. reflexivity.
Qed.

(** X1.  The stack of continuations is last in, first out: after the
    state functions of [sts] are pushed in order, as many calls of [pop]
    return them in reverse order, and the lexer is as it was before. *)
Theorem push_pop_lifo (sts : list NamedStateFn) (l : Lexer) :
  (push_all sts ;; pop_all (List.length sts)) l =
  Ret (map (fun s => Some (Fn s)) (rev sts)) l.
Proof.
  unfold bind. rewrite push_all_stack.
  pose proof (pop_all_rev sts l (stack l)) as H.
  rewrite H, set_stack_same. reflexivity.
Qed.

(** X2.  Once the channel is empty, the state nil and the stack empty,
    every further call of [NextToken] returns the end-of-input token with an
    empty text and leaves the lexer as it is. *)
Theorem NextTokens_terminal (U : Tables) (fuel n : nat) (l : Lexer) :
  terminated l ->
  NextTokens U (S fuel) n l = Ret (repeat (mkToken TokenEOF "") n) l.
Proof.
  intros (Ht & Hs & Hk). induction n as [|n IH]; [reflexivity|].
  cbn [NextTokens repeat]. unfold bind at 1.
  rewrite NextToken_terminal by assumption.
  unfold bind. rewrite IH. reflexivity.
Qed.

Lemma NextTokens_terminal_witness :
  terminated (lexer_at "select") /\
  NextTokens ascii_tables 1 3 (lexer_at "select") =
  Ret (repeat (mkToken TokenEOF "") 3) (lexer_at "select").
Proof.
  assert (H : terminated (lexer_at "select")) by (repeat split; reflexivity).
  exact (conj H (NextTokens_terminal ascii_tables 0 3 (lexer_at "select") H)).
Defined.

Lemma TokenType_String_declared (a b : TokenType) :
  TokenType_String a = TokenType_String b ->
  a = b \/ (unnamed a = true /\ unnamed b = true).
Proof.
  destruct a; destruct b; intros H;
    first [ left; reflexivity
          | right; split; reflexivity
          | discriminate H ].
Qed.

Lemma TokenType_String_default (a : TokenType) :
  TokenType_String a = "not implemented" -> unnamed a = true.
Proof. destruct a; intros H; first [reflexivity | discriminate H]. Qed.

Lemma token_constants_NoDup : NoDup token_constants.
Proof.
  unfold token_constants.
  repeat (constructor;
          [cbn [In]; intros H;
           repeat (destruct H as [H|H]; [discriminate H|]); exact H|]).
  constructor.
Qed.

Lemma TokenType_of_value_inj (a b : Z) (typ : TokenType) :
  TokenType_of_value a = Some typ ->
  TokenType_of_value b = Some typ ->
  a = b.
Proof.
  unfold TokenType_of_value. intros Ha Hb.
  destruct (Z.ltb_spec a 0); [discriminate|].
  destruct (Z.ltb_spec b 0); [discriminate|].
  assert (Hlt : (Z.to_nat a < List.length token_constants)%nat).
  { apply nth_error_Some. rewrite Ha. discriminate. }
  pose proof (proj1 (NoDup_nth_error token_constants) token_constants_NoDup
                    (Z.to_nat a) (Z.to_nat b) Hlt) as Hinj.
  rewrite Ha, Hb in Hinj. specialize (Hinj eq_refl). lia.
Qed.

(** X3.  [TokenType.String] on the values of [uint16]: two values print the
    same name only when they are the same value, or when neither has an
    entry in [TokenNameMap] (the constants [TokenNil], [TokenSkip],
    [TokenKey] and [TokenTag], and every value from 50 on). *)
Theorem TokenType_String_distinct (a b : Z) :
  String_of_value a = String_of_value b ->
  a = b \/ (named_value a = false /\ named_value b = false).
Proof.
  unfold String_of_value, named_value. intros H.
  destruct (TokenType_of_value a) as [ta|] eqn:Ea;
    destruct (TokenType_of_value b) as [tb|] eqn:Eb.
  - destruct (TokenType_String_declared ta tb H) as [->|[Hua Hub]].
    + left. apply (TokenType_of_value_inj a b tb Ea Eb).
    + right. rewrite Hua, Hub. split; reflexivity.
  - right. rewrite (TokenType_String_default ta H). split; reflexivity.
  - right. rewrite (TokenType_String_default tb (eq_sym H)).
    split; reflexivity.
  - right. split; reflexivity.
Qed.

Lemma TokenType_String_distinct_witness :
  String_of_value 50 = String_of_value 51 /\
  (50 = 51 \/ (named_value 50 = false /\ named_value 51 = false)).
Proof.
  assert (H : String_of_value 50 = String_of_value 51) by reflexivity.
  exact (conj H (TokenType_String_distinct 50 51 H)).
Defined.

(** ** More on strings *)

Lemma length_app_string (a b : string) :
  String.length (a ++ b) = (String.length a + String.length b)%nat.
Proof. induction a as [|c a IH]; cbn; [reflexivity | rewrite IH; reflexivity]. Qed.

Lemma len_app (a b : string) : len (a ++ b) = len a + len b.
Proof. unfold len. rewrite length_app_string. lia. Qed.

Lemma drop_app_le (n : nat) (a b : string) :
  (n <= String.length a)%nat -> drop n (a ++ b) = (drop n a ++ b)%string.
Proof.
  revert a; induction n as [|n IH]; intros a H; [reflexivity|].
  destruct a as [|c a]; cbn in *; [lia | apply IH; lia].
Qed.

Lemma drop_app_length (a b : string) : drop (String.length a) (a ++ b) = b.
Proof.
  rewrite drop_app_le by lia. rewrite drop_all by lia. reflexivity.
Qed.

Lemma take_app_length (a b : string) : take (String.length a) (a ++ b) = a.
Proof. induction a as [|c a IH]; cbn; [reflexivity | rewrite IH; reflexivity]. Qed.

Lemma app_assoc_string (a b c : string) :
  ((a ++ b) ++ c = a ++ (b ++ c))%string.
Proof. induction a as [|x a IH]; cbn; [reflexivity | rewrite IH; reflexivity]. Qed.

Lemma app_empty_r (a : string) : (a ++ "")%string = a.
Proof. induction a as [|x a IH]; cbn; [reflexivity | rewrite IH; reflexivity]. Qed.

(** ** More on decoding *)

Lemma first_lo (s0 sz lo hi : Z) :
  first s0 = Some (sz, lo, hi) -> 128 <= lo.
Proof.
  unfold first.
  repeat match goal with
         | |- context [if ?c then _ else _] => destruct c
         end; intros H; inversion H; lia.
Qed.

Lemma byte_val_range (c : ascii) : 0 <= byte_val c < 256.
Proof.
  unfold byte_val. pose proof (N_ascii_bounded c). lia.
Qed.

Lemma first_hi (s0 sz lo hi : Z) :
  first s0 = Some (sz, lo, hi) -> hi <= 191.
Proof.
  unfold first.
  repeat match goal with
         | |- context [if ?c then _ else _] => destruct c
         end; intros H; inversion H; lia.
Qed.

Ltac decode_fin :=
  repeat match goal with
         | |- context [if (?a <? ?sz) then _ else _] =>
           destruct (Z.ltb_spec a sz)
         end;
  first [reflexivity | exfalso; lia].

(** A byte that is no continuation byte, placed after [s], never becomes
    part of the rune read at the start of [s]. *)
Lemma DecodeRuneInString_app_boundary (s : string) (c : ascii) (t : string) :
  s <> EmptyString -> cont_byte (byte_val c) = false ->
  DecodeRuneInString (s ++ String c t) = DecodeRuneInString s.
Proof.
  intros Hs Hc. destruct s as [|c0 t0]; [congruence|].
  cbn [append]. unfold DecodeRuneInString.
  destruct (byte_val c0 <? 128) eqn:H0; [reflexivity|].
  destruct (first (byte_val c0)) as [[[sz lo] hi]|] eqn:Hf; [|reflexivity].
  pose proof (first_lo _ _ _ _ Hf) as Hlo.
  pose proof (first_hi _ _ _ _ Hf) as Hhi.
  assert (Hsz : sz = 2 \/ sz = 3 \/ sz = 4).
  { revert Hf. unfold first.
    repeat match goal with
           | |- context [if ?c then _ else _] => destruct c
           end; intros H; inversion H; lia. }
  assert (Hbad1 : (byte_val c <? lo) || (hi <? byte_val c) = true).
  { unfold cont_byte in Hc. apply andb_false_iff in Hc.
    apply orb_true_iff. destruct Hc as [Hc|Hc].
    - left. apply Z.leb_gt in Hc. apply Z.ltb_lt. lia.
    - right. apply Z.leb_gt in Hc. apply Z.ltb_lt. lia. }
  assert (Hbad2 : negb (cont_byte (byte_val c)) = true)
    by (rewrite Hc; reflexivity).
  pose proof (len_nonneg t) as Hn.
  destruct t0 as [|c1 t1]; cbn [append]; rewrite ?len_String.
  { rewrite Hbad1. decode_fin. }
  destruct ((byte_val c1 <? lo) || (hi <? byte_val c1)); [decode_fin|].
  pose proof (len_nonneg t1) as Hn1.
  pose proof (len_nonneg (t1 ++ String c t)) as Hn1'.
  destruct (Z.leb_spec sz 2) as [H2|H2]; [decode_fin|].
  destruct t1 as [|c2 t2]; cbn [append]; rewrite ?len_String.
  { rewrite Hbad2. decode_fin. }
  destruct (negb (cont_byte (byte_val c2))); [decode_fin|].
  pose proof (len_nonneg t2) as Hn2.
  pose proof (len_nonneg (t2 ++ String c t)) as Hn2'.
  destruct (Z.leb_spec sz 3) as [H3|H3]; [decode_fin|].
  destruct t2 as [|c3 t3]; cbn [append]; rewrite ?len_String.
  { rewrite Hbad2. decode_fin. }
  pose proof (len_nonneg t3) as Hn3.
  pose proof (len_nonneg (t3 ++ String c t)) as Hn3'.
  decode_fin.
Qed.

Lemma cont_byte_ascii (b : Z) : b < 128 -> cont_byte b = false.
Proof.
  intros H. unfold cont_byte. apply andb_false_iff. left.
  apply Z.leb_gt. lia.
Qed.

Lemma DecodeRuneInString_app_ascii (s : string) (c : ascii) (t : string) :
  s <> EmptyString -> byte_val c < 128 ->
  DecodeRuneInString (s ++ String c t) = DecodeRuneInString s.
Proof.
  intros Hs Hc. apply DecodeRuneInString_app_boundary;
    [exact Hs | apply cont_byte_ascii; exact Hc].
Qed.

Lemma DecodeRuneInString_ascii (c : ascii) (t : string) :
  byte_val c < 128 -> DecodeRuneInString (String c t) = (byte_val c, 1).
Proof.
  intros H. cbn [DecodeRuneInString].
  replace (byte_val c <? 128) with true by (symmetry; apply Z.ltb_lt; lia).
  reflexivity.
Qed.

Lemma DecodeRuneInString_nonneg (s : string) :
  0 <= fst (DecodeRuneInString s).
Proof.
  assert (Hl : forall a b, 0 <= Z.land (byte_val a) b).
  { intros. apply Z.land_nonneg. left. apply byte_val_range. }
  unfold DecodeRuneInString, RuneError.
  repeat match goal with
         | |- context [match ?x with _ => _ end] => destruct x
         end; cbn [fst]; try lia; try apply byte_val_range;
    repeat first [ apply Z.lor_nonneg; split
                 | apply Z.shiftl_nonneg
                 | apply Hl ].
Qed.

(** ** Loops that read while a predicate holds *)

(** The loops of [skipWhiteSpaces], [acceptRun], [lexValue] (unquoted) and
    [lexSingleLineCmt] are the loop of [lexIdentifier] at another
    predicate. *)
Lemma skipWhiteSpaces_loop_eq (fuel : nat) (l : Lexer) :
  skipWhiteSpaces_loop fuel l = (_ <- identifier_loop fuel IsSpace ;; ret tt) l.
Proof.
  revert l; induction fuel as [|fuel IH]; intros l; [reflexivity|].
  cbn [skipWhiteSpaces_loop identifier_loop]. unfold bind.
  destruct (next l) as [r l1| | |]; try reflexivity.
  destruct (IsSpace r); [|reflexivity].
  rewrite IH. unfold bind. reflexivity.
Qed.

Lemma lexValue_plain_eq (fuel : nat) (l : Lexer) :
  lexValue_plain fuel l = (_ <- identifier_loop fuel in_value ;; ret tt) l.
Proof.
  revert l; induction fuel as [|fuel IH]; intros l; [reflexivity|].
  cbn [lexValue_plain identifier_loop]. unfold bind.
  destruct (next l) as [r l1| | |]; try reflexivity.
  fold (in_value r). destruct (in_value r); [|reflexivity].
  rewrite IH. unfold bind. reflexivity.
Qed.

Lemma acceptRun_loop_eq (fuel : nat) (valid : string) (l : Lexer) :
  acceptRun_loop fuel valid l =
  (_ <- identifier_loop fuel (fun r => IndexRune valid r >=? 0) ;; ret tt) l.
Proof.
  revert l; induction fuel as [|fuel IH]; intros l; [reflexivity|].
  cbn [acceptRun_loop identifier_loop]. unfold bind.
  destruct (next l) as [r l1| | |]; try reflexivity.
  destruct (IndexRune valid r >=? 0); [|reflexivity].
  rewrite IH. unfold bind. reflexivity.
Qed.

Lemma lexSingleLineCmt_loop_eq (fuel : nat) (l : Lexer) :
  lexSingleLineCmt_loop fuel l = (_ <- identifier_loop fuel in_line ;; backup) l.
Proof.
  revert l; induction fuel as [|fuel IH]; intros l; [reflexivity|].
  cbn [lexSingleLineCmt_loop identifier_loop]. unfold bind.
  destruct (next l) as [r l1| | |]; try reflexivity.
  unfold in_line. destruct ((r =? 10) || (r =? eof)); cbn [negb]; [reflexivity|].
  rewrite IH. unfold bind. reflexivity.
Qed.

(** Reading while [p] holds, up to a rune on which [p] fails; the rune starts
    at a character boundary. *)
Lemma identifier_loop_stop_at (p : rune -> bool) (fuel : nat) :
  forall (l : Lexer) (body : string) (c : ascii) (tail : string),
    0 <= pos l ->
    drop (Z.to_nat (pos l)) (input l) = (body ++ String c tail)%string ->
    cont_byte (byte_val c) = false ->
    p (fst (DecodeRuneInString (String c tail))) = false ->
    forallb p (runes body) = true ->
    (String.length body < fuel)%nat ->
    identifier_loop fuel p l =
    Ret (fst (DecodeRuneInString (String c tail)))
        (mkLexer (input l) (state l)
                 (pos l + len body + snd (DecodeRuneInString (String c tail)))
                 (start l) (snd (DecodeRuneInString (String c tail)))
                 (tokens l) (stack l)).
Proof.
  induction fuel as [|fuel IH]; intros l body c tail Hpos Hdrop Hc Hp Hall Hf;
    [lia|].
  cbn [identifier_loop]. unfold bind.
  rewrite next_view by lia. rewrite Hdrop.
  destruct body as [|b bt].
  - cbn [append]. destruct (DecodeRuneInString (String c tail)) as [r w].
    cbn [fst snd] in *. rewrite Hp.
    change (len "") with 0. rewrite Z.add_0_r. reflexivity.
  - cbn [append].
    change (String b (bt ++ String c tail)) with (String b bt ++ String c tail)%string.
    rewrite DecodeRuneInString_app_boundary by (congruence || assumption).
    pose proof (DecodeRuneInString_width (String b bt) ltac:(congruence)) as Hw.
    rewrite runes_step in Hall by congruence.
    destruct (DecodeRuneInString (String b bt)) as [r w].
    cbn [fst snd forallb] in *.
    apply andb_true_iff in Hall. destruct Hall as [Hr Hrest].
    cbn [append]. rewrite Hr.
    rewrite (IH _ (drop (Z.to_nat w) (String b bt)) c tail).
    + cbn [input state pos start tokens stack set_pos set_width].
      replace (pos l + len (String b bt))
        with (pos l + w + len (drop (Z.to_nat w) (String b bt)));
        [reflexivity|].
      unfold len in *. rewrite drop_length. lia.
    + cbn [pos set_pos set_width]. lia.
    + cbn [pos input set_pos set_width].
      replace (Z.to_nat (pos l + w)) with (Z.to_nat (pos l) + Z.to_nat w)%nat
        by lia.
      rewrite <- drop_drop, Hdrop.
      change (String b (bt ++ String c tail)) with (String b bt ++ String c tail)%string.
      apply drop_app_le. unfold len in Hw. lia.
    + exact Hc.
    + exact Hp.
    + exact Hrest.
    + rewrite drop_length. unfold len in Hw. cbn [String.length] in *. lia.
Qed.

(** The same, up to an ASCII byte. *)
Lemma identifier_loop_stop (p : rune -> bool) (fuel : nat) :
  forall (l : Lexer) (body : string) (c : ascii) (tail : string),
    0 <= pos l ->
    drop (Z.to_nat (pos l)) (input l) = (body ++ String c tail)%string ->
    byte_val c < 128 ->
    p (byte_val c) = false ->
    forallb p (runes body) = true ->
    (String.length body < fuel)%nat ->
    identifier_loop fuel p l =
    Ret (byte_val c)
        (mkLexer (input l) (state l) (pos l + len body + 1) (start l) 1
                 (tokens l) (stack l)).
Proof.
  intros l body c tail Hpos Hdrop Hc Hp Hall Hf.
  pose proof (identifier_loop_stop_at p fuel l body c tail Hpos Hdrop) as H.
  rewrite DecodeRuneInString_ascii in H by exact Hc. cbn [fst snd] in H.
  apply H; [apply cont_byte_ascii; exact Hc | exact Hp | exact Hall | exact Hf].
Qed.

(** When [p] holds of [eof] and of every rune left, the loop never ends. *)
Lemma identifier_loop_diverges (p : rune -> bool) :
  p eof = true ->
  forall (fuel : nat) (l : Lexer),
    0 <= pos l <= len (input l) ->
    forallb p (runes (drop (Z.to_nat (pos l)) (input l))) = true ->
    identifier_loop fuel p l = NoFuel.
Proof.
  intros Hp. induction fuel as [|fuel IH]; intros l Hpos Hall; [reflexivity|].
  cbn [identifier_loop]. unfold bind.
  rewrite next_view by lia.
  destruct (drop (Z.to_nat (pos l)) (input l)) as [|c t] eqn:E.
  - rewrite Hp. apply IH; cbn [pos input set_width]; [lia|].
    rewrite E. reflexivity.
  - pose proof (DecodeRuneInString_width (String c t) ltac:(congruence)) as Hw.
    rewrite runes_step in Hall by congruence.
    destruct (DecodeRuneInString (String c t)) as [r w].
    cbn [fst snd forallb] in *.
    apply andb_true_iff in Hall. destruct Hall as [Hr Hrest].
    rewrite Hr.
    assert (Hlen : len (String c t) = len (input l) - pos l).
    { rewrite <- E. unfold len. rewrite drop_length. unfold len in Hpos. lia. }
    apply IH; cbn [pos input set_pos set_width]; [lia|].
    replace (Z.to_nat (pos l + w)) with (Z.to_nat (pos l) + Z.to_nat w)%nat
      by lia.
    rewrite <- drop_drop, E. exact Hrest.
Qed.

(** ** Single-line comments *)

Lemma emit_ok (t : TokenType) (inp : string) (st : option StateFn)
      (p s w : Z) (stk : list NamedStateFn) :
  0 <= s <= p -> p <= len inp ->
  emit t (mkLexer inp st p s w [] stk) =
  Ret tt (mkLexer inp st p p w
                  [mkToken t (take (Z.to_nat (p - s)) (drop (Z.to_nat s) inp))]
                  stk).
Proof.
  intros H1 H2. unfold emit. cbn [input start pos].
  rewrite slice_ok by lia. reflexivity.
Qed.

Lemma slice_from_view (s : string) (lo : Z) :
  0 <= lo -> String.length (take (Z.to_nat lo) s) = Z.to_nat lo ->
  slice_from s lo = Some (drop (Z.to_nat lo) s).
Proof.
  intros H0 H. apply slice_from_ok. split; [lia|].
  apply le_len_take; assumption.
Qed.

(** The loop of a single-line comment stops in front of the newline, or at
    the end of the input. *)
Lemma lexSingleLineCmt_loop_line (fuel : nat) (l : Lexer)
      (body tail : string) :
  0 <= pos l <= len (input l) ->
  drop (Z.to_nat (pos l)) (input l) = (body ++ tail)%string ->
  forallb in_line (runes body) = true ->
  tail = EmptyString \/ (exists t, tail = String "010" t) ->
  (String.length body < fuel)%nat ->
  exists w : Z,
    lexSingleLineCmt_loop fuel l =
    Ret tt (mkLexer (input l) (state l) (pos l + len body) (start l) w
                    (tokens l) (stack l)).
Proof.
  intros Hpos Hdrop Hall Htail Hf.
  rewrite lexSingleLineCmt_loop_eq.
  assert (Hlen : len (input l) = pos l + len (body ++ tail)).
  { rewrite <- Hdrop. unfold len in *. rewrite drop_length. lia. }
  destruct Htail as [->|[t ->]].
  - rewrite app_empty_r in *.
    exists 0. eapply bind_eq.
    { apply (identifier_loop_end in_line eq_refl); [lia | | ].
      - rewrite Hdrop. exact Hall.
      - rewrite Hdrop. exact Hf. }
    unfold backup, modify. cbn [pos width set_pos]. rewrite Z.sub_0_r, Hlen.
    reflexivity.
  - exists 1. eapply bind_eq.
    { apply (identifier_loop_stop in_line fuel l body "010" t);
        try assumption; try reflexivity; lia. }
    unfold backup, modify. cbn [pos width set_pos].
    replace (pos l + len body + 1 - 1) with (pos l + len body) by lia.
    reflexivity.
Qed.

Lemma HasPrefix_app (p s : string) : HasPrefix (p ++ s) p = true.
Proof.
  unfold HasPrefix. induction p as [|c p IH]; cbn.
  - destruct s; reflexivity.
  - destruct (ascii_dec c c); [exact IH | congruence].
Qed.

Ltac if_cond c :=
  let c' := eval vm_compute in c in
  lazymatch c' with
  | true => change c with true
  | false => change c with false
  | _ =>
    lazymatch c with
    | HasPrefix _ ?p =>
      replace c with true by (symmetry; apply (HasPrefix_app p))
    end
  end.

Ltac if_step :=
  cbv beta iota;
  lazymatch goal with
  | |- (if ?c then _ else _) _ = _ => if_cond c
  | |- (if ?c then _ else _) = _ => if_cond c
  end; cbv beta iota.

Ltac slice_from_step :=
  rewrite slice_from_view by (proj; first [lia | cbn; reflexivity]);
  cbv beta iota; cbn [Z.to_nat drop].

Lemma lexStatement_line_comment (U : Tables) (fuel : nat)
        (prefix body tail : string) :
  comment_prefix prefix ->
  forallb in_line (runes body) = true ->
  tail = EmptyString \/ (exists t, tail = String "010" t) ->
  (String.length body + 2 <= fuel)%nat ->
  exists w : Z,
    lexStatement U fuel (NewLexer (prefix ++ body ++ tail)) =
    Ret (Some Fn_lexStatement)
        (mkLexer (prefix ++ body ++ tail) (Some Fn_lexStatement)
                 (len (prefix ++ body)) (len (prefix ++ body)) w
                 [mkToken TokenComment (prefix ++ body)] []).
Proof.
  intros Hprefix Hbody Htail Hfuel.
  destruct fuel as [|[|fuel]]; try lia.
  assert (Hloop : forall st s w0,
             exists w,
               lexSingleLineCmt_loop (S (S fuel))
                 (mkLexer (prefix ++ body ++ tail) st (len prefix) s w0 [] []) =
               Ret tt (mkLexer (prefix ++ body ++ tail) st
                               (len prefix + len body) s w [] [])).
  { intros st s w0.
    pose proof (len_nonneg prefix). pose proof (len_nonneg (body ++ tail)).
    apply (lexSingleLineCmt_loop_line (S (S fuel))
             (mkLexer (prefix ++ body ++ tail) st (len prefix) s w0 [] [])
             body tail);
      cbn [pos input]; try assumption; try lia.
    - rewrite len_app. lia.
    - replace (Z.to_nat (len prefix)) with (String.length prefix)
        by (unfold len; lia).
      apply drop_app_length. }
  assert (Hemit : forall k st w,
             k = len prefix ->
             emit TokenComment
                  (mkLexer (prefix ++ body ++ tail) st (k + len body) 0 w [] [])
             = Ret tt (mkLexer (prefix ++ body ++ tail) st
                               (len (prefix ++ body)) (len (prefix ++ body)) w
                               [mkToken TokenComment (prefix ++ body)] [])).
  { intros k st w ->. pose proof (len_nonneg prefix). pose proof (len_nonneg body).
    pose proof (len_nonneg tail).
    pose proof (len_nonneg (prefix ++ body)).
    rewrite <- len_app.
    rewrite emit_ok
      by first [lia | rewrite <- app_assoc_string, (len_app (prefix ++ body)); lia].
    rewrite Z.sub_0_r. cbn [Z.to_nat drop].
    rewrite <- app_assoc_string.
    replace (Z.to_nat (len (prefix ++ body))) with (String.length (prefix ++ body))
      by (unfold len; lia).
    rewrite take_app_length. reflexivity. }
  destruct Hprefix as [-> | [-> | ->]];
    destruct (Hloop (Some Fn_lexStatement) 0 1) as [w Hl];
    exists w; unfold NewLexer, lexStatement;
    (eapply bind_eq; [ev|]); (eapply bind_eq; [ev|]); repeat if_step;
    unfold lexComment; proj; slice_from_step; repeat if_step;
    unfold lexSingleLineCmt;
    (eapply bind_eq; [ev|]); (eapply bind_eq; [ev|]);
    (eapply bind_eq; [exact Hl|]);
    (eapply bind_eq; [apply Hemit; reflexivity|]); reflexivity.
Qed.

(** ** Block comments *)

Lemma next_ascii_at (inp : string) (st : option StateFn) (p s w : Z)
      (ts : list Token) (stk : list NamedStateFn) (c : ascii) (t : string) :
  0 <= p ->
  drop (Z.to_nat p) inp = String c t ->
  byte_val c < 128 ->
  next (mkLexer inp st p s w ts stk) =
  Ret (byte_val c) (mkLexer inp st (p + 1) s 1 ts stk).
Proof.
  intros Hp Hd Hc. rewrite next_view by (cbn; lia). cbn [pos input].
  rewrite Hd, DecodeRuneInString_ascii by lia. reflexivity.
Qed.

Lemma drop_succ (n : nat) (s : string) (c : ascii) (t : string) :
  drop n s = String c t -> drop (S n) s = t.
Proof.
  intros H. replace (S n) with (n + 1)%nat by lia.
  rewrite <- drop_drop, H. reflexivity.
Qed.

Lemma drop_nonempty_lt (n : nat) (s : string) (c : ascii) (t : string) :
  drop n s = String c t -> (n < String.length s)%nat.
Proof.
  intros H. apply (f_equal String.length) in H. rewrite drop_length in H.
  cbn [String.length] in H. lia.
Qed.

(** A block comment that is never closed: the loop runs into the end of the
    input and panics. *)
Lemma lexMultilineCmt_loop_unclosed (fuel : nat) :
  forall l : Lexer,
    0 <= pos l <= len (input l) ->
    (forall n : nat,
        HasPrefix (drop n (drop (Z.to_nat (pos l)) (input l))) "*/" = false) ->
    (String.length (drop (Z.to_nat (pos l)) (input l)) < fuel)%nat ->
    lexMultilineCmt_loop fuel l = Panic eof_in_comment.
Proof.
  induction fuel as [|fuel IH]; intros l Hpos Hno Hf; [lia|].
  cbn [lexMultilineCmt_loop]. rewrite slice_from_ok by lia.
  pose proof (Hno O) as H0. cbn [drop] in H0. rewrite H0. clear H0.
  unfold bind. rewrite next_view by lia.
  destruct (drop (Z.to_nat (pos l)) (input l)) as [|c t] eqn:E; [reflexivity|].
  pose proof (DecodeRuneInString_width (String c t) ltac:(congruence)) as Hw.
  pose proof (DecodeRuneInString_nonneg (String c t)) as Hr.
  destruct (DecodeRuneInString (String c t)) as [r w]. cbn [fst snd] in *.
  replace (eof =? r) with false by (symmetry; apply Z.eqb_neq; unfold eof; lia).
  assert (Hlen : len (String c t) = len (input l) - pos l).
  { rewrite <- E. unfold len. rewrite drop_length. unfold len in Hpos. lia. }
  assert (Hd : drop (Z.to_nat (pos l + w)) (input l)
               = drop (Z.to_nat w) (String c t)).
  { rewrite <- E, drop_drop. f_equal. lia. }
  apply IH; cbn [pos input set_pos set_width].
  - lia.
  - intros n. rewrite Hd, drop_drop. apply Hno.
  - rewrite Hd, drop_length. cbn [String.length] in *. lia.
Qed.

(** A block comment closed after [body]: the loop stops in front of the
    closing delimiter. *)
Lemma lexMultilineCmt_loop_closed (fuel : nat) :
  forall (l : Lexer) (body tail : string),
    0 <= pos l ->
    drop (Z.to_nat (pos l)) (input l) = (body ++ "*/" ++ tail)%string ->
    (forall n : nat,
        (n < String.length body)%nat ->
        HasPrefix (drop n (body ++ "*/" ++ tail)) "*/" = false) ->
    (String.length body < fuel)%nat ->
    exists w : Z,
      lexMultilineCmt_loop fuel l =
      Ret tt (mkLexer (input l) (state l) (pos l + len body) (start l) w
                      (tokens l) (stack l)).
Proof.
  induction fuel as [|fuel IH]; intros l body tail Hpos Hdrop Hno Hf; [lia|].
  assert (Hlt : (Z.to_nat (pos l) < String.length (input l))%nat).
  { destruct body; cbn [append] in Hdrop;
      eapply drop_nonempty_lt; exact Hdrop. }
  cbn [lexMultilineCmt_loop]. rewrite slice_from_ok by (unfold len; lia).
  rewrite Hdrop.
  destruct body as [|b bt].
  - change ("" ++ "*/" ++ tail)%string with ("*/" ++ tail)%string.
    rewrite (HasPrefix_app "*/" tail).
    exists (width l). change (len "") with 0. rewrite Z.add_0_r.
    destruct l; reflexivity.
  - pose proof (Hno O ltac:(cbn; lia)) as H0. cbn [drop] in H0.
    rewrite H0. clear H0.
    unfold bind. rewrite next_view by lia. rewrite Hdrop.
    cbn [append].
    change (String b (bt ++ String "*" (String "/" tail)))
      with (String b bt ++ String "*" (String "/" tail))%string.
    rewrite DecodeRuneInString_app_ascii by (congruence || (cbn; lia)).
    pose proof (DecodeRuneInString_width (String b bt) ltac:(congruence)) as Hw.
    pose proof (DecodeRuneInString_nonneg (String b bt)) as Hr.
    destruct (DecodeRuneInString (String b bt)) as [r w]. cbn [fst snd] in *.
    replace (eof =? r) with false
      by (symmetry; apply Z.eqb_neq; unfold eof; lia).
    cbn [append].
    assert (Hd : drop (Z.to_nat w) (String b bt ++ "*/" ++ tail)
                 = (drop (Z.to_nat w) (String b bt) ++ "*/" ++ tail)%string).
    { apply drop_app_le. unfold len in Hw. lia. }
    destruct (IH (set_pos (pos l + w) (set_width w l))
                 (drop (Z.to_nat w) (String b bt)) tail) as [w' Hloop].
    + cbn [pos set_pos set_width]. lia.
    + cbn [pos input set_pos set_width].
      replace (Z.to_nat (pos l + w)) with (Z.to_nat (pos l) + Z.to_nat w)%nat
        by lia.
      rewrite <- drop_drop, Hdrop. exact Hd.
    + intros n Hn. rewrite <- Hd, drop_drop. apply Hno.
      rewrite drop_length in Hn. lia.
    + rewrite drop_length. unfold len in Hw. cbn [String.length] in *. lia.
    + exists w'. rewrite Hloop.
      cbn [input state pos start tokens stack set_pos set_width].
      do 2 f_equal. unfold len in *. rewrite drop_length. lia.
Qed.

(** X4.  A block comment that is never closed: the loop of
    [lexMultilineCmt] reaches the end of the input and panics, and the panic
    goes up through [lexStatement] and [NextToken]. *)
Theorem unterminated_block_comment_panics
        (U : Tables) (fuel : nat) (body : string) :
  (forall n : nat, HasPrefix (drop n body) "*/" = false) ->
  (String.length body + 2 <= fuel)%nat ->
  lexStatement U fuel (NewLexer ("/*" ++ body)) = Panic eof_in_comment /\
  NextToken U (S fuel) (NewLexer ("/*" ++ body)) = Panic eof_in_comment.
Proof.
  intros Hno Hfuel.
  assert (Hstmt : lexStatement U fuel (NewLexer ("/*" ++ body))
                  = Panic eof_in_comment).
  { destruct fuel as [|[|fuel]]; try lia.
    unfold NewLexer, lexStatement.
    eapply bind_eq; [ev|]. eapply bind_eq; [ev|]. repeat if_step.
    unfold lexComment. proj. slice_from_step. repeat if_step.
    unfold lexMultilineCmt.
    eapply bind_eq; [ev|]. eapply bind_eq; [ev|].
    apply bind_Panic.
    pose proof (len_nonneg body).
    apply lexMultilineCmt_loop_unclosed; cbn [pos input Z.to_nat drop append].
    - change ("/*" ++ body)%string with (String "/" (String "*" body)).
      rewrite !len_String. lia.
    - exact Hno.
    - change (Pos.to_nat 2) with 2%nat. cbn [drop]. lia. }
  split; [exact Hstmt|].
  cbn [NextToken]. cbn [tokens state NewLexer].
  apply bind_Panic. unfold step. eapply bind_eq; [reflexivity|]. cbv beta iota.
  apply bind_Panic. exact Hstmt.
Qed.

Lemma unterminated_block_comment_panics_witness :
  (forall n : nat, HasPrefix (drop n "a*") "*/" = false) /\
  (String.length "a*" + 2 <= 10)%nat /\
  lexStatement ascii_tables 10 (NewLexer ("/*" ++ "a*")) =
    Panic eof_in_comment /\
  NextToken ascii_tables 11 (NewLexer ("/*" ++ "a*")) =
    Panic eof_in_comment.
Proof.
  assert (H1 : forall n : nat, HasPrefix (drop n "a*") "*/" = false)
    by (intros [|[|[|n]]]; reflexivity).
  assert (H2 : (String.length "a*" + 2 <= 10)%nat) by (unfold len; simpl; lia).
  exact (conj H1 (conj H2
           (unterminated_block_comment_panics ascii_tables 10 "a*" H1 H2))).
Defined.

(** X5.  A block comment closed by the first [*/] behind its opening:
    [lexStatement] queues one [TokenComment] whose text holds both
    delimiters, stops right behind the comment and asks for [lexStatement]
    again. *)
Theorem block_comment (U : Tables) (fuel : nat) (body tail : string) :
  (forall n : nat,
      (n < String.length body)%nat ->
      HasPrefix (drop n (body ++ "*/" ++ tail)) "*/" = false) ->
  (String.length body + 2 <= fuel)%nat ->
  lexStatement U fuel (NewLexer ("/*" ++ body ++ "*/" ++ tail)) =
  Ret (Some Fn_lexStatement)
      (mkLexer ("/*" ++ body ++ "*/" ++ tail) (Some Fn_lexStatement)
               (len body + 4) (len body + 4) 1
               [mkToken TokenComment ("/*" ++ body ++ "*/")] []).
Proof.
  intros Hno Hfuel.
  destruct fuel as [|[|fuel]]; try lia.
  pose proof (len_nonneg body) as Hnb. pose proof (len_nonneg tail) as Hnt.
  set (inp := ("/*" ++ body ++ "*/" ++ tail)%string).
  assert (Hd2 : drop 2 inp = (body ++ "*/" ++ tail)%string) by reflexivity.
  assert (Hdb : drop (Z.to_nat (2 + len body)) inp = ("*/" ++ tail)%string).
  { replace (Z.to_nat (2 + len body)) with (2 + String.length body)%nat
      by (unfold len; lia).
    rewrite <- drop_drop, Hd2. apply drop_app_length. }
  destruct (lexMultilineCmt_loop_closed (S (S fuel))
              (mkLexer inp (Some Fn_lexStatement) 2 0 1 [] []) body tail)
    as [w Hloop]; cbn [pos input]; try assumption; try lia.
  unfold NewLexer, lexStatement. fold inp.
  eapply bind_eq; [unfold inp; ev|]. eapply bind_eq; [unfold inp; ev|].
  repeat if_step.
  unfold lexComment. proj. unfold inp at 1. slice_from_step. repeat if_step.
  unfold lexMultilineCmt.
  eapply bind_eq; [ev|]. eapply bind_eq; [ev|].
  cbn [input state pos start tokens stack] in Hloop.
  eapply bind_eq; [exact Hloop|].
  eapply bind_eq.
  { apply (next_ascii_at inp _ (2 + len body) _ _ _ _ "*" (String "/" tail));
      [lia | exact Hdb | cbn; lia]. }
  eapply bind_eq.
  { apply (next_ascii_at inp _ (2 + len body + 1) _ _ _ _ "/" tail);
      [lia | | cbn; lia].
    replace (Z.to_nat (2 + len body + 1)) with (S (Z.to_nat (2 + len body)))
      by lia.
    eapply drop_succ. exact Hdb. }
  replace (2 + len body + 1 + 1) with (len body + 4) by lia.
  eapply bind_eq.
  { apply emit_ok; [lia|]. unfold inp.
    change ("/*" ++ body ++ "*/" ++ tail)%string
      with (String "/" (String "*" (body ++ "*/" ++ tail))).
    rewrite !len_String, !len_app. change (len "*/") with 2. lia. }
  cbv beta. unfold ret. do 3 f_equal.
  rewrite Z.sub_0_r. cbn [Z.to_nat drop].
  replace (Z.to_nat (len body + 4))
    with (String.length ("/*" ++ body ++ "*/")).
  - unfold inp.
    replace ("/*" ++ body ++ "*/" ++ tail)%string
      with (("/*" ++ body ++ "*/") ++ tail)%string.
    + rewrite take_app_length. reflexivity.
    + cbn [append]. rewrite app_assoc_string. reflexivity.
  - cbn [append String.length]. rewrite length_app_string. cbn [String.length].
    unfold len. lia.
Qed.

Lemma block_comment_witness :
  (forall n : nat,
      (n < String.length "a")%nat ->
      HasPrefix (drop n ("a" ++ "*/" ++ " select")) "*/" = false) /\
  (String.length "a" + 2 <= 10)%nat /\
  lexStatement ascii_tables 10 (NewLexer ("/*" ++ "a" ++ "*/" ++ " select")) =
  Ret (Some Fn_lexStatement)
      (mkLexer ("/*" ++ "a" ++ "*/" ++ " select") (Some Fn_lexStatement)
               (len "a" + 4) (len "a" + 4) 1
               [mkToken TokenComment ("/*" ++ "a" ++ "*/")] []).
Proof.
  assert (H1 : forall n : nat,
             (n < String.length "a")%nat ->
             HasPrefix (drop n ("a" ++ "*/" ++ " select")) "*/" = false)
    by (intros [|n] Hn; [reflexivity | simpl in Hn; lia]).
  assert (H2 : (String.length "a" + 2 <= 10)%nat) by (unfold len; simpl; lia).
  exact (conj H1 (conj H2
           (block_comment ascii_tables 10 "a" " select" H1 H2))).
Defined.

(** ** White space *)

Lemma drop_eq_len (n : nat) (s r : string) :
  drop n s = r -> r <> EmptyString ->
  String.length s = (n + String.length r)%nat.
Proof.
  intros H Hr. subst r. rewrite drop_length.
  destruct (Nat.le_gt_cases (String.length s) n) as [Hle|Hgt]; [|lia].
  exfalso. apply Hr. apply drop_all. exact Hle.
Qed.

Lemma isEnd_not_end (l : Lexer) :
  pos l < len (input l) -> isEnd l = Ret false l.
Proof.
  intros H. unfold isEnd, gets.
  destruct (Z.geb_spec (pos l) (len (input l))); [lia | reflexivity].
Qed.

Lemma app_nonempty (a : string) (c : ascii) (t : string) :
  (a ++ String c t)%string <> EmptyString.
Proof. destruct a; discriminate. Qed.

(** [next] where what is left of the input is known. *)
Lemma next_rest (inp : string) (st : option StateFn) (p s w : Z)
      (ts : list Token) (stk : list NamedStateFn) (rest : string) :
  0 <= p ->
  drop (Z.to_nat p) inp = rest ->
  rest <> EmptyString ->
  next (mkLexer inp st p s w ts stk) =
  Ret (fst (DecodeRuneInString rest))
      (mkLexer inp st (p + snd (DecodeRuneInString rest)) s
               (snd (DecodeRuneInString rest)) ts stk).
Proof.
  intros Hp Hdrop Hne. rewrite next_view by (cbn; lia). cbn [pos input].
  rewrite Hdrop. destruct rest as [|c t]; [congruence|].
  destruct (DecodeRuneInString (String c t)) as [r w0]. reflexivity.
Qed.

(** White space followed by a rune that is none. *)
Lemma skipWhiteSpaces_at (fuel : nat) (inp : string) (st : option StateFn)
      (p s w : Z) (ts : list Token) (stk : list NamedStateFn)
      (ws : string) (c : ascii) (tail : string) :
  0 <= p ->
  drop (Z.to_nat p) inp = (ws ++ String c tail)%string ->
  cont_byte (byte_val c) = false ->
  IsSpace (fst (DecodeRuneInString (String c tail))) = false ->
  forallb IsSpace (runes ws) = true ->
  (String.length ws < fuel)%nat ->
  skipWhiteSpaces fuel (mkLexer inp st p s w ts stk) =
  Ret tt (mkLexer inp st (p + len ws) (p + len ws)
                  (snd (DecodeRuneInString (String c tail))) ts stk).
Proof.
  intros Hp Hdrop Hc Hsp Hws Hf.
  unfold skipWhiteSpaces. eapply bind_eq.
  { rewrite skipWhiteSpaces_loop_eq. eapply bind_eq; [|reflexivity].
    apply (identifier_loop_stop_at IsSpace fuel _ ws c tail); assumption. }
  cbn [input state pos start tokens stack].
  eapply bind_eq; [reflexivity|]. unfold ignore, modify.
  proj. do 2 f_equal; lia.
Qed.

(** White space up to the end of the input. *)
Lemma skipWhiteSpaces_to_end (fuel : nat) (inp : string)
      (st : option StateFn) (p s w : Z) (ts : list Token)
      (stk : list NamedStateFn) :
  0 <= p <= len inp ->
  forallb IsSpace (runes (drop (Z.to_nat p) inp)) = true ->
  (String.length (drop (Z.to_nat p) inp) < fuel)%nat ->
  skipWhiteSpaces fuel (mkLexer inp st p s w ts stk) =
  Ret tt (mkLexer inp st (len inp) (len inp) 0 ts stk).
Proof.
  intros Hp Hws Hf.
  unfold skipWhiteSpaces. eapply bind_eq.
  { rewrite skipWhiteSpaces_loop_eq. eapply bind_eq; [|reflexivity].
    apply (identifier_loop_end IsSpace); [reflexivity | | |]; assumption. }
  cbn [input state pos start tokens stack].
  eapply bind_eq; [reflexivity|]. unfold ignore, modify.
  proj. rewrite Z.sub_0_r. reflexivity.
Qed.

(** No white space at all: one rune is read and given back. *)
Lemma skipWhiteSpaces_none (fuel : nat) (inp : string) (st : option StateFn)
      (p s w : Z) (ts : list Token) (stk : list NamedStateFn)
      (rest : string) :
  0 <= p ->
  drop (Z.to_nat p) inp = rest ->
  rest <> EmptyString ->
  IsSpace (fst (DecodeRuneInString rest)) = false ->
  skipWhiteSpaces (S fuel) (mkLexer inp st p s w ts stk) =
  Ret tt (mkLexer inp st p p (snd (DecodeRuneInString rest)) ts stk).
Proof.
  intros Hp Hdrop Hne Hsp.
  destruct rest as [|c t]; [congruence|].
  assert (Hnext : next (mkLexer inp st p s w ts stk) =
                  let '(r, w0) := DecodeRuneInString (String c t) in
                  Ret r (mkLexer inp st (p + w0) s w0 ts stk)).
  { rewrite next_view by (cbn; lia). cbn [pos input]. rewrite Hdrop.
    destruct (DecodeRuneInString (String c t)) as [r w0]. reflexivity. }
  destruct (DecodeRuneInString (String c t)) as [r w0].
  cbn [fst snd] in *.
  unfold skipWhiteSpaces. cbn [skipWhiteSpaces_loop].
  eapply bind_eq.
  { eapply bind_eq; [exact Hnext|]. rewrite Hsp. reflexivity. }
  eapply bind_eq; [reflexivity|]. unfold ignore, modify.
  proj. do 2 f_equal; lia.
Qed.

(** X6.  [skipWhiteSpaces] stops exactly behind the white space, be it
    followed by the end of the input or by a rune that is no white space,
    and it drops the pending lexeme: the token start is the position. *)
Theorem skipWhiteSpaces_lands (fuel : nat) (l : Lexer) (ws rest : string) :
  0 <= pos l <= len (input l) ->
  drop (Z.to_nat (pos l)) (input l) = (ws ++ rest)%string ->
  forallb IsSpace (runes ws) = true ->
  rest = EmptyString \/
  (exists (c : ascii) (t : string),
      rest = String c t /\ cont_byte (byte_val c) = false /\
      IsSpace (fst (DecodeRuneInString rest)) = false) ->
  (String.length ws < fuel)%nat ->
  exists w : Z,
    skipWhiteSpaces fuel l =
    Ret tt (mkLexer (input l) (state l) (pos l + len ws) (pos l + len ws) w
                    (tokens l) (stack l)).
Proof.
  intros Hpos Hdrop Hws Hrest Hf. destruct l as [inp st p s w ts stk].
  cbn [input state pos start tokens stack] in *.
  destruct Hrest as [-> | (c & t & -> & Hc & Hsp)].
  - rewrite app_empty_r in Hdrop. exists 0.
    rewrite (skipWhiteSpaces_to_end fuel inp st p s w ts stk);
      try rewrite Hdrop; try assumption.
    assert (Hl : len inp = p + len ws).
    { pose proof (drop_length (Z.to_nat p) inp) as Hd. rewrite Hdrop in Hd.
      unfold len in *. lia. }
    rewrite Hl. reflexivity.
  - eexists. apply (skipWhiteSpaces_at fuel inp st p s w ts stk ws c t);
      try assumption. lia.
Qed.

Lemma skipWhiteSpaces_lands_witness :
  0 <= pos (lexer_at "  x") <= len (input (lexer_at "  x")) /\
  drop (Z.to_nat (pos (lexer_at "  x"))) (input (lexer_at "  x"))
  = ("  " ++ "x")%string /\
  forallb IsSpace (runes "  ") = true /\
  ("x" = EmptyString \/
   (exists (c : ascii) (t : string),
       "x" = String c t /\ cont_byte (byte_val c) = false /\
       IsSpace (fst (DecodeRuneInString "x")) = false)) /\
  (String.length "  " < 5)%nat /\
  exists w : Z,
    skipWhiteSpaces 5 (lexer_at "  x") =
    Ret tt (mkLexer (input (lexer_at "  x")) (state (lexer_at "  x"))
                    (pos (lexer_at "  x") + len "  ")
                    (pos (lexer_at "  x") + len "  ") w
                    (tokens (lexer_at "  x")) (stack (lexer_at "  x"))).
Proof.
  assert (H1 : 0 <= pos (lexer_at "  x") <= len (input (lexer_at "  x")))
    by (unfold lexer_at, len; simpl; lia).
  assert (H2 : drop (Z.to_nat (pos (lexer_at "  x"))) (input (lexer_at "  x"))
               = ("  " ++ "x")%string) by reflexivity.
  assert (H3 : forallb IsSpace (runes "  ") = true) by reflexivity.
  assert (H4 : "x" = EmptyString \/
               (exists (c : ascii) (t : string),
                   "x" = String c t /\ cont_byte (byte_val c) = false /\
                   IsSpace (fst (DecodeRuneInString "x")) = false))
    by (right; exists "x"%char, ""; repeat split; reflexivity).
  assert (H5 : (String.length "  " < 5)%nat) by (unfold len; simpl; lia).
  exact (conj H1 (conj H2 (conj H3 (conj H4 (conj H5
           (skipWhiteSpaces_lands 5 (lexer_at "  x") "  " "x"
                                  H1 H2 H3 H4 H5)))))).
Defined.

(** ** Values *)

(** X7.  An unquoted value ends in front of the first blank, tab,
    newline, carriage return, comma or closing parenthesis: [lexValue] queues
    one [TokenValue] with the bytes before it and does not consume it. *)
Theorem unquoted_value (fuel : nat) (inp : string) (st : option StateFn)
        (p s w : Z) (stk : list NamedStateFn)
        (body : string) (c : ascii) (tail : string) :
  0 <= p ->
  drop (Z.to_nat p) inp = (body ++ String c tail)%string ->
  body <> EmptyString ->
  IsSpace (fst (DecodeRuneInString body)) = false ->
  is_quote (fst (DecodeRuneInString body)) = false ->
  forallb in_value (runes body) = true ->
  byte_val c < 128 ->
  in_value (byte_val c) = false ->
  (String.length body < fuel)%nat ->
  Lexer_lexValue fuel (mkLexer inp st p s w [] stk) =
  Ret None (mkLexer inp st (p + len body) (p + len body) 1
                    [mkToken TokenValue body] stk).
Proof.
  intros Hp Hdrop Hne Hsp Hq Hall Hc Hstop Hf.
  destruct fuel as [|fuel]; [lia|].
  pose proof (len_nonneg body) as Hnb. pose proof (len_nonneg tail) as Hnt.
  assert (Hdec : DecodeRuneInString (body ++ String c tail)
                 = DecodeRuneInString body)
    by (apply DecodeRuneInString_app_ascii; assumption).
  assert (Hlen : len inp = p + len body + 1 + len tail).
  { pose proof (drop_eq_len _ _ _ Hdrop (app_nonempty body c tail)) as H.
    rewrite length_app_string in H. cbn [String.length] in H.
    unfold len. lia. }
  pose proof (DecodeRuneInString_width body Hne) as Hw.
  rewrite runes_step in Hall by exact Hne.
  destruct (DecodeRuneInString body) as [r0 w0] eqn:Hd0.
  cbn [fst snd forallb] in *.
  apply andb_true_iff in Hall. destruct Hall as [Hr0 Hrest].
  unfold Lexer_lexValue.
  eapply bind_eq.
  { apply (skipWhiteSpaces_none fuel inp st p s w [] stk
                                (body ++ String c tail));
      [lia | exact Hdrop | apply app_nonempty | rewrite Hdec; exact Hsp]. }
  rewrite Hdec. cbn [snd].
  eapply bind_eq; [apply isEnd_not_end; cbn [pos input]; lia|].
  cbv beta iota.
  eapply bind_eq.
  { rewrite (next_rest inp st p p w0 [] stk (body ++ String c tail));
      [rewrite Hdec; reflexivity | lia | exact Hdrop | apply app_nonempty]. }
  cbn [fst snd].
  assert (Hparen : (r0 =? ch ")") = false).
  { unfold in_value in Hr0. rewrite !andb_true_iff in Hr0.
    destruct Hr0 as [_ H]. apply negb_true_iff in H. exact H. }
  rewrite Hparen, Hq. cbv iota.
  eapply bind_eq.
  { rewrite lexValue_plain_eq. eapply bind_eq; [|reflexivity].
    apply (identifier_loop_stop in_value (S fuel) _
             (drop (Z.to_nat w0) body) c tail); cbn [pos input].
    - lia.
    - replace (Z.to_nat (p + w0)) with (Z.to_nat p + Z.to_nat w0)%nat by lia.
      rewrite <- drop_drop, Hdrop. apply drop_app_le. unfold len in Hw. lia.
    - exact Hc.
    - exact Hstop.
    - exact Hrest.
    - rewrite drop_length. lia. }
  cbn [input state pos start tokens stack].
  assert (Hpos : p + w0 + len (drop (Z.to_nat w0) body) + 1 - 1 = p + len body).
  { unfold len in *. rewrite drop_length. lia. }
  eapply bind_eq; [reflexivity|]. proj. rewrite Hpos.
  eapply bind_eq; [apply emit_ok; lia|].
  unfold ret. do 3 f_equal.
  replace (Z.to_nat (p + len body - p)) with (String.length body)
    by (unfold len; lia).
  rewrite Hdrop, take_app_length. reflexivity.
Qed.

Lemma unquoted_value_witness :
  0 <= 0 /\
  drop (Z.to_nat 0) "abc,d" = ("abc" ++ String "," "d")%string /\
  "abc" <> EmptyString /\
  IsSpace (fst (DecodeRuneInString "abc")) = false /\
  is_quote (fst (DecodeRuneInString "abc")) = false /\
  forallb in_value (runes "abc") = true /\
  byte_val "," < 128 /\
  in_value (byte_val ",") = false /\
  (String.length "abc" < 10)%nat /\
  Lexer_lexValue 10 (mkLexer "abc,d" None 0 0 0 [] []) =
  Ret None (mkLexer "abc,d" None (0 + len "abc") (0 + len "abc") 1
                    [mkToken TokenValue "abc"] []).
Proof.
  assert (H1 : 0 <= 0) by lia.
  assert (H2 : drop (Z.to_nat 0) "abc,d" = ("abc" ++ String "," "d")%string)
    by reflexivity.
  assert (H3 : "abc" <> EmptyString) by discriminate.
  assert (H4 : IsSpace (fst (DecodeRuneInString "abc")) = false)
    by reflexivity.
  assert (H5 : is_quote (fst (DecodeRuneInString "abc")) = false)
    by reflexivity.
  assert (H6 : forallb in_value (runes "abc") = true) by reflexivity.
  assert (H7 : byte_val "," < 128) by reflexivity.
  assert (H8 : in_value (byte_val ",") = false) by reflexivity.
  assert (H9 : (String.length "abc" < 10)%nat) by (unfold len; simpl; lia).
  exact (conj H1 (conj H2 (conj H3 (conj H4 (conj H5 (conj H6 (conj H7
           (conj H8 (conj H9
              (unquoted_value 10 "abc,d" None 0 0 0 [] "abc" "," "d"
                              H1 H2 H3 H4 H5 H6 H7 H8 H9)))))))))).
Defined.

(** X8.  An unquoted value that runs to the end of the input: [eof]
    is none of the runes the loop stops at, so [lexValue] returns for no
    amount of fuel. *)
Theorem unquoted_value_at_end_diverges
        (fuel : nat) (inp : string) (st : option StateFn)
        (p s w : Z) (ts : list Token) (stk : list NamedStateFn) :
  0 <= p < len inp ->
  IsSpace (fst (DecodeRuneInString (drop (Z.to_nat p) inp))) = false ->
  is_quote (fst (DecodeRuneInString (drop (Z.to_nat p) inp))) = false ->
  forallb in_value (runes (drop (Z.to_nat p) inp)) = true ->
  Lexer_lexValue fuel (mkLexer inp st p s w ts stk) = NoFuel.
Proof.
  intros Hp Hsp Hq Hall.
  remember (drop (Z.to_nat p) inp) as body eqn:Hdrop. symmetry in Hdrop.
  assert (Hne : body <> EmptyString).
  { intros ->. revert Hdrop. apply drop_nonempty. unfold len in Hp. lia. }
  assert (Hlen : len inp = p + len body).
  { pose proof (drop_eq_len _ _ _ Hdrop Hne). unfold len. lia. }
  unfold Lexer_lexValue.
  destruct fuel as [|fuel].
  { apply bind_NoFuel. apply bind_NoFuel. reflexivity. }
  pose proof (DecodeRuneInString_width body Hne) as Hw.
  rewrite runes_step in Hall by exact Hne.
  destruct (DecodeRuneInString body) as [r0 w0] eqn:Hd0.
  cbn [fst snd forallb] in *.
  apply andb_true_iff in Hall. destruct Hall as [Hr0 Hrest].
  eapply bind_eq.
  { apply (skipWhiteSpaces_none fuel inp st p s w ts stk body);
      [lia | exact Hdrop | exact Hne | rewrite Hd0; exact Hsp]. }
  rewrite Hd0. cbn [snd].
  eapply bind_eq; [apply isEnd_not_end; cbn [pos input]; lia|].
  cbv beta iota.
  eapply bind_eq.
  { rewrite (next_rest inp st p p w0 ts stk body);
      [rewrite Hd0; reflexivity | lia | exact Hdrop | exact Hne]. }
  cbn [fst snd].
  assert (Hparen : (r0 =? ch ")") = false).
  { unfold in_value in Hr0. rewrite !andb_true_iff in Hr0.
    destruct Hr0 as [_ H]. apply negb_true_iff in H. exact H. }
  rewrite Hparen, Hq. cbv iota.
  apply bind_NoFuel. rewrite lexValue_plain_eq. apply bind_NoFuel.
  apply identifier_loop_diverges; [reflexivity | cbn [pos input]; lia|].
  cbn [pos input].
  replace (Z.to_nat (p + w0)) with (Z.to_nat p + Z.to_nat w0)%nat by lia.
  rewrite <- drop_drop, Hdrop. exact Hrest.
Qed.

Lemma unquoted_value_at_end_diverges_witness :
  0 <= 0 < len "abc" /\
  IsSpace (fst (DecodeRuneInString (drop (Z.to_nat 0) "abc"))) = false /\
  is_quote (fst (DecodeRuneInString (drop (Z.to_nat 0) "abc"))) = false /\
  forallb in_value (runes (drop (Z.to_nat 0) "abc")) = true /\
  Lexer_lexValue 1000 (mkLexer "abc" None 0 0 0 [] []) = NoFuel.
Proof.
  assert (H1 : 0 <= 0 < len "abc") by (unfold len; simpl; lia).
  assert (H2 : IsSpace (fst (DecodeRuneInString (drop (Z.to_nat 0) "abc")))
               = false) by reflexivity.
  assert (H3 : is_quote (fst (DecodeRuneInString (drop (Z.to_nat 0) "abc")))
               = false) by reflexivity.
  assert (H4 : forallb in_value (runes (drop (Z.to_nat 0) "abc")) = true)
    by reflexivity.
  exact (conj H1 (conj H2 (conj H3 (conj H4
           (unquoted_value_at_end_diverges 1000 "abc" None 0 0 0 [] []
                                           H1 H2 H3 H4))))).
Defined.

(** ** Quoted values *)

(** The loop over a quoted value reads the runes of [body], none of which
    is a quote or NUL, and goes on at the quote that follows. *)
Lemma lexValue_quoted_advance
      (inp : string) (st : option StateFn) (s : Z) (ts : list Token)
      (stk : list NamedStateFn) (typ : TokenType) (k : nat)
      (R : Result (option StateFn)) :
  forall (fuel : nat) (body : string) (p w : Z) (q : ascii) (rest : string),
    0 <= p ->
    drop (Z.to_nat p) inp = (body ++ String q rest)%string ->
    byte_val q < 128 ->
    unclosed body = true ->
    (String.length body + k <= fuel)%nat ->
    (forall (f : nat) (w' : Z),
        (k <= f)%nat ->
        lexValue_quoted f typ (mkLexer inp st (p + len body) s w' ts stk) = R) ->
    lexValue_quoted fuel typ (mkLexer inp st p s w ts stk) = R.
Proof.
  induction fuel as [|fuel IH]; intros body p w q rest Hp Hdrop Hq Hun Hf HR.
  - destruct body; [|cbn in Hf; lia].
    change (len "") with 0 in HR. rewrite Z.add_0_r in HR. apply HR. lia.
  - destruct body as [|b bt].
    + change (len "") with 0 in HR. rewrite Z.add_0_r in HR. apply HR.
      cbn in Hf. lia.
    + pose proof (DecodeRuneInString_width (String b bt) ltac:(congruence))
        as Hw.
      unfold unclosed in Hun. rewrite runes_step in Hun by congruence.
      assert (Hdec : DecodeRuneInString (String b bt ++ String q rest)
                     = DecodeRuneInString (String b bt))
        by (apply DecodeRuneInString_app_ascii; [congruence | exact Hq]).
      destruct (DecodeRuneInString (String b bt)) as [r w0].
      cbn [fst snd forallb] in *.
      apply andb_true_iff in Hun. destruct Hun as [Hr Hrest].
      apply andb_true_iff in Hr. destruct Hr as [Hrq Hr0].
      apply negb_true_iff in Hrq. apply negb_true_iff in Hr0.
      cbn [lexValue_quoted]. eapply bind_eq.
      { rewrite (next_rest inp st p s w ts stk _ Hp Hdrop)
          by apply app_nonempty.
        rewrite Hdec. reflexivity. }
      cbn [fst snd]. rewrite Hrq, Hr0.
      apply (IH (drop (Z.to_nat w0) (String b bt)) (p + w0) w0 q rest).
      * lia.
      * replace (Z.to_nat (p + w0)) with (Z.to_nat p + Z.to_nat w0)%nat by lia.
        rewrite <- drop_drop, Hdrop. apply drop_app_le. unfold len in Hw. lia.
      * exact Hq.
      * exact Hrest.
      * rewrite drop_length. unfold len in Hw. cbn [String.length] in *. lia.
      * intros f w' Hk.
        replace (p + w0 + len (drop (Z.to_nat w0) (String b bt)))
          with (p + len (String b bt)); [apply HR; exact Hk|].
        unfold len in *. rewrite drop_length. lia.
Qed.

Lemma is_quote_byte (q : ascii) :
  is_quote (byte_val q) = true -> byte_val q < 128.
Proof.
  intros H. destruct (is_quote_ascii q H) as (Hlt & _).
  apply Z.ltb_lt. exact Hlt.
Qed.

Lemma drop_plus (p : Z) (k : nat) (inp a b : string) :
  0 <= p ->
  drop (Z.to_nat p) inp = (a ++ b)%string ->
  String.length a = k ->
  drop (Z.to_nat (p + Z.of_nat k)) inp = b.
Proof.
  intros Hp Hd Hk.
  replace (Z.to_nat (p + Z.of_nat k)) with (Z.to_nat p + k)%nat by lia.
  rewrite <- drop_drop, Hd, <- Hk. apply drop_app_length.
Qed.

(** At the closing quote, with an ASCII byte that is no quote behind it. *)
Lemma lexValue_quoted_close (fuel : nat) (typ : TokenType)
      (inp : string) (st : option StateFn) (p s w : Z)
      (stk : list NamedStateFn) (q c : ascii) (tail : string) :
  0 <= s <= p ->
  drop (Z.to_nat p) inp = String q (String c tail) ->
  is_quote (byte_val q) = true ->
  byte_val c < 128 ->
  is_quote (byte_val c) = false ->
  lexValue_quoted (S fuel) typ (mkLexer inp st p s w [] stk) =
  Ret None (mkLexer inp st (p + 1) (p + 1) 1
                    [mkToken typ (take (Z.to_nat (p - s))
                                       (drop (Z.to_nat s) inp))] stk).
Proof.
  intros Hs Hdrop Hq Hc Hcq.
  pose proof (is_quote_byte q Hq) as Hqa.
  pose proof (len_nonneg tail) as Hnt.
  assert (Hlen : len inp = p + 2 + len tail).
  { pose proof (drop_eq_len _ _ _ Hdrop ltac:(discriminate)) as H.
    cbn [String.length] in H. unfold len. lia. }
  assert (Hdrop1 : drop (Z.to_nat (p + 1)) inp = String c tail).
  { replace (Z.to_nat (p + 1)) with (S (Z.to_nat p)) by lia.
    eapply drop_succ. exact Hdrop. }
  cbn [lexValue_quoted].
  eapply bind_eq; [eapply (next_ascii_at inp st p s w [] stk q);
                   [lia | exact Hdrop | exact Hqa]|].
  rewrite Hq. cbv iota.
  eapply bind_eq; [apply isEnd_not_end; cbn [pos input]; lia|].
  cbn [negb]. cbv iota.
  eapply bind_eq; [apply (next_ascii_at inp st (p + 1) s 1 [] stk c tail);
                   [lia | exact Hdrop1 | exact Hc]|].
  rewrite Hcq. cbv iota.
  eapply bind_eq; [reflexivity|]. eapply bind_eq; [reflexivity|]. proj.
  replace (p + 1 + 1 - 1 - 1) with p by lia.
  eapply bind_eq; [apply emit_ok; lia|].
  eapply bind_eq; [eapply next_ascii_at;
                   [lia | exact Hdrop | exact Hqa]|].
  eapply bind_eq; [reflexivity|]. reflexivity.
Qed.

(** At the closing quote that ends the input. *)
Lemma lexValue_quoted_close_end (fuel : nat) (typ : TokenType)
      (inp : string) (st : option StateFn) (p s w : Z)
      (stk : list NamedStateFn) (q : ascii) :
  0 <= s <= p ->
  drop (Z.to_nat p) inp = String q EmptyString ->
  is_quote (byte_val q) = true ->
  lexValue_quoted (S fuel) typ (mkLexer inp st p s w [] stk) =
  Ret None (mkLexer inp st (p + 1) p 1
                    [mkToken typ (take (Z.to_nat (p - s))
                                       (drop (Z.to_nat s) inp))] stk).
Proof.
  intros Hs Hdrop Hq.
  pose proof (is_quote_byte q Hq) as Hqa.
  assert (Hlen : len inp = p + 1).
  { pose proof (drop_eq_len _ _ _ Hdrop ltac:(discriminate)) as H.
    cbn [String.length] in H. unfold len. lia. }
  cbn [lexValue_quoted].
  eapply bind_eq; [eapply (next_ascii_at inp st p s w [] stk q);
                   [lia | exact Hdrop | exact Hqa]|].
  rewrite Hq. cbv iota.
  eapply bind_eq; [apply isEnd_at_end; cbn [pos input]; lia|].
  cbn [negb]. cbv iota.
  eapply bind_eq; [reflexivity|]. proj.
  replace (p + 1 - 1) with p by lia.
  eapply bind_eq; [apply emit_ok; lia|].
  eapply bind_eq; [eapply next_ascii_at;
                   [lia | exact Hdrop | exact Hqa]|].
  reflexivity.
Qed.

(** At a quote followed by a quote: the loop goes on, the kind of the value
    changed. *)
Lemma lexValue_quoted_doubled (fuel : nat) (typ : TokenType)
      (inp : string) (st : option StateFn) (p s w : Z) (ts : list Token)
      (stk : list NamedStateFn) (q q' : ascii) (tail : string) :
  0 <= p ->
  drop (Z.to_nat p) inp = String q (String q' tail) ->
  is_quote (byte_val q) = true ->
  is_quote (byte_val q') = true ->
  lexValue_quoted (S fuel) typ (mkLexer inp st p s w ts stk) =
  lexValue_quoted fuel TokenValueWithSingleQuote
                  (mkLexer inp st (p + 2) s 1 ts stk).
Proof.
  intros Hp Hdrop Hq Hq'.
  pose proof (is_quote_byte q Hq) as Hqa.
  pose proof (is_quote_byte q' Hq') as Hqa'.
  pose proof (len_nonneg tail) as Hnt.
  assert (Hlen : len inp = p + 2 + len tail).
  { pose proof (drop_eq_len _ _ _ Hdrop ltac:(discriminate)) as H.
    cbn [String.length] in H. unfold len. lia. }
  assert (Hdrop1 : drop (Z.to_nat (p + 1)) inp = String q' tail).
  { replace (Z.to_nat (p + 1)) with (S (Z.to_nat p)) by lia.
    eapply drop_succ. exact Hdrop. }
  cbn [lexValue_quoted].
  eapply bind_eq; [eapply (next_ascii_at inp st p s w ts stk q);
                   [lia | exact Hdrop | exact Hqa]|].
  rewrite Hq. cbv iota.
  eapply bind_eq; [apply isEnd_not_end; cbn [pos input]; lia|].
  cbn [negb]. cbv iota.
  eapply bind_eq; [apply (next_ascii_at inp st (p + 1) s 1 ts stk q' tail);
                   [lia | exact Hdrop1 | exact Hqa']|].
  rewrite Hq'. cbv iota.
  replace (byte_val q' =? 0) with false.
  - replace (p + 1 + 1) with (p + 2) by lia. reflexivity.
  - symmetry. apply Z.eqb_neq. unfold is_quote, squote, dquote in Hq'.
    apply orb_true_iff in Hq'. rewrite !Z.eqb_eq in Hq'. lia.
Qed.

(** The start of [lexValue] on an opening quote. *)
Lemma lexValue_open (fuel : nat) (inp : string) (st : option StateFn)
      (p s w : Z) (ts : list Token) (stk : list NamedStateFn)
      (q : ascii) (rest : string) :
  0 <= p ->
  drop (Z.to_nat p) inp = String q rest ->
  is_quote (byte_val q) = true ->
  Lexer_lexValue (S fuel) (mkLexer inp st p s w ts stk) =
  lexValue_quoted (S fuel) TokenValue
                  (mkLexer inp st (p + 1) (p + 1) 1 ts stk).
Proof.
  intros Hp Hdrop Hq.
  destruct (is_quote_ascii q Hq) as (Hlt & Hsp & Hparen).
  pose proof (is_quote_byte q Hq) as Hqa.
  pose proof (len_nonneg rest) as Hnt.
  assert (Hlen : len inp = p + 1 + len rest).
  { pose proof (drop_eq_len _ _ _ Hdrop ltac:(discriminate)) as H.
    cbn [String.length] in H. unfold len. lia. }
  unfold Lexer_lexValue.
  eapply bind_eq.
  { apply (skipWhiteSpaces_none fuel inp st p s w ts stk (String q rest));
      [lia | exact Hdrop | discriminate|].
    rewrite DecodeRuneInString_ascii by exact Hqa. exact Hsp. }
  rewrite DecodeRuneInString_ascii by exact Hqa. cbn [snd].
  eapply bind_eq; [apply isEnd_not_end; cbn [pos input]; lia|].
  cbv iota.
  eapply bind_eq; [eapply (next_ascii_at inp st p p 1 ts stk q);
                   [lia | exact Hdrop | exact Hqa]|].
  rewrite Hparen, Hq. cbv iota.
  eapply bind_eq; [reflexivity|]. reflexivity.
Qed.

(** X9.  A quoted value followed by an ASCII byte that is no quote: one
    [TokenValue] whose text is what stands between the quotes, the cursor
    behind the closing quote.  The two quotes need not be of the same
    kind. *)
Theorem quoted_value (fuel : nat) (inp : string) (st : option StateFn)
        (p s w : Z) (stk : list NamedStateFn)
        (q1 q2 c : ascii) (body tail : string) :
  0 <= p ->
  drop (Z.to_nat p) inp = String q1 (body ++ String q2 (String c tail)) ->
  is_quote (byte_val q1) = true ->
  is_quote (byte_val q2) = true ->
  unclosed body = true ->
  byte_val c < 128 ->
  is_quote (byte_val c) = false ->
  (String.length body + 2 <= fuel)%nat ->
  Lexer_lexValue fuel (mkLexer inp st p s w [] stk) =
  Ret None (mkLexer inp st (p + len body + 2) (p + len body + 2) 1
                    [mkToken TokenValue body] stk).
Proof.
  intros Hp Hdrop Hq1 Hq2 Hun Hc Hcq Hf.
  destruct fuel as [|fuel]; [lia|].
  pose proof (len_nonneg body) as Hnb.
  assert (Hdrop1 : drop (Z.to_nat (p + 1)) inp
                   = (body ++ String q2 (String c tail))%string).
  { replace (Z.to_nat (p + 1)) with (S (Z.to_nat p)) by lia.
    eapply drop_succ. exact Hdrop. }
  assert (Hdrop2 : drop (Z.to_nat (p + 1 + len body)) inp
                   = String q2 (String c tail)).
  { apply (drop_plus (p + 1) (String.length body) inp body);
      [lia | exact Hdrop1 | reflexivity]. }
  rewrite (lexValue_open fuel inp st p s w [] stk q1 _ Hp Hdrop Hq1).
  apply (lexValue_quoted_advance inp st (p + 1) [] stk TokenValue 1 _
           (S fuel) body (p + 1) 1 q2 (String c tail));
    [lia | exact Hdrop1 | apply is_quote_byte; exact Hq2 | exact Hun | lia |].
  intros f w' Hk. destruct f as [|f]; [lia|].
  rewrite (lexValue_quoted_close f TokenValue inp st (p + 1 + len body)
             (p + 1) w' stk q2 c tail); try assumption; [|lia].
  replace (p + 1 + len body + 1) with (p + len body + 2) by lia.
  do 3 f_equal.
  replace (Z.to_nat (p + 1 + len body - (p + 1))) with (String.length body)
    by (unfold len; lia).
  rewrite Hdrop1, take_app_length. reflexivity.
Qed.

Lemma quoted_value_witness :
  0 <= 0 /\
  drop (Z.to_nat 0) "'ab' x" = String "'" ("ab" ++ String "'" (String " " "x")) /\
  is_quote (byte_val "'") = true /\
  is_quote (byte_val "'") = true /\
  unclosed "ab" = true /\
  byte_val " " < 128 /\
  is_quote (byte_val " ") = false /\
  (String.length "ab" + 2 <= 10)%nat /\
  Lexer_lexValue 10 (mkLexer "'ab' x" None 0 0 0 [] []) =
  Ret None (mkLexer "'ab' x" None (0 + len "ab" + 2) (0 + len "ab" + 2) 1
                    [mkToken TokenValue "ab"] []).
Proof.
  assert (H1 : 0 <= 0) by lia.
  assert (H2 : drop (Z.to_nat 0) "'ab' x"
               = String "'" ("ab" ++ String "'" (String " " "x")))
    by reflexivity.
  assert (H3 : is_quote (byte_val "'") = true) by reflexivity.
  assert (H5 : unclosed "ab" = true) by reflexivity.
  assert (H6 : byte_val " " < 128) by reflexivity.
  assert (H7 : is_quote (byte_val " ") = false) by reflexivity.
  assert (H8 : (String.length "ab" + 2 <= 10)%nat) by (unfold len; simpl; lia).
  exact (conj H1 (conj H2 (conj H3 (conj H3 (conj H5 (conj H6 (conj H7
           (conj H8
              (quoted_value 10 "'ab' x" None 0 0 0 [] "'" "'" " " "ab" "x"
                            H1 H2 H3 H3 H5 H6 H7 H8))))))))).
Defined.

(** X10.  A quoted value whose closing quote ends the input: the same
    token; the closing quote is read but stays in the pending lexeme, the
    token start being one byte before the end of the input. *)
Theorem quoted_value_at_end (fuel : nat) (inp : string) (st : option StateFn)
        (p s w : Z) (stk : list NamedStateFn) (q1 q2 : ascii) (body : string) :
  0 <= p ->
  drop (Z.to_nat p) inp = String q1 (body ++ String q2 EmptyString) ->
  is_quote (byte_val q1) = true ->
  is_quote (byte_val q2) = true ->
  unclosed body = true ->
  (String.length body + 2 <= fuel)%nat ->
  Lexer_lexValue fuel (mkLexer inp st p s w [] stk) =
  Ret None (mkLexer inp st (len inp) (len inp - 1) 1
                    [mkToken TokenValue body] stk).
Proof.
  intros Hp Hdrop Hq1 Hq2 Hun Hf.
  destruct fuel as [|fuel]; [lia|].
  pose proof (len_nonneg body) as Hnb.
  assert (Hlen : len inp = p + len body + 2).
  { pose proof (drop_eq_len _ _ _ Hdrop ltac:(discriminate)) as H.
    cbn [String.length] in H. rewrite length_app_string in H.
    cbn [String.length] in H. unfold len. lia. }
  assert (Hdrop1 : drop (Z.to_nat (p + 1)) inp
                   = (body ++ String q2 EmptyString)%string).
  { replace (Z.to_nat (p + 1)) with (S (Z.to_nat p)) by lia.
    eapply drop_succ. exact Hdrop. }
  assert (Hdrop2 : drop (Z.to_nat (p + 1 + len body)) inp
                   = String q2 EmptyString).
  { apply (drop_plus (p + 1) (String.length body) inp body);
      [lia | exact Hdrop1 | reflexivity]. }
  rewrite (lexValue_open fuel inp st p s w [] stk q1 _ Hp Hdrop Hq1).
  apply (lexValue_quoted_advance inp st (p + 1) [] stk TokenValue 1 _
           (S fuel) body (p + 1) 1 q2 EmptyString);
    [lia | exact Hdrop1 | apply is_quote_byte; exact Hq2 | exact Hun | lia |].
  intros f w' Hk. destruct f as [|f]; [lia|].
  rewrite (lexValue_quoted_close_end f TokenValue inp st (p + 1 + len body)
             (p + 1) w' stk q2); try assumption; [|lia].
  replace (p + 1 + len body + 1) with (len inp) by lia.
  replace (p + 1 + len body) with (len inp - 1) by lia.
  do 3 f_equal.
  replace (Z.to_nat (len inp - 1 - (p + 1))) with (String.length body)
    by (unfold len in *; lia).
  rewrite Hdrop1, take_app_length. reflexivity.
Qed.

Lemma quoted_value_at_end_witness :
  0 <= 0 /\
  drop (Z.to_nat 0) "'ab'" = String "'" ("ab" ++ String "'" EmptyString) /\
  is_quote (byte_val "'") = true /\
  is_quote (byte_val "'") = true /\
  unclosed "ab" = true /\
  (String.length "ab" + 2 <= 10)%nat /\
  Lexer_lexValue 10 (mkLexer "'ab'" None 0 0 0 [] []) =
  Ret None (mkLexer "'ab'" None (len "'ab'") (len "'ab'" - 1) 1
                    [mkToken TokenValue "ab"] []).
Proof.
  assert (H1 : 0 <= 0) by lia.
  assert (H2 : drop (Z.to_nat 0) "'ab'"
               = String "'" ("ab" ++ String "'" EmptyString)) by reflexivity.
  assert (H3 : is_quote (byte_val "'") = true) by reflexivity.
  assert (H5 : unclosed "ab" = true) by reflexivity.
  assert (H6 : (String.length "ab" + 2 <= 10)%nat) by (unfold len; simpl; lia).
  exact (conj H1 (conj H2 (conj H3 (conj H3 (conj H5 (conj H6
           (quoted_value_at_end 10 "'ab'" None 0 0 0 [] "'" "'" "ab"
                                H1 H2 H3 H3 H5 H6))))))).
Defined.

(** X11.  A doubled quote inside a quoted value: one token of the kind
    [TokenValueWithSingleQuote], the two quotes left in its text as they
    were written. *)
Theorem quoted_value_doubled_quote
        (fuel : nat) (inp : string) (st : option StateFn)
        (p s w : Z) (stk : list NamedStateFn)
        (q1 q2 q3 q4 c : ascii) (body1 body2 tail : string) :
  0 <= p ->
  drop (Z.to_nat p) inp =
    String q1 (body1 ++ String q2 (String q3
                 (body2 ++ String q4 (String c tail)))) ->
  is_quote (byte_val q1) = true ->
  is_quote (byte_val q2) = true ->
  is_quote (byte_val q3) = true ->
  is_quote (byte_val q4) = true ->
  unclosed body1 = true ->
  unclosed body2 = true ->
  byte_val c < 128 ->
  is_quote (byte_val c) = false ->
  (String.length body1 + String.length body2 + 3 <= fuel)%nat ->
  Lexer_lexValue fuel (mkLexer inp st p s w [] stk) =
  Ret None
      (mkLexer inp st (p + len body1 + len body2 + 4)
               (p + len body1 + len body2 + 4) 1
               [mkToken TokenValueWithSingleQuote
                        (body1 ++ String q2 (String q3 body2))] stk).
Proof.
  intros Hp Hdrop Hq1 Hq2 Hq3 Hq4 Hun1 Hun2 Hc Hcq Hf.
  destruct fuel as [|fuel]; [lia|].
  pose proof (len_nonneg body1) as Hnb1. pose proof (len_nonneg body2) as Hnb2.
  set (rest2 := (body2 ++ String q4 (String c tail))%string) in *.
  assert (Hdrop1 : drop (Z.to_nat (p + 1)) inp
                   = (body1 ++ String q2 (String q3 rest2))%string).
  { replace (Z.to_nat (p + 1)) with (S (Z.to_nat p)) by lia.
    eapply drop_succ. exact Hdrop. }
  assert (Hdrop2 : drop (Z.to_nat (p + 1 + len body1)) inp
                   = String q2 (String q3 rest2)).
  { apply (drop_plus (p + 1) (String.length body1) inp body1);
      [lia | exact Hdrop1 | reflexivity]. }
  assert (Hdrop3 : drop (Z.to_nat (p + 1 + len body1 + 2)) inp = rest2).
  { replace (Z.to_nat (p + 1 + len body1 + 2))
      with (S (S (Z.to_nat (p + 1 + len body1)))) by lia.
    eapply drop_succ. eapply drop_succ. exact Hdrop2. }
  assert (Hdrop4 : drop (Z.to_nat (p + 1 + len body1 + 2 + len body2)) inp
                   = String q4 (String c tail)).
  { apply (drop_plus (p + 1 + len body1 + 2) (String.length body2) inp body2);
      [lia | exact Hdrop3 | reflexivity]. }
  rewrite (lexValue_open fuel inp st p s w [] stk q1 _ Hp Hdrop Hq1).
  apply (lexValue_quoted_advance inp st (p + 1) [] stk TokenValue
           (String.length body2 + 2) _
           (S fuel) body1 (p + 1) 1 q2 (String q3 rest2));
    [lia | exact Hdrop1 | apply is_quote_byte; exact Hq2 | exact Hun1 | lia |].
  intros f w' Hk. destruct f as [|f]; [lia|].
  rewrite (lexValue_quoted_doubled f TokenValue inp st (p + 1 + len body1)
             (p + 1) w' [] stk q2 q3 rest2); try assumption; [|lia].
  apply (lexValue_quoted_advance inp st (p + 1) [] stk
           TokenValueWithSingleQuote 1 _
           f body2 (p + 1 + len body1 + 2) 1 q4 (String c tail));
    [lia | exact Hdrop3 | apply is_quote_byte; exact Hq4 | exact Hun2 | lia |].
  intros f' w'' Hk'. destruct f' as [|f']; [lia|].
  rewrite (lexValue_quoted_close f' TokenValueWithSingleQuote inp st
             (p + 1 + len body1 + 2 + len body2)
             (p + 1) w'' stk q4 c tail); try assumption; [|lia].
  replace (p + 1 + len body1 + 2 + len body2 + 1)
    with (p + len body1 + len body2 + 4) by lia.
  do 3 f_equal.
  replace (Z.to_nat (p + 1 + len body1 + 2 + len body2 - (p + 1)))
    with (String.length (body1 ++ String q2 (String q3 body2))).
  - rewrite Hdrop1. unfold rest2.
    replace (body1 ++ String q2 (String q3 (body2 ++ String q4 (String c tail))))%string
      with ((body1 ++ String q2 (String q3 body2)) ++ String q4 (String c tail))%string.
    + rewrite take_app_length. reflexivity.
    + rewrite app_assoc_string. reflexivity.
  - rewrite length_app_string. cbn [String.length]. unfold len. lia.
Qed.

Lemma quoted_value_doubled_quote_witness :
  0 <= 0 /\
  drop (Z.to_nat 0) "'it''s' " =
    String "'" ("it" ++ String "'" (String "'"
                  ("s" ++ String "'" (String " " "")))) /\
  is_quote (byte_val "'") = true /\
  is_quote (byte_val "'") = true /\
  is_quote (byte_val "'") = true /\
  is_quote (byte_val "'") = true /\
  unclosed "it" = true /\
  unclosed "s" = true /\
  byte_val " " < 128 /\
  is_quote (byte_val " ") = false /\
  (String.length "it" + String.length "s" + 3 <= 10)%nat /\
  Lexer_lexValue 10 (mkLexer "'it''s' " None 0 0 0 [] []) =
  Ret None
      (mkLexer "'it''s' " None (0 + len "it" + len "s" + 4)
               (0 + len "it" + len "s" + 4) 1
               [mkToken TokenValueWithSingleQuote
                        ("it" ++ String "'" (String "'" "s"))] []).
Proof.
  assert (H1 : 0 <= 0) by lia.
  assert (H2 : drop (Z.to_nat 0) "'it''s' " =
               String "'" ("it" ++ String "'" (String "'"
                             ("s" ++ String "'" (String " " "")))))
    by reflexivity.
  assert (H3 : is_quote (byte_val "'") = true) by reflexivity.
  assert (H4 : unclosed "it" = true) by reflexivity.
  assert (H5 : unclosed "s" = true) by reflexivity.
  assert (H6 : byte_val " " < 128) by reflexivity.
  assert (H7 : is_quote (byte_val " ") = false) by reflexivity.
  assert (H8 : (String.length "it" + String.length "s" + 3 <= 10)%nat)
    by (unfold len; simpl; lia).
  exact (conj H1 (conj H2 (conj H3 (conj H3 (conj H3 (conj H3 (conj H4
           (conj H5 (conj H6 (conj H7 (conj H8
              (quoted_value_doubled_quote 10 "'it''s' " None 0 0 0 []
                 "'" "'" "'" "'" " " "it" "s" ""
                 H1 H2 H3 H3 H3 H3 H4 H5 H6 H7 H8)))))))))))).
Defined.

(** ** Keywords *)

Lemma byte_val_chr (z : Z) : 0 <= z < 256 -> byte_val (chr z) = z.
Proof.
  intros H. unfold byte_val, chr. rewrite N_ascii_embedding; lia.
Qed.

Lemma ToLower_byte (U : Tables) (c : ascii) :
  byte_val c < 128 -> ToLower U (byte_val c) = byte_val (lower_byte c).
Proof.
  intros H. unfold ToLower, lower_byte.
  replace (byte_val c <? 128) with true by (symmetry; apply Z.ltb_lt; lia).
  destruct ((65 <=? byte_val c) && (byte_val c <=? 90)) eqn:E;
    [|reflexivity].
  pose proof (byte_val_range c). rewrite byte_val_chr; lia.
Qed.

Lemma ToLower_eof (U : Tables) : ToLower U eof = eof.
Proof. reflexivity. Qed.

Lemma runes_ascii_app (a b : string) :
  is_ascii a = true ->
  runes (a ++ b) = (map byte_val (list_ascii_of_string a) ++ runes b)%list.
Proof.
  induction a as [|c a IH]; intros H; [reflexivity|].
  cbn [is_ascii] in H. apply andb_true_iff in H. destruct H as [Hc Ha].
  apply Z.ltb_lt in Hc.
  cbn [append]. rewrite runes_step by discriminate.
  rewrite DecodeRuneInString_ascii by exact Hc.
  cbn [fst snd list_ascii_of_string map List.app].
  change (Z.to_nat 1) with 1%nat. cbn [drop].
  rewrite IH by exact Ha. reflexivity.
Qed.

Lemma list_ascii_map_bytes (f : ascii -> ascii) (s : string) :
  list_ascii_of_string (map_bytes f s) = map f (list_ascii_of_string s).
Proof. induction s as [|c s IH]; cbn; [reflexivity | rewrite IH; reflexivity]. Qed.

Lemma lower_byte_ascii (c : ascii) :
  byte_val c < 128 -> byte_val (lower_byte c) < 128.
Proof.
  intros H. unfold lower_byte.
  destruct ((65 <=? byte_val c) && (byte_val c <=? 90)) eqn:E; [|exact H].
  apply andb_true_iff in E. destruct E as [E1 E2].
  apply Z.leb_le in E1. apply Z.leb_le in E2.
  rewrite byte_val_chr; lia.
Qed.

Lemma is_ascii_lower (s : string) :
  is_ascii s = true -> is_ascii (map_bytes lower_byte s) = true.
Proof.
  induction s as [|c s IH]; intros H; [reflexivity|].
  cbn [is_ascii map_bytes] in *. apply andb_true_iff in H.
  destruct H as [Hc Hs]. apply andb_true_iff. split; [|apply IH; exact Hs].
  apply Z.ltb_lt. apply lower_byte_ascii. apply Z.ltb_lt. exact Hc.
Qed.

Lemma backup_times_pos (n : nat) :
  forall l : Lexer,
    backup_times n l = Ret tt (set_pos (pos l - Z.of_nat n * width l) l).
Proof.
  induction n as [|n IH]; intros l.
  - cbn [backup_times]. unfold ret. f_equal.
    change (Z.of_nat 0) with 0. rewrite Z.mul_0_l, Z.sub_0_r.
    destruct l; reflexivity.
  - cbn [backup_times]. unfold bind, backup, modify. rewrite IH.
    destruct l as [inp st p s w ts stk]. proj. do 2 f_equal. lia.
Qed.

(** [tryMatch] over a part of the keyword that the input holds, in any
    letter case. *)
Lemma tryMatch_loop_prefix (U : Tables) (inp : string) (st : option StateFn)
      (s : Z) (ts : list Token) (stk : list NamedStateFn)
      (more : list rune) (rest : string) :
  forall (m : string) (i : nat) (p w : Z),
    is_ascii m = true ->
    0 <= p ->
    drop (Z.to_nat p) inp = (m ++ rest)%string ->
    tryMatch_loop U
      (map byte_val (list_ascii_of_string (map_bytes lower_byte m)) ++ more)%list
      i (mkLexer inp st p s w ts stk) =
    tryMatch_loop U more (i + String.length m)
                  (mkLexer inp st (p + len m) s (width_after m w) ts stk).
Proof.
  induction m as [|c m IH]; intros i p w Ha Hp Hdrop.
  - cbn [map_bytes list_ascii_of_string map List.app String.length width_after].
    change (len "") with 0. rewrite Z.add_0_r, Nat.add_0_r. reflexivity.
  - cbn [is_ascii] in Ha. apply andb_true_iff in Ha. destruct Ha as [Hc Ha].
    apply Z.ltb_lt in Hc.
    cbn [map_bytes list_ascii_of_string map List.app tryMatch_loop].
    cbn [append] in Hdrop.
    unfold bind at 1.
    rewrite (next_ascii_at inp st p s w ts stk c (m ++ rest) Hp Hdrop Hc).
    rewrite ToLower_byte by exact Hc. rewrite Z.eqb_refl. cbn [negb].
    rewrite (IH (S i) (p + 1) 1 Ha) by
        (try lia;
         replace (Z.to_nat (p + 1)) with (S (Z.to_nat p)) by lia;
         eapply drop_succ; exact Hdrop).
    cbn [String.length width_after]. rewrite len_String.
    replace (S i + String.length m)%nat with (i + S (String.length m))%nat
      by lia.
    replace (p + 1 + len m) with (p + (len m + 1)) by lia.
    destruct m; reflexivity.
Qed.

Lemma runes_lower_ascii (m : string) :
  is_ascii m = true ->
  runes (map_bytes lower_byte m)
  = map byte_val (list_ascii_of_string (map_bytes lower_byte m)).
Proof.
  intros H. pose proof (runes_ascii_app (map_bytes lower_byte m) ""
                          (is_ascii_lower m H)) as Hr.
  rewrite app_empty_r in Hr. rewrite Hr. change (runes "") with (@nil rune).
  apply app_nil_r.
Qed.

Lemma tryMatch_keyword (U : Tables) (inp : string) (st : option StateFn)
        (p s w : Z) (ts : list Token) (stk : list NamedStateFn)
        (m rest : string) :
  is_ascii m = true ->
  0 <= p ->
  drop (Z.to_nat p) inp = (m ++ rest)%string ->
  tryMatch U (map_bytes lower_byte m) (mkLexer inp st p s w ts stk) =
  Ret true (mkLexer inp st (p + len m) s (width_after m w) ts stk).
Proof.
  intros Ha Hp Hdrop. unfold tryMatch.
  rewrite runes_lower_ascii by exact Ha.
  pose proof (tryMatch_loop_prefix U inp st s ts stk [] rest m 0 p w
                                   Ha Hp Hdrop) as H.
  rewrite app_nil_r in H. rewrite H. reflexivity.
Qed.

(** X12.  [tryMatch] fails on a rune that differs from the keyword after
    the bytes of [m] matched: it steps back once for every rune read, each
    time by the width of the last one.  The cursor is back where it started
    only if that rune is one byte wide or nothing had matched. *)
Theorem tryMatch_rejects (U : Tables) (inp : string) (st : option StateFn)
        (p s w : Z) (ts : list Token) (stk : list NamedStateFn)
        (m : string) (k : ascii) (kw rest : string) :
  is_ascii m = true ->
  byte_val k < 128 ->
  0 <= p ->
  drop (Z.to_nat p) inp = (m ++ rest)%string ->
  rest <> EmptyString ->
  (ToLower U (fst (DecodeRuneInString rest)) =? byte_val k) = false ->
  tryMatch U (map_bytes lower_byte m ++ String k kw)
           (mkLexer inp st p s w ts stk) =
  Ret false
      (mkLexer inp st
               (p - len m * (snd (DecodeRuneInString rest) - 1)) s
               (snd (DecodeRuneInString rest)) ts stk).
Proof.
  intros Ha Hk Hp Hdrop Hne Hdiff. unfold tryMatch.
  rewrite runes_ascii_app by (apply is_ascii_lower; exact Ha).
  rewrite (tryMatch_loop_prefix U inp st s ts stk _ rest m 0 p w Ha Hp Hdrop).
  rewrite runes_step by discriminate.
  rewrite DecodeRuneInString_ascii by exact Hk. cbn [fst snd].
  cbn [tryMatch_loop]. unfold bind at 1.
  pose proof (len_nonneg m) as Hnm.
  rewrite (next_rest inp st (p + len m) s _ ts stk rest);
    [ | lia
      | apply (drop_plus p (String.length m) inp m rest Hp Hdrop eq_refl)
      | exact Hne ].
  rewrite Hdiff. cbn [negb]. unfold bind. rewrite backup_times_pos.
  unfold ret. proj. do 2 f_equal. unfold len. nia.
Qed.

Lemma tryMatch_rejects_witness :
  is_ascii "wh" = true /\
  byte_val "e" < 128 /\
  0 <= 0 /\
  drop (Z.to_nat 0) (String "w" (String "h" (String "195" (String "169" ""))))
  = ("wh" ++ String "195" (String "169" ""))%string /\
  String "195" (String "169" "") <> EmptyString /\
  (ToLower ascii_tables
           (fst (DecodeRuneInString (String "195" (String "169" ""))))
   =? byte_val "e") = false /\
  tryMatch ascii_tables (map_bytes lower_byte "wh" ++ String "e" "re")
           (mkLexer (String "w" (String "h" (String "195" (String "169" ""))))
                    None 0 0 0 [] []) =
  Ret false
      (mkLexer (String "w" (String "h" (String "195" (String "169" ""))))
               None
               (0 - len "wh"
                    * (snd (DecodeRuneInString
                              (String "195" (String "169" ""))) - 1))
               0
               (snd (DecodeRuneInString (String "195" (String "169" ""))))
               [] []).
Proof.
  assert (H1 : is_ascii "wh" = true) by reflexivity.
  assert (H2 : byte_val "e" < 128) by reflexivity.
  assert (H3 : 0 <= 0) by lia.
  assert (H4 : drop (Z.to_nat 0)
                    (String "w" (String "h" (String "195" (String "169" ""))))
               = ("wh" ++ String "195" (String "169" ""))%string)
    by reflexivity.
  assert (H5 : String "195" (String "169" "") <> EmptyString) by discriminate.
  assert (H6 : (ToLower ascii_tables
                  (fst (DecodeRuneInString (String "195" (String "169" ""))))
                =? byte_val "e") = false) by reflexivity.
  exact (conj H1 (conj H2 (conj H3 (conj H4 (conj H5 (conj H6
           (tryMatch_rejects ascii_tables _ None 0 0 0 [] [] "wh" "e" "re" _
                             H1 H2 H3 H4 H5 H6))))))).
Defined.

(** X13.  The input ends inside the keyword: the last read has width
    0, stepping back changes nothing, and the cursor stays at the end of the
    input although [tryMatch] reports no match. *)
Theorem tryMatch_at_end_keeps_position
        (U : Tables) (inp : string) (st : option StateFn)
        (p s w : Z) (ts : list Token) (stk : list NamedStateFn)
        (m : string) (k : ascii) (kw : string) :
  is_ascii m = true ->
  byte_val k < 128 ->
  0 <= p ->
  drop (Z.to_nat p) inp = m ->
  p <= len inp ->
  tryMatch U (map_bytes lower_byte m ++ String k kw)
           (mkLexer inp st p s w ts stk) =
  Ret false (mkLexer inp st (p + len m) s 0 ts stk).
Proof.
  intros Ha Hk Hp Hdrop Hle. unfold tryMatch.
  rewrite runes_ascii_app by (apply is_ascii_lower; exact Ha).
  assert (Hdrop' : drop (Z.to_nat p) inp = (m ++ "")%string)
    by (rewrite app_empty_r; exact Hdrop).
  rewrite (tryMatch_loop_prefix U inp st s ts stk _ "" m 0 p w Ha Hp Hdrop').
  rewrite runes_step by discriminate.
  rewrite DecodeRuneInString_ascii by exact Hk. cbn [fst snd].
  cbn [tryMatch_loop]. unfold bind at 1.
  assert (Hlen : len inp = p + len m).
  { pose proof (drop_length (Z.to_nat p) inp) as H. rewrite Hdrop in H.
    unfold len in *. lia. }
  rewrite next_at_end by (cbn [pos input]; lia).
  replace (ToLower U eof =? byte_val k) with false.
  - cbn [negb]. unfold bind. rewrite backup_times_pos.
    unfold ret. proj. do 2 f_equal. lia.
  - symmetry. apply Z.eqb_neq. rewrite ToLower_eof. unfold eof.
    pose proof (byte_val_range k). lia.
Qed.

Lemma tryMatch_at_end_keeps_position_witness :
  is_ascii "wh" = true /\
  byte_val "e" < 128 /\
  0 <= 0 /\
  drop (Z.to_nat 0) "wh" = "wh" /\
  0 <= len "wh" /\
  tryMatch ascii_tables (map_bytes lower_byte "wh" ++ String "e" "re")
           (mkLexer "wh" None 0 0 0 [] []) =
  Ret false (mkLexer "wh" None (0 + len "wh") 0 0 [] []).
Proof.
  assert (H1 : is_ascii "wh" = true) by reflexivity.
  assert (H2 : byte_val "e" < 128) by reflexivity.
  assert (H3 : 0 <= 0) by lia.
  assert (H4 : drop (Z.to_nat 0) "wh" = "wh") by reflexivity.
  assert (H5 : 0 <= len "wh") by (unfold len; simpl; lia).
  exact (conj H1 (conj H2 (conj H3 (conj H4 (conj H5
           (tryMatch_at_end_keeps_position ascii_tables "wh" None 0 0 0 [] []
                                           "wh" "e" "re"
                                           H1 H2 H3 H4 H5)))))).
Defined.

(** X14.  [tryMatch] finds the keyword in any letter case and whatever
    follows it: no word boundary is asked for. *)
Theorem tryMatch_accepts (U : Tables) (l : Lexer) (m rest : string) :
  is_ascii m = true ->
  0 <= pos l ->
  drop (Z.to_nat (pos l)) (input l) = (m ++ rest)%string ->
  exists w : Z,
    tryMatch U (map_bytes lower_byte m) l =
    Ret true (mkLexer (input l) (state l) (pos l + len m) (start l) w
                      (tokens l) (stack l)).
Proof.
  intros Ha Hp Hdrop. destruct l as [inp st p s w ts stk].
  cbn [input state pos start tokens stack] in *.
  exists (width_after m w).
  apply (tryMatch_keyword U inp st p s w ts stk m rest Ha Hp Hdrop).
Qed.

Lemma tryMatch_accepts_witness :
  is_ascii "WHERE" = true /\
  0 <= pos (lexer_at "WHEREver") /\
  drop (Z.to_nat (pos (lexer_at "WHEREver"))) (input (lexer_at "WHEREver"))
  = ("WHERE" ++ "ver")%string /\
  exists w : Z,
    tryMatch ascii_tables (map_bytes lower_byte "WHERE") (lexer_at "WHEREver") =
    Ret true (mkLexer (input (lexer_at "WHEREver"))
                      (state (lexer_at "WHEREver"))
                      (pos (lexer_at "WHEREver") + len "WHERE")
                      (start (lexer_at "WHEREver")) w
                      (tokens (lexer_at "WHEREver"))
                      (stack (lexer_at "WHEREver"))).
Proof.
  assert (H1 : is_ascii "WHERE" = true) by reflexivity.
  assert (H2 : 0 <= pos (lexer_at "WHEREver"))
    by (unfold lexer_at; simpl; lia).
  assert (H3 : drop (Z.to_nat (pos (lexer_at "WHEREver")))
                    (input (lexer_at "WHEREver"))
               = ("WHERE" ++ "ver")%string) by reflexivity.
  exact (conj H1 (conj H2 (conj H3
           (tryMatch_accepts ascii_tables (lexer_at "WHEREver") "WHERE" "ver"
                             H1 H2 H3)))).
Defined.

(** ** Optional keywords: WHERE, GROUP BY *)

(** X15.  An optional keyword (WHERE, GROUP BY) behind white space, in
    any letter case: [lexIfElseMatch] queues its token, the text as it was
    written, and returns the state given for a match. *)
Theorem lexIfElseMatch_keyword
        (U : Tables) (fuel : nat) (typ : TokenType)
        (matchState noMatchState : option StateFn)
        (inp : string) (st : option StateFn) (p s w : Z)
        (stk : list NamedStateFn) (ws : string) (c : ascii) (m rest : string) :
  TokenType_String typ = map_bytes lower_byte (String c m) ->
  is_ascii (String c m) = true ->
  IsSpace (byte_val c) = false ->
  forallb IsSpace (runes ws) = true ->
  0 <= p ->
  drop (Z.to_nat p) inp = (ws ++ String c m ++ rest)%string ->
  (String.length ws < fuel)%nat ->
  lexIfElseMatch U fuel typ matchState noMatchState
                 (mkLexer inp st p s w [] stk) =
  Ret matchState
      (mkLexer inp st (p + len ws + len (String c m))
               (p + len ws + len (String c m)) 1
               [mkToken typ (String c m)] stk).
Proof.
  intros Hname Ha Hsp Hws Hp Hdrop Hf.
  pose proof (len_nonneg ws) as Hnw.
  pose proof (len_nonneg (String c m)) as Hnm.
  pose proof (len_nonneg rest) as Hnr.
  assert (Hc : byte_val c < 128).
  { cbn [is_ascii] in Ha. apply andb_true_iff in Ha. destruct Ha as [Hc _].
    apply Z.ltb_lt. exact Hc. }
  assert (Hdrop1 : drop (Z.to_nat (p + len ws)) inp
                   = (String c m ++ rest)%string).
  { apply (drop_plus p (String.length ws) inp ws _ Hp Hdrop eq_refl). }
  assert (Hlen : len inp = p + len ws + len (String c m) + len rest).
  { pose proof (drop_eq_len _ _ _ Hdrop1 ltac:(discriminate)) as H.
    rewrite length_app_string in H. unfold len in *. lia. }
  unfold lexIfElseMatch.
  eapply bind_eq.
  { apply (skipWhiteSpaces_at fuel inp st p s w [] stk ws c (m ++ rest));
      [exact Hp | exact Hdrop | apply cont_byte_ascii; exact Hc
       | rewrite DecodeRuneInString_ascii by exact Hc; exact Hsp
       | exact Hws | exact Hf]. }
  rewrite DecodeRuneInString_ascii by exact Hc. cbn [snd].
  eapply bind_eq.
  { rewrite Hname.
    apply (tryMatch_keyword U inp st (p + len ws) (p + len ws) 1 [] stk
                            (String c m) rest Ha); [lia | exact Hdrop1]. }
  cbv iota. cbn [width_after].
  eapply bind_eq; [apply emit_ok; lia|].
  unfold ret. do 3 f_equal.
  replace (Z.to_nat (p + len ws + len (String c m) - (p + len ws)))
    with (String.length (String c m)) by (unfold len; lia).
  rewrite Hdrop1, take_app_length. reflexivity.
Qed.

Lemma lexIfElseMatch_keyword_witness :
  TokenType_String TokenWhere = map_bytes lower_byte (String "W" "HERE") /\
  is_ascii (String "W" "HERE") = true /\
  IsSpace (byte_val "W") = false /\
  forallb IsSpace (runes " ") = true /\
  0 <= 0 /\
  drop (Z.to_nat 0) " WHEREver" = (" " ++ String "W" "HERE" ++ "ver")%string /\
  (String.length " " < 5)%nat /\
  lexIfElseMatch ascii_tables 5 TokenWhere
                 (Some Fn_lexSqlWhereColumn) (Some Fn_lexGroupBy)
                 (mkLexer " WHEREver" None 0 0 0 [] []) =
  Ret (Some Fn_lexSqlWhereColumn)
      (mkLexer " WHEREver" None (0 + len " " + len (String "W" "HERE"))
               (0 + len " " + len (String "W" "HERE")) 1
               [mkToken TokenWhere (String "W" "HERE")] []).
Proof.
  assert (H1 : TokenType_String TokenWhere
               = map_bytes lower_byte (String "W" "HERE")) by reflexivity.
  assert (H2 : is_ascii (String "W" "HERE") = true) by reflexivity.
  assert (H3 : IsSpace (byte_val "W") = false) by reflexivity.
  assert (H4 : forallb IsSpace (runes " ") = true) by reflexivity.
  assert (H5 : 0 <= 0) by lia.
  assert (H6 : drop (Z.to_nat 0) " WHEREver"
               = (" " ++ String "W" "HERE" ++ "ver")%string) by reflexivity.
  assert (H7 : (String.length " " < 5)%nat) by (unfold len; simpl; lia).
  exact (conj H1 (conj H2 (conj H3 (conj H4 (conj H5 (conj H6 (conj H7
           (lexIfElseMatch_keyword ascii_tables 5 TokenWhere
              (Some Fn_lexSqlWhereColumn) (Some Fn_lexGroupBy)
              " WHEREver" None 0 0 0 [] " " "W" "HERE" "ver"
              H1 H2 H3 H4 H5 H6 H7)))))))).
Defined.

(** ** Required keywords: SELECT, FROM *)

(** What [match] leaves untouched. *)
Lemma match_loop_spec (U : Tables) (matchTo : list rune) :
  forall (skip : Z) (l : Lexer),
    0 <= pos l <= len (input l) ->
    exists (b : bool) (l' : Lexer),
      match_loop U matchTo skip l = Ret b l' /\
      pos l <= pos l' <= len (input l') /\ start l' = start l /\
      same_but_cursor l l'.
Proof.
  induction matchTo as [|r rest IH]; intros skip l Hpos.
  - exists true, l. cbn. unfold same_but_cursor. repeat split; lia.
  - cbn [match_loop]. destruct (skip >? 0); [apply IH; exact Hpos|].
    destruct (next_returns l ltac:(lia)) as (nr & l1 & Hn).
    destruct (next_spec l l1 nr Hpos Hn) as (Hp & Hw & Hle & Hs & Hsame).
    unfold bind. rewrite Hn.
    destruct (negb (r =? nr) && negb (ToLower U nr =? r)).
    + exists false, l1. unfold ret. repeat split; try lia; apply Hsame.
    + destruct (IH skip l1 ltac:(lia)) as (b & l2 & H2 & Hp2 & Hs2 & Hsame2).
      exists b, l2. unfold same_but_cursor in *.
      destruct Hsame as (? & ? & ? & ?), Hsame2 as (? & ? & ? & ?).
      repeat split; try lia; congruence.
Qed.

Lemma peek_returns (l : Lexer) :
  0 <= pos l <= len (input l) ->
  exists (r : rune) (l' : Lexer),
    peek l = Ret r l' /\ pos l' = pos l /\ start l' = start l /\
    same_but_cursor l l'.
Proof.
  intros Hpos. destruct (next_returns l ltac:(lia)) as (r & l1 & Hn).
  assert (Hpk : peek l = Ret r (set_pos (pos l1 - width l1) l1)).
  { unfold peek, bind. rewrite Hn. reflexivity. }
  destruct (peek_spec l _ r Hpos Hpk) as (H1 & H2 & H3 & _).
  eauto 6.
Qed.

Lemma match_spec (U : Tables) (matchTo : string) (skip : Z) (l : Lexer) :
  0 <= pos l <= len (input l) ->
  exists (b : bool) (l' : Lexer),
    match_ U matchTo skip l = Ret b l' /\
    pos l <= pos l' <= len (input l') /\ start l' = start l /\
    same_but_cursor l l'.
Proof.
  intros Hpos.
  destruct (match_loop_spec U (runes matchTo) skip l Hpos)
    as (b & l1 & H1 & Hp1 & Hs1 & Hsame1).
  unfold match_, bind. rewrite H1. destruct b.
  - destruct (peek_returns l1 ltac:(lia)) as (r & l2 & H2 & Hp2 & Hs2 & Hsame2).
    rewrite H2. exists (isWhiteSpace r), l2. unfold ret.
    unfold same_but_cursor in *.
    destruct Hsame1 as (? & ? & ? & ?), Hsame2 as (Hi & ? & ? & ?).
    rewrite Hi. repeat split; try lia; congruence.
  - exists false, l1. unfold ret. repeat split; try lia; apply Hsame1.
Qed.

(** X16.  With an empty channel [lexMatch] always returns: either with the
    token of the keyword and the state it was given, or with an error token
    whose text is empty (the message built from the lexeme is discarded) and
    no next state. *)
Theorem lexMatch_outcome (U : Tables) (typ : TokenType) (skip : Z)
        (fn : option StateFn) (l : Lexer) :
  0 <= start l <= pos l ->
  pos l <= len (input l) ->
  tokens l = [] ->
  exists l' : Lexer,
    (lexMatch U typ skip fn l = Ret fn l' /\
     exists text : string, tokens l' = [mkToken typ text])
    \/
    (lexMatch U typ skip fn l = Ret None l' /\
     tokens l' = [mkToken TokenError ""]).
Proof.
  intros Hs Hp Ht.
  destruct (match_spec U (TokenType_String typ) skip l ltac:(lia))
    as (b & l1 & Hm & Hp1 & Hs1 & (Hi & Htk & Hstk & Hst)).
  assert (Hstart : lexMatch U typ skip fn l =
                   (if b then emit typ ;; ret fn
                    else cur <- current ;;
                         errorToken ("Unexpected token:" ++ cur)) l1).
  { unfold lexMatch. eapply bind_eq; [apply peekWord_view; lia|].
    eapply bind_eq; [exact Hm|]. reflexivity. }
  rewrite Hstart. clear Hstart Hm.
  destruct l1 as [inp1 st1 p1 s1 w1 ts1 stk1].
  cbn [input state pos start tokens stack] in *. rewrite Ht in Htk.
  subst ts1.
  destruct b.
  - eexists. left. split.
    + eapply bind_eq; [apply emit_ok; lia|]. reflexivity.
    + cbn [tokens]. eauto.
  - eexists. right. split.
    + eapply bind_eq.
      { unfold current. cbn [input start pos]. rewrite slice_ok by lia.
        reflexivity. }
      unfold errorToken. eapply bind_eq.
      { proj. apply emit_ok; lia. }
      reflexivity.
    + cbn [tokens]. rewrite Z.sub_diag. reflexivity.
Qed.

Lemma lexMatch_outcome_witness :
  0 <= start (NewLexer "selec * from t") <= pos (NewLexer "selec * from t") /\
  pos (NewLexer "selec * from t") <= len (input (NewLexer "selec * from t")) /\
  tokens (NewLexer "selec * from t") = [] /\
  exists l' : Lexer,
    (lexMatch ascii_tables TokenSelect 0 (Some Fn_lexColumnOrComma)
              (NewLexer "selec * from t") =
     Ret (Some Fn_lexColumnOrComma) l' /\
     exists text : string, tokens l' = [mkToken TokenSelect text])
    \/
    (lexMatch ascii_tables TokenSelect 0 (Some Fn_lexColumnOrComma)
              (NewLexer "selec * from t") = Ret None l' /\
     tokens l' = [mkToken TokenError ""]).
Proof.
  assert (H1 : 0 <= start (NewLexer "selec * from t")
               <= pos (NewLexer "selec * from t"))
    by (unfold NewLexer; simpl; lia).
  assert (H2 : pos (NewLexer "selec * from t")
               <= len (input (NewLexer "selec * from t")))
    by (unfold NewLexer, len; simpl; lia).
  assert (H3 : tokens (NewLexer "selec * from t") = []) by reflexivity.
  exact (conj H1 (conj H2 (conj H3
           (lexMatch_outcome ascii_tables TokenSelect 0
              (Some Fn_lexColumnOrComma) (NewLexer "selec * from t")
              H1 H2 H3)))).
Defined.

(** [match] over a part of the keyword that the input holds. *)
Lemma match_loop_prefix (U : Tables) (inp : string) (st : option StateFn)
      (s : Z) (ts : list Token) (stk : list NamedStateFn)
      (more : list rune) (rest : string) :
  forall (m : string) (p w : Z),
    is_ascii m = true ->
    0 <= p ->
    drop (Z.to_nat p) inp = (m ++ rest)%string ->
    match_loop U
      (map byte_val (list_ascii_of_string (map_bytes lower_byte m)) ++ more)%list
      0 (mkLexer inp st p s w ts stk) =
    match_loop U more 0
               (mkLexer inp st (p + len m) s (width_after m w) ts stk).
Proof.
  induction m as [|c m IH]; intros p w Ha Hp Hdrop.
  - cbn [map_bytes list_ascii_of_string map List.app width_after].
    change (len "") with 0. rewrite Z.add_0_r. reflexivity.
  - cbn [is_ascii] in Ha. apply andb_true_iff in Ha. destruct Ha as [Hc Ha].
    apply Z.ltb_lt in Hc.
    cbn [map_bytes list_ascii_of_string map List.app match_loop].
    cbn [append] in Hdrop.
    change (0 >? 0) with false. cbv iota.
    unfold bind at 1.
    rewrite (next_ascii_at inp st p s w ts stk c (m ++ rest) Hp Hdrop Hc).
    rewrite ToLower_byte by exact Hc. rewrite Z.eqb_refl. cbn [negb].
    rewrite andb_false_r.
    rewrite (IH (p + 1) 1 Ha) by
        (try lia;
         replace (Z.to_nat (p + 1)) with (S (Z.to_nat p)) by lia;
         eapply drop_succ; exact Hdrop).
    cbn [width_after]. rewrite len_String.
    replace (p + 1 + len m) with (p + (len m + 1)) by lia.
    destruct m; reflexivity.
Qed.

Lemma match_keyword (U : Tables) (inp : string) (st : option StateFn)
      (p s w : Z) (ts : list Token) (stk : list NamedStateFn)
      (m rest : string) :
  is_ascii m = true ->
  0 <= p ->
  drop (Z.to_nat p) inp = (m ++ rest)%string ->
  match_ U (map_bytes lower_byte m) 0 (mkLexer inp st p s w ts stk) =
  (r <- peek ;; ret (isWhiteSpace r))
    (mkLexer inp st (p + len m) s (width_after m w) ts stk).
Proof.
  intros Ha Hp Hdrop. unfold match_.
  rewrite runes_lower_ascii by exact Ha.
  pose proof (match_loop_prefix U inp st s ts stk [] rest m p w Ha Hp Hdrop)
    as H.
  rewrite app_nil_r in H. unfold bind at 1. rewrite H. reflexivity.
Qed.

(** X17.  A required keyword (SELECT, FROM) followed by a blank, tab,
    newline or carriage return: its token carries the text as it was
    written. *)
Theorem lexMatch_accepts (U : Tables) (typ : TokenType)
        (fn : option StateFn) (inp : string) (st : option StateFn)
        (p w : Z) (stk : list NamedStateFn) (m : string) (c : ascii)
        (rest : string) :
  TokenType_String typ = map_bytes lower_byte m ->
  is_ascii m = true ->
  isWhiteSpace (byte_val c) = true ->
  0 <= p ->
  drop (Z.to_nat p) inp = (m ++ String c rest)%string ->
  lexMatch U typ 0 fn (mkLexer inp st p p w [] stk) =
  Ret fn (mkLexer inp st (p + len m) (p + len m) 1 [mkToken typ m] stk).
Proof.
  intros Hname Ha Hc Hp Hdrop.
  pose proof (len_nonneg m) as Hnm. pose proof (len_nonneg rest) as Hnr.
  assert (Hca : byte_val c < 128).
  { unfold isWhiteSpace in Hc. rewrite !orb_true_iff, !Z.eqb_eq in Hc.
    change (ch " ") with 32 in Hc. lia. }
  assert (Hlen : len inp = p + len m + 1 + len rest).
  { pose proof (drop_eq_len _ _ _ Hdrop (app_nonempty m c rest)) as H.
    rewrite length_app_string in H. cbn [String.length] in H.
    unfold len in *. lia. }
  assert (Hdrop1 : drop (Z.to_nat (p + len m)) inp = String c rest).
  { apply (drop_plus p (String.length m) inp m _ Hp Hdrop eq_refl). }
  unfold lexMatch. unfold bind at 1.
  rewrite peekWord_view by (cbn [pos input]; lia).
  eapply bind_eq.
  { rewrite Hname, (match_keyword U inp st p p w [] stk m _ Ha Hp Hdrop).
    unfold peek. eapply bind_eq.
    { eapply bind_eq; [eapply next_ascii_at; [|exact Hdrop1|exact Hca]; lia|].
      eapply bind_eq; reflexivity. }
    rewrite Hc. reflexivity. }
  cbv iota. proj. replace (p + len m + 1 - 1) with (p + len m) by lia.
  eapply bind_eq; [apply emit_ok; lia|].
  unfold ret. do 3 f_equal.
  replace (Z.to_nat (p + len m - p)) with (String.length m)
    by (unfold len; lia).
  rewrite Hdrop, take_app_length. reflexivity.
Qed.

Lemma lexMatch_accepts_witness :
  TokenType_String TokenSelect = map_bytes lower_byte "SeLeCt" /\
  is_ascii "SeLeCt" = true /\
  isWhiteSpace (byte_val " ") = true /\
  0 <= 0 /\
  drop (Z.to_nat 0) "SeLeCt *" = ("SeLeCt" ++ String " " "*")%string /\
  lexMatch ascii_tables TokenSelect 0 (Some Fn_lexColumnOrComma)
           (mkLexer "SeLeCt *" None 0 0 0 [] []) =
  Ret (Some Fn_lexColumnOrComma)
      (mkLexer "SeLeCt *" None (0 + len "SeLeCt") (0 + len "SeLeCt") 1
               [mkToken TokenSelect "SeLeCt"] []).
Proof.
  assert (H1 : TokenType_String TokenSelect = map_bytes lower_byte "SeLeCt")
    by reflexivity.
  assert (H2 : is_ascii "SeLeCt" = true) by reflexivity.
  assert (H3 : isWhiteSpace (byte_val " ") = true) by reflexivity.
  assert (H4 : 0 <= 0) by lia.
  assert (H5 : drop (Z.to_nat 0) "SeLeCt *"
               = ("SeLeCt" ++ String " " "*")%string) by reflexivity.
  exact (conj H1 (conj H2 (conj H3 (conj H4 (conj H5
           (lexMatch_accepts ascii_tables TokenSelect
              (Some Fn_lexColumnOrComma) "SeLeCt *" None 0 0 []
              "SeLeCt" " " "*" H1 H2 H3 H4 H5)))))).
Defined.

(** X18.  A required keyword that ends the input, or that a rune other
    than blank, tab, newline and carriage return follows, is refused with an
    error token of empty text; the keyword stays consumed. *)
Theorem lexMatch_needs_white_space (U : Tables) (typ : TokenType)
        (fn : option StateFn) (inp : string) (st : option StateFn)
        (p w : Z) (stk : list NamedStateFn) (m rest : string) :
  TokenType_String typ = map_bytes lower_byte m ->
  is_ascii m = true ->
  rest = EmptyString \/ isWhiteSpace (fst (DecodeRuneInString rest)) = false ->
  0 <= p <= len inp ->
  drop (Z.to_nat p) inp = (m ++ rest)%string ->
  exists w' : Z,
    lexMatch U typ 0 fn (mkLexer inp st p p w [] stk) =
    Ret None (mkLexer inp st (p + len m) (p + len m) w'
                      [mkToken TokenError ""] stk).
Proof.
  intros Hname Ha Hrest Hp Hdrop.
  pose proof (len_nonneg m) as Hnm. pose proof (len_nonneg rest) as Hnr.
  assert (Hlen : len inp = p + len m + len rest).
  { pose proof (drop_length (Z.to_nat p) inp) as H. rewrite Hdrop in H.
    rewrite length_app_string in H. unfold len in *. lia. }
  assert (Hdrop1 : drop (Z.to_nat (p + len m)) inp = rest).
  { apply (drop_plus p (String.length m) inp m _ ltac:(lia) Hdrop eq_refl). }
  assert (Hpeek : exists (r : rune) (w' : Z),
             peek (mkLexer inp st (p + len m) p (width_after m w) [] stk) =
             Ret r (mkLexer inp st (p + len m) p w' [] stk) /\
             isWhiteSpace r = false).
  { destruct rest as [|c t].
    - change (len "") with 0 in Hlen.
      exists eof, 0. split; [|reflexivity].
      unfold peek. eapply bind_eq;
        [apply next_at_end; cbn [pos input]; lia|].
      eapply bind_eq; [reflexivity|]. proj. rewrite Z.sub_0_r. reflexivity.
    - destruct Hrest as [Hr|Hr]; [discriminate|].
      exists (fst (DecodeRuneInString (String c t))),
             (snd (DecodeRuneInString (String c t))).
      split; [|exact Hr].
      unfold peek. eapply bind_eq;
        [apply (next_rest _ _ _ _ _ _ _ (String c t));
         [lia | exact Hdrop1 | discriminate]|].
      eapply bind_eq; [reflexivity|]. proj. unfold ret. do 2 f_equal. lia. }
  destruct Hpeek as (r & w' & Hpk & Hr).
  exists w'.
  unfold lexMatch. unfold bind at 1.
  rewrite peekWord_view by (cbn [pos input]; lia).
  eapply bind_eq.
  { rewrite Hname, (match_keyword U inp st p p w [] stk m _ Ha ltac:(lia) Hdrop).
    eapply bind_eq; [exact Hpk|]. rewrite Hr. reflexivity. }
  cbv iota.
  eapply bind_eq.
  { unfold current. cbn [input start pos]. rewrite slice_ok by lia.
    reflexivity. }
  unfold errorToken. eapply bind_eq.
  { proj. apply emit_ok; lia. }
  unfold ret. rewrite Z.sub_diag. reflexivity.
Qed.

Lemma lexMatch_needs_white_space_witness :
  TokenType_String TokenSelect = map_bytes lower_byte "select" /\
  is_ascii "select" = true /\
  ("" = EmptyString \/
   isWhiteSpace (fst (DecodeRuneInString "")) = false) /\
  0 <= 0 <= len "select" /\
  drop (Z.to_nat 0) "select" = ("select" ++ "")%string /\
  exists w' : Z,
    lexMatch ascii_tables TokenSelect 0 (Some Fn_lexColumnOrComma)
             (mkLexer "select" None 0 0 0 [] []) =
    Ret None (mkLexer "select" None (0 + len "select") (0 + len "select") w'
                      [mkToken TokenError ""] []).
Proof.
  assert (H1 : TokenType_String TokenSelect = map_bytes lower_byte "select")
    by reflexivity.
  assert (H2 : is_ascii "select" = true) by reflexivity.
  assert (H3 : "" = EmptyString \/
               isWhiteSpace (fst (DecodeRuneInString "")) = false)
    by (left; reflexivity).
  assert (H4 : 0 <= 0 <= len "select") by (unfold len; simpl; lia).
  assert (H5 : drop (Z.to_nat 0) "select" = ("select" ++ "")%string)
    by reflexivity.
  exact (conj H1 (conj H2 (conj H3 (conj H4 (conj H5
           (lexMatch_needs_white_space ascii_tables TokenSelect
              (Some Fn_lexColumnOrComma) "select" None 0 0 []
              "select" "" H1 H2 H3 H4 H5)))))).
Defined.

(** ** The end of a statement *)

Lemma emit_full (t : TokenType) (inp : string) (st : option StateFn)
      (p s w : Z) (t0 : Token) (stk : list NamedStateFn) :
  0 <= s <= p -> p <= len inp ->
  emit t (mkLexer inp st p s w [t0] stk) =
  Blocked (mkToken t (take (Z.to_nat (p - s)) (drop (Z.to_nat s) inp)))
          (mkLexer inp st p s w [t0] stk).
Proof.
  intros H1 H2. unfold emit. cbn [input start pos].
  rewrite slice_ok by lia. reflexivity.
Qed.

Lemma current_ok (inp : string) (st : option StateFn) (p s w : Z)
      (ts : list Token) (stk : list NamedStateFn) :
  0 <= s <= p -> p <= len inp ->
  current (mkLexer inp st p s w ts stk) =
  Ret (take (Z.to_nat (p - s)) (drop (Z.to_nat s) inp))
      (mkLexer inp st p p w ts stk).
Proof.
  intros H1 H2. unfold current. cbn [input start pos].
  rewrite slice_ok by lia. reflexivity.
Qed.

Lemma bind_Blocked {A B : Type} (m : M A) (k : A -> M B) (l l' : Lexer)
      (t : Token) :
  m l = Blocked t l' -> bind m k l = Blocked t l'.
Proof. intros H. unfold bind. rewrite H. reflexivity. Qed.

Lemma take_one (c : ascii) (t : string) : take 1 (String c t) = String c "".
Proof. reflexivity. Qed.

(** X19.  After a statement only a semicolon that ends the input is
    accepted with its token alone.  A semicolon followed by anything leaves
    the lexer stuck on the send of the error token, the channel being full;
    another byte that ends the input is dropped without a token; another byte
    followed by anything gives an error token of empty text. *)
Theorem lexSqlEndOfStatement_cases
        (fuel : nat) (inp : string) (st : option StateFn)
        (p s w : Z) (stk : list NamedStateFn)
        (ws : string) (c : ascii) (tail : string) :
  0 <= p ->
  drop (Z.to_nat p) inp = (ws ++ String c tail)%string ->
  forallb IsSpace (runes ws) = true ->
  byte_val c < 128 ->
  IsSpace (byte_val c) = false ->
  (String.length ws < fuel)%nat ->
  outcome (lexSqlEndOfStatement fuel (mkLexer inp st p s w [] stk)) =
  match tail with
  | EmptyString =>
    Returned None (if byte_val c =? ch ";"
                   then [mkToken TokenEOS (String c "")] else [])
  | _ =>
    if byte_val c =? ch ";"
    then Stuck [mkToken TokenEOS (String c "")] (mkToken TokenError "")
    else Returned None [mkToken TokenError ""]
  end.
Proof.
  intros Hp Hdrop Hws Hc Hsp Hf.
  pose proof (len_nonneg ws) as Hnw. pose proof (len_nonneg tail) as Hnt.
  assert (Hdrop1 : drop (Z.to_nat (p + len ws)) inp = String c tail).
  { apply (drop_plus p (String.length ws) inp ws _ Hp Hdrop eq_refl). }
  assert (Hlen : len inp = p + len ws + 1 + len tail).
  { pose proof (drop_eq_len _ _ _ Hdrop1 ltac:(discriminate)) as H.
    cbn [String.length] in H. unfold len in *. lia. }
  assert (Hskip : skipWhiteSpaces fuel (mkLexer inp st p s w [] stk) =
                  Ret tt (mkLexer inp st (p + len ws) (p + len ws) 1 [] stk)).
  { rewrite (skipWhiteSpaces_at fuel inp st p s w [] stk ws c tail);
      [ rewrite DecodeRuneInString_ascii by exact Hc; reflexivity
      | exact Hp | exact Hdrop | apply cont_byte_ascii; exact Hc
      | rewrite DecodeRuneInString_ascii by exact Hc; exact Hsp
      | exact Hws | exact Hf ]. }
  assert (Hnext : next (mkLexer inp st (p + len ws) (p + len ws) 1 [] stk) =
                  Ret (byte_val c)
                      (mkLexer inp st (p + len ws + 1) (p + len ws) 1 [] stk)).
  { apply (next_ascii_at _ _ _ _ _ _ _ c tail); [lia | exact Hdrop1 | exact Hc]. }
  assert (Htext : take (Z.to_nat (p + len ws + 1 - (p + len ws)))
                       (drop (Z.to_nat (p + len ws)) inp) = String c "").
  { rewrite Hdrop1. replace (Z.to_nat _) with 1%nat by lia. reflexivity. }
  destruct (byte_val c =? ch ";") eqn:Esemi; destruct tail as [|c' t'].
  - change (len "") with 0 in Hlen.
    assert (Hrun : lexSqlEndOfStatement fuel (mkLexer inp st p s w [] stk) =
                   Ret None
                       (mkLexer inp st (p + len ws + 1) (p + len ws + 1) 1
                                [mkToken TokenEOS (String c "")] stk)).
    { unfold lexSqlEndOfStatement.
      eapply bind_eq; [exact Hskip|].
      eapply bind_eq; [exact Hnext|]. rewrite Esemi.
      eapply bind_eq; [apply emit_ok; lia|].
      eapply bind_eq; [apply isEnd_at_end; cbn [pos input]; lia|].
      rewrite Htext. reflexivity. }
    rewrite Hrun. reflexivity.
  - pose proof (len_nonneg t') as Hn'.
    rewrite len_String in Hlen.
    assert (Hrun : lexSqlEndOfStatement fuel (mkLexer inp st p s w [] stk) =
                   Blocked (mkToken TokenError "")
                           (mkLexer inp st (p + len ws + 1) (p + len ws + 1) 1
                                    [mkToken TokenEOS (String c "")] stk)).
    { unfold lexSqlEndOfStatement.
      eapply bind_eq; [exact Hskip|].
      eapply bind_eq; [exact Hnext|]. rewrite Esemi.
      eapply bind_eq; [apply emit_ok; lia|].
      eapply bind_eq; [apply isEnd_not_end; cbn [pos input]; lia|].
      cbv iota.
      eapply bind_eq; [apply current_ok; lia|].
      unfold errorToken. apply bind_Blocked.
      rewrite emit_full by lia. rewrite Htext, Z.sub_diag. reflexivity. }
    rewrite Hrun. reflexivity.
  - change (len "") with 0 in Hlen.
    assert (Hrun : lexSqlEndOfStatement fuel (mkLexer inp st p s w [] stk) =
                   Ret None
                       (mkLexer inp st (p + len ws + 1) (p + len ws) 1
                                [] stk)).
    { unfold lexSqlEndOfStatement.
      eapply bind_eq; [exact Hskip|].
      eapply bind_eq; [exact Hnext|]. rewrite Esemi.
      eapply bind_eq; [reflexivity|].
      eapply bind_eq; [apply isEnd_at_end; cbn [pos input]; lia|].
      reflexivity. }
    rewrite Hrun. reflexivity.
  - rewrite len_String in Hlen. pose proof (len_nonneg t') as Hn'.
    assert (Hrun : lexSqlEndOfStatement fuel (mkLexer inp st p s w [] stk) =
                   Ret None
                       (mkLexer inp st (p + len ws + 1) (p + len ws + 1) 1
                                [mkToken TokenError ""] stk)).
    { unfold lexSqlEndOfStatement.
      eapply bind_eq; [exact Hskip|].
      eapply bind_eq; [exact Hnext|]. rewrite Esemi.
      eapply bind_eq; [reflexivity|].
      eapply bind_eq; [apply isEnd_not_end; cbn [pos input]; lia|].
      cbv iota.
      eapply bind_eq; [apply current_ok; lia|].
      unfold errorToken. eapply bind_eq; [apply emit_ok; lia|].
      rewrite Z.sub_diag. reflexivity. }
    rewrite Hrun. reflexivity.
Qed.

Lemma lexSqlEndOfStatement_cases_witness :
  0 <= 0 /\
  drop (Z.to_nat 0) " ; x" = (" " ++ String ";" " x")%string /\
  forallb IsSpace (runes " ") = true /\
  byte_val ";" < 128 /\
  IsSpace (byte_val ";") = false /\
  (String.length " " < 5)%nat /\
  outcome (lexSqlEndOfStatement 5 (mkLexer " ; x" None 0 0 0 [] [])) =
  Stuck [mkToken TokenEOS (String ";" "")] (mkToken TokenError "").
Proof.
  assert (H1 : 0 <= 0) by lia.
  assert (H2 : drop (Z.to_nat 0) " ; x" = (" " ++ String ";" " x")%string)
    by reflexivity.
  assert (H3 : forallb IsSpace (runes " ") = true) by reflexivity.
  assert (H4 : byte_val ";" < 128) by reflexivity.
  assert (H5 : IsSpace (byte_val ";") = false) by reflexivity.
  assert (H6 : (String.length " " < 5)%nat) by (unfold len; simpl; lia).
  exact (conj H1 (conj H2 (conj H3 (conj H4 (conj H5 (conj H6
           (lexSqlEndOfStatement_cases 5 " ; x" None 0 0 0 [] " " ";" " x"
                                       H1 H2 H3 H4 H5 H6))))))).
Defined.

(** ** Looking ahead *)

Lemma peekX_view (x : Z) (l : Lexer) :
  0 <= pos l <= len (input l) ->
  0 <= x ->
  peekX x l =
  Ret (take (Z.to_nat x) (drop (Z.to_nat (pos l)) (input l))) l.
Proof.
  intros Hp Hx. unfold peekX.
  destruct (Z.gtb_spec (pos l + x) (len (input l))) as [Hgt|Hle].
  - rewrite slice_from_ok by lia. unfold checked, ret. f_equal.
    symmetry. apply take_all. rewrite drop_length. unfold len in *. lia.
  - rewrite slice_ok by lia. unfold checked, ret. do 2 f_equal. lia.
Qed.

(** X20.  As long as [l.pos+x] stays within what an [int] is sure to hold,
    both branches of [peekX] give the next [x] bytes, or what is left of the
    input when it holds fewer; the lexer is as it was. *)
Theorem peekX_take (x : Z) (l : Lexer) :
  0 <= pos l <= len (input l) ->
  0 <= x ->
  pos l + x <= MaxInt32 ->
  exists s : string,
    peekX x l = Ret s l /\
    s = take (Z.to_nat x) (drop (Z.to_nat (pos l)) (input l)) /\
    len s = Z.min x (len (input l) - pos l).
Proof.
  intros Hp Hx _. eexists. split; [apply peekX_view; assumption|].
  split; [reflexivity|].
  unfold len in *. rewrite take_length, drop_length. lia.
Qed.

Lemma peekX_take_witness :
  0 <= pos (mkLexer "abc" None 2 0 0 [] [])
  <= len (input (mkLexer "abc" None 2 0 0 [] [])) /\
  0 <= 2 /\
  pos (mkLexer "abc" None 2 0 0 [] []) + 2 <= MaxInt32 /\
  exists s : string,
    peekX 2 (mkLexer "abc" None 2 0 0 [] []) =
    Ret s (mkLexer "abc" None 2 0 0 [] []) /\
    s = take (Z.to_nat 2)
             (drop (Z.to_nat (pos (mkLexer "abc" None 2 0 0 [] [])))
                   (input (mkLexer "abc" None 2 0 0 [] []))) /\
    len s = Z.min 2 (len (input (mkLexer "abc" None 2 0 0 [] []))
                     - pos (mkLexer "abc" None 2 0 0 [] [])).
Proof.
  assert (H1 : 0 <= pos (mkLexer "abc" None 2 0 0 [] [])
               <= len (input (mkLexer "abc" None 2 0 0 [] [])))
    by (unfold len; simpl; lia).
  assert (H2 : 0 <= 2) by lia.
  assert (H3 : pos (mkLexer "abc" None 2 0 0 [] []) + 2 <= MaxInt32)
    by (unfold MaxInt32; simpl; lia).
  exact (conj H1 (conj H2 (conj H3
           (peekX_take 2 (mkLexer "abc" None 2 0 0 [] []) H1 H2 H3)))).
Defined.

(** ** Runs of accepted runes *)

Lemma IndexRune_from_eof (n : nat) :
  forall (i : Z) (s : string), IndexRune_from n i s eof = -1.
Proof.
  induction n as [|n IH]; intros i s; [reflexivity|].
  cbn [IndexRune_from]. destruct s as [|c t]; [reflexivity|].
  pose proof (DecodeRuneInString_nonneg (String c t)) as H.
  destruct (DecodeRuneInString (String c t)) as [r w]. cbn [fst] in H.
  replace (r =? eof) with false
    by (symmetry; apply Z.eqb_neq; unfold eof; lia).
  apply IH.
Qed.

Lemma IndexRune_eof (valid : string) : IndexRune valid eof = -1.
Proof. apply IndexRune_from_eof. Qed.

(** X21.  [acceptRun] consumes the longest run of runes of [valid], stops
    in front of the first other rune or at the end of the input, and reports
    whether the run is not empty. *)
Theorem acceptRun_consumes_run
        (fuel : nat) (valid : string) (inp : string) (st : option StateFn)
        (p s w : Z) (ts : list Token) (stk : list NamedStateFn)
        (body rest : string) :
  0 <= p <= len inp ->
  drop (Z.to_nat p) inp = (body ++ rest)%string ->
  forallb (fun r => IndexRune valid r >=? 0) (runes body) = true ->
  rest = EmptyString \/
  (exists (c : ascii) (t : string),
      rest = String c t /\ cont_byte (byte_val c) = false /\
      (IndexRune valid (fst (DecodeRuneInString rest)) >=? 0) = false) ->
  (String.length body < fuel)%nat ->
  exists w' : Z,
    acceptRun fuel valid (mkLexer inp st p s w ts stk) =
    Ret (len body >? 0) (mkLexer inp st (p + len body) s w' ts stk).
Proof.
  intros Hp Hdrop Hall Hrest Hf.
  pose proof (len_nonneg body) as Hnb.
  assert (Hloop : exists w' : Z,
             acceptRun_loop fuel valid (mkLexer inp st p s w ts stk) =
             Ret tt (mkLexer inp st (p + len body + w') s w' ts stk)).
  { destruct Hrest as [-> | (c & t & -> & Hc & Hstop)].
    - rewrite app_empty_r in Hdrop. exists 0.
      rewrite acceptRun_loop_eq. eapply bind_eq; [|reflexivity].
      rewrite (identifier_loop_end (fun r => IndexRune valid r >=? 0));
        cbn [input state pos start tokens stack].
      + do 2 f_equal. pose proof (drop_length (Z.to_nat p) inp) as H.
        rewrite Hdrop in H. unfold len in *. lia.
      + rewrite IndexRune_eof. reflexivity.
      + exact Hp.
      + rewrite Hdrop. exact Hall.
      + rewrite Hdrop. exact Hf.
    - exists (snd (DecodeRuneInString (String c t))).
      rewrite acceptRun_loop_eq. eapply bind_eq; [|reflexivity].
      apply (identifier_loop_stop_at (fun r => IndexRune valid r >=? 0) fuel
               (mkLexer inp st p s w ts stk) body c t);
        cbn [pos input]; try assumption. lia. }
  destruct Hloop as (w' & Hloop). exists w'.
  unfold acceptRun.
  eapply bind_eq; [reflexivity|]. proj.
  eapply bind_eq; [exact Hloop|].
  eapply bind_eq; [reflexivity|]. proj.
  eapply bind_eq; [reflexivity|]. proj.
  unfold ret.
  replace (p + len body + w' - w') with (p + len body) by lia.
  replace (p + len body >? p) with (len body >? 0); [reflexivity|].
  destruct (Z.gtb_spec (p + len body) p), (Z.gtb_spec (len body) 0);
    reflexivity || lia.
Qed.

Lemma acceptRun_consumes_run_witness :
  0 <= 0 <= len "123." /\
  drop (Z.to_nat 0) "123." = ("123" ++ ".")%string /\
  forallb (fun r => IndexRune decDigits r >=? 0) (runes "123") = true /\
  ("." = EmptyString \/
   (exists (c : ascii) (t : string),
       "." = String c t /\ cont_byte (byte_val c) = false /\
       (IndexRune decDigits (fst (DecodeRuneInString ".")) >=? 0) = false)) /\
  (String.length "123" < 10)%nat /\
  exists w' : Z,
    acceptRun 10 decDigits (mkLexer "123." None 0 0 0 [] []) =
    Ret (len "123" >? 0) (mkLexer "123." None (0 + len "123") 0 w' [] []).
Proof.
  assert (H1 : 0 <= 0 <= len "123.") by (unfold len; simpl; lia).
  assert (H2 : drop (Z.to_nat 0) "123." = ("123" ++ ".")%string)
    by reflexivity.
  assert (H3 : forallb (fun r => IndexRune decDigits r >=? 0) (runes "123")
               = true) by reflexivity.
  assert (H4 : "." = EmptyString \/
               (exists (c : ascii) (t : string),
                   "." = String c t /\ cont_byte (byte_val c) = false /\
                   (IndexRune decDigits (fst (DecodeRuneInString ".")) >=? 0)
                   = false))
    by (right; exists "."%char, ""; repeat split; reflexivity).
  assert (H5 : (String.length "123" < 10)%nat) by (unfold len; simpl; lia).
  exact (conj H1 (conj H2 (conj H3 (conj H4 (conj H5
           (acceptRun_consumes_run 10 decDigits "123." None 0 0 0 [] []
                                   "123" "." H1 H2 H3 H4 H5)))))).
Defined.

(** ** Words *)

Lemma chr_byte_val (c : ascii) : chr (byte_val c) = c.
Proof.
  unfold chr, byte_val. rewrite N2Z.id. apply ascii_N_embedding.
Qed.

Lemma string_of_rune_byte (c : ascii) :
  byte_val c < 128 -> string_of_rune (byte_val c) = String c "".
Proof.
  intros H. pose proof (byte_val_range c) as Hr. unfold string_of_rune.
  replace ((0 <=? byte_val c) && (byte_val c <? 128)) with true.
  - rewrite chr_byte_val. reflexivity.
  - symmetry. apply andb_true_iff. split; [apply Z.leb_le | apply Z.ltb_lt]; lia.
Qed.

Lemma peekWord_str_word (U : Tables) (rest : string) :
  word_end U rest ->
  forall (m acc : string),
    word_bytes U m = true ->
    peekWord_str U (m ++ rest) acc = (acc ++ m)%string.
Proof.
  intros Hend. induction m as [|c m IH]; intros acc Hm.
  - cbn [append]. rewrite app_empty_r.
    destruct rest as [|c t]; [reflexivity|].
    destruct Hend as [Hend|Hend]; [discriminate|].
    cbn [peekWord_str]. cbv zeta in Hend.
    destruct (DecodeRuneInString (String c t)) as [r w]. cbn [fst] in Hend.
    rewrite Hend. reflexivity.
  - cbn [word_bytes] in Hm. apply andb_true_iff in Hm. destruct Hm as [Hc Hm].
    unfold word_byte in Hc. rewrite !andb_true_iff in Hc.
    destruct Hc as [[Ha Hs] Hw]. apply Z.ltb_lt in Ha.
    apply negb_true_iff in Hs.
    cbn [append peekWord_str].
    rewrite DecodeRuneInString_ascii by exact Ha.
    rewrite Hs, Hw. cbn [negb orb].
    rewrite IH by exact Hm. rewrite string_of_rune_byte by exact Ha.
    rewrite app_assoc_string. reflexivity.
Qed.

Lemma word_bytes_ascii (U : Tables) (m : string) :
  word_bytes U m = true -> is_ascii m = true.
Proof.
  induction m as [|c m IH]; intros H; [reflexivity|].
  cbn [word_bytes is_ascii] in *. apply andb_true_iff in H.
  destruct H as [Hc Hm]. unfold word_byte in Hc.
  rewrite !andb_true_iff in Hc. destruct Hc as [[Ha _] _].
  rewrite Ha. apply IH. exact Hm.
Qed.

Lemma skipX_ascii (inp : string) (st : option StateFn) (s : Z)
      (ts : list Token) (stk : list NamedStateFn) (rest : string) :
  forall (m : string) (p w : Z),
    is_ascii m = true ->
    0 <= p ->
    drop (Z.to_nat p) inp = (m ++ rest)%string ->
    skipX (String.length m) (mkLexer inp st p s w ts stk) =
    Ret tt (mkLexer inp st (p + len m) s (width_after m w) ts stk).
Proof.
  induction m as [|c m IH]; intros p w Ha Hp Hdrop.
  - cbn [String.length skipX width_after]. change (len "") with 0.
    rewrite Z.add_0_r. reflexivity.
  - cbn [is_ascii] in Ha. apply andb_true_iff in Ha. destruct Ha as [Hc Ha].
    apply Z.ltb_lt in Hc. cbn [append] in Hdrop.
    cbn [String.length skipX]. unfold bind.
    rewrite (next_ascii_at inp st p s w ts stk c (m ++ rest) Hp Hdrop Hc).
    rewrite (IH (p + 1) 1 Ha) by
        (try lia;
         replace (Z.to_nat (p + 1)) with (S (Z.to_nat p)) by lia;
         eapply drop_succ; exact Hdrop).
    cbn [width_after]. rewrite len_String.
    replace (p + 1 + len m) with (p + (len m + 1)) by lia.
    destruct m; reflexivity.
Qed.

Lemma upper_byte_cases (x u : ascii) :
  upper_byte x = u -> x = u \/ x = chr (byte_val u + 32).
Proof.
  unfold upper_byte.
  destruct ((97 <=? byte_val x) && (byte_val x <=? 122)) eqn:E; [|auto].
  intros H. right. apply andb_true_iff in E. destruct E as [E1 E2].
  apply Z.leb_le in E1. apply Z.leb_le in E2.
  rewrite <- H. rewrite byte_val_chr by lia.
  replace (byte_val x - 32 + 32) with (byte_val x) by lia.
  symmetry. apply chr_byte_val.
Qed.

Lemma lower_byte_cases (x u : ascii) :
  lower_byte x = u -> x = u \/ x = chr (byte_val u - 32).
Proof.
  unfold lower_byte.
  destruct ((65 <=? byte_val x) && (byte_val x <=? 90)) eqn:E; [|auto].
  intros H. right. apply andb_true_iff in E. destruct E as [E1 E2].
  apply Z.leb_le in E1. apply Z.leb_le in E2.
  rewrite <- H. rewrite byte_val_chr by lia.
  replace (byte_val x + 32 - 32) with (byte_val x) by lia.
  symmetry. apply chr_byte_val.
Qed.

(** ** AND and OR between the conditions of WHERE *)

(** The spellings of a word of two or three letters, given in capitals. *)
Ltac spellings H :=
  lazymatch type of H with
  | map_bytes _ ?m = EmptyString =>
    destruct m; [clear H | discriminate H]
  | map_bytes _ ?m = String _ _ =>
    let c := fresh "c" in
    let m' := fresh "m" in
    let Hc := fresh "Hc" in
    destruct m as [|c m']; [discriminate H|];
    cbn [map_bytes] in H; injection H as Hc H;
    first [apply upper_byte_cases in Hc | apply lower_byte_cases in Hc];
    vm_compute in Hc; destruct Hc as [-> | ->];
    spellings H
  end.

(** The steps shared by AND and OR, up to the word that was peeked. *)
Lemma lexSqlWhereCommaOrLogicOrNext_word
      (U : Tables) (fuel : nat) (inp : string) (st : option StateFn)
      (p s w : Z) (ts : list Token) (stk : list NamedStateFn)
      (ws : string) (c : ascii) (m rest : string) :
  0 <= p ->
  drop (Z.to_nat p) inp = (ws ++ String c m ++ rest)%string ->
  forallb IsSpace (runes ws) = true ->
  word_bytes U (String c m) = true ->
  IsLetter U (byte_val c) = true ->
  word_end U rest ->
  (String.length ws < fuel)%nat ->
  lexSqlWhereCommaOrLogicOrNext U fuel (mkLexer inp st p s w ts stk) =
  (let word := ToUpperString U (String c m) in
   if (word =? "")%string then ret (Some Fn_lexGroupBy)
   else if (word =? "OR")%string then
     skipX 2 ;; emit TokenLogicOr ;; ret (Some Fn_lexSqlWhereColumn)
   else if (word =? "AND")%string then
     skipX 3 ;; backup ;; emit TokenLogicAnd ;;
     ret (Some Fn_lexSqlWhereColumn)
   else backup ;; ret (Some Fn_lexGroupBy))
    (mkLexer inp st (p + len ws) (p + len ws) 1 ts stk).
Proof.
  intros Hp Hdrop Hws Hm Hletter Hend Hf.
  pose proof (len_nonneg ws) as Hnw.
  pose proof (len_nonneg (String c m)) as Hnm.
  pose proof (len_nonneg rest) as Hnr.
  pose proof Hm as Hm'. cbn [word_bytes] in Hm'.
  apply andb_true_iff in Hm'. destruct Hm' as [Hcw _].
  unfold word_byte in Hcw. rewrite !andb_true_iff in Hcw.
  destruct Hcw as [[Hc Hsp] _]. apply Z.ltb_lt in Hc.
  apply negb_true_iff in Hsp.
  assert (Hdrop1 : drop (Z.to_nat (p + len ws)) inp
                   = (String c m ++ rest)%string).
  { apply (drop_plus p (String.length ws) inp ws _ Hp Hdrop eq_refl). }
  assert (Hlen : len inp = p + len ws + len (String c m) + len rest).
  { pose proof (drop_eq_len _ _ _ Hdrop1 ltac:(discriminate)) as H.
    rewrite length_app_string in H. unfold len in *. lia. }
  unfold lexSqlWhereCommaOrLogicOrNext.
  eapply bind_eq.
  { apply (skipWhiteSpaces_at fuel inp st p s w ts stk ws c (m ++ rest));
      [exact Hp | exact Hdrop | apply cont_byte_ascii; exact Hc
       | rewrite DecodeRuneInString_ascii by exact Hc; exact Hsp
       | exact Hws | exact Hf]. }
  rewrite DecodeRuneInString_ascii by exact Hc. cbn [snd].
  eapply bind_eq.
  { apply (next_ascii_at _ _ _ _ _ _ _ c (m ++ rest));
      [lia | exact Hdrop1 | exact Hc]. }
  assert (Hnot : (byte_val c =? ch "(") = false /\
                 (byte_val c =? ch ")") = false /\
                 (byte_val c =? ch ",") = false).
  { pose proof (IsLetter_cases U _ Hletter) as Hcases.
    change (ch "(") with 40. change (ch ")") with 41. change (ch ",") with 44.
    rewrite !Z.eqb_neq. lia. }
  destruct Hnot as (H1 & H2 & H3). rewrite H1, H2, H3. cbv iota.
  eapply bind_eq; [reflexivity|]. proj.
  replace (p + len ws + 1 - 1) with (p + len ws) by lia.
  unfold lexSqlWhereLogic.
  eapply bind_eq.
  { rewrite peekWord_view by (cbn [pos input]; lia). cbn [pos input].
    rewrite Hdrop1, (peekWord_str_word U rest Hend _ "" Hm). reflexivity. }
  reflexivity.
Qed.

(** X22.  AND between two conditions of WHERE: three bytes are read and
    one is given back before the token is cut, so the token [TokenLogicAnd]
    holds the first two letters only and the third is still to be read. *)
Theorem where_and_keeps_two_letters
        (U : Tables) (fuel : nat) (inp : string) (st : option StateFn)
        (p s w : Z) (stk : list NamedStateFn) (ws m rest : string) :
  0 <= p ->
  drop (Z.to_nat p) inp = (ws ++ m ++ rest)%string ->
  forallb IsSpace (runes ws) = true ->
  map_bytes upper_byte m = "AND" ->
  word_end U rest ->
  (String.length ws < fuel)%nat ->
  lexSqlWhereCommaOrLogicOrNext U fuel (mkLexer inp st p s w [] stk) =
  Ret (Some Fn_lexSqlWhereColumn)
      (mkLexer inp st (p + len ws + 2) (p + len ws + 2) 1
               [mkToken TokenLogicAnd (take 2 m)] stk).
Proof.
  intros Hp Hdrop Hws Hm Hend Hf.
  pose proof (len_nonneg ws) as Hnw. pose proof (len_nonneg rest) as Hnr.
  assert (Hdrop1 : drop (Z.to_nat (p + len ws)) inp = (m ++ rest)%string).
  { apply (drop_plus p (String.length ws) inp ws _ Hp Hdrop eq_refl). }
  spellings Hm;
    (assert (Hlen : len inp = p + len ws + 3 + len rest)
      by (pose proof (drop_eq_len _ _ _ Hdrop1 ltac:(discriminate)) as H;
          cbn [append String.length] in H; unfold len in *; lia));
    rewrite (lexSqlWhereCommaOrLogicOrNext_word U fuel inp st p s w [] stk
               ws _ _ rest Hp Hdrop Hws eq_refl eq_refl Hend Hf);
    cbv zeta;
    match goal with
    | |- context [ToUpperString U ?x] => change (ToUpperString U x) with "AND"
    end;
    cbv beta iota;
    change ("AND" =? "")%string with false;
    change ("AND" =? "OR")%string with false;
    change ("AND" =? "AND")%string with true;
    cbv iota;
    (eapply bind_eq;
     [match goal with
      | Hd : drop _ inp = (?x ++ rest)%string |- _ =>
        apply (skipX_ascii inp st (p + len ws) [] stk rest x
                           (p + len ws) 1 eq_refl ltac:(lia) Hd)
      end|]);
    cbn [width_after]; change (len (String _ _)) with 3;
    (eapply bind_eq; [reflexivity|]); proj;
    (eapply bind_eq; [apply emit_ok; lia|]);
    unfold ret;
    replace (p + len ws + 3 - 1) with (p + len ws + 2) by lia;
    replace (p + len ws + 2 - (p + len ws)) with 2 by lia;
    rewrite Hdrop1; reflexivity.
Qed.

Lemma where_and_keeps_two_letters_witness :
  0 <= 0 /\
  drop (Z.to_nat 0) " and b" = (" " ++ "and" ++ " b")%string /\
  forallb IsSpace (runes " ") = true /\
  map_bytes upper_byte "and" = "AND" /\
  word_end ascii_tables " b" /\
  (String.length " " < 5)%nat /\
  lexSqlWhereCommaOrLogicOrNext ascii_tables 5
    (mkLexer " and b" None 0 0 0 [] []) =
  Ret (Some Fn_lexSqlWhereColumn)
      (mkLexer " and b" None (0 + len " " + 2) (0 + len " " + 2) 1
               [mkToken TokenLogicAnd (take 2 "and")] []).
Proof.
  assert (H1 : 0 <= 0) by lia.
  assert (H2 : drop (Z.to_nat 0) " and b" = (" " ++ "and" ++ " b")%string)
    by reflexivity.
  assert (H3 : forallb IsSpace (runes " ") = true) by reflexivity.
  assert (H4 : map_bytes upper_byte "and" = "AND") by reflexivity.
  assert (H5 : word_end ascii_tables " b") by (right; reflexivity).
  assert (H6 : (String.length " " < 5)%nat) by (unfold len; simpl; lia).
  exact (conj H1 (conj H2 (conj H3 (conj H4 (conj H5 (conj H6
           (where_and_keeps_two_letters ascii_tables 5 " and b" None 0 0 0 []
              " " "and" " b" H1 H2 H3 H4 H5 H6))))))).
Defined.

(** X23.  OR between two conditions of WHERE: the token [TokenLogicOr]
    holds the word as it was written, and a column is expected next. *)
Theorem where_or_token
        (U : Tables) (fuel : nat) (inp : string) (st : option StateFn)
        (p s w : Z) (stk : list NamedStateFn) (ws m rest : string) :
  0 <= p ->
  drop (Z.to_nat p) inp = (ws ++ m ++ rest)%string ->
  forallb IsSpace (runes ws) = true ->
  map_bytes upper_byte m = "OR" ->
  word_end U rest ->
  (String.length ws < fuel)%nat ->
  lexSqlWhereCommaOrLogicOrNext U fuel (mkLexer inp st p s w [] stk) =
  Ret (Some Fn_lexSqlWhereColumn)
      (mkLexer inp st (p + len ws + 2) (p + len ws + 2) 1
               [mkToken TokenLogicOr m] stk).
Proof.
  intros Hp Hdrop Hws Hm Hend Hf.
  pose proof (len_nonneg ws) as Hnw. pose proof (len_nonneg rest) as Hnr.
  assert (Hdrop1 : drop (Z.to_nat (p + len ws)) inp = (m ++ rest)%string).
  { apply (drop_plus p (String.length ws) inp ws _ Hp Hdrop eq_refl). }
  spellings Hm;
    (assert (Hlen : len inp = p + len ws + 2 + len rest)
      by (pose proof (drop_eq_len _ _ _ Hdrop1 ltac:(discriminate)) as H;
          cbn [append String.length] in H; unfold len in *; lia));
    rewrite (lexSqlWhereCommaOrLogicOrNext_word U fuel inp st p s w [] stk
               ws _ _ rest Hp Hdrop Hws eq_refl eq_refl Hend Hf);
    cbv zeta;
    match goal with
    | |- context [ToUpperString U ?x] => change (ToUpperString U x) with "OR"
    end;
    cbv beta iota;
    change ("OR" =? "")%string with false;
    change ("OR" =? "OR")%string with true;
    cbv iota;
    (eapply bind_eq;
     [match goal with
      | Hd : drop _ inp = (?x ++ rest)%string |- _ =>
        apply (skipX_ascii inp st (p + len ws) [] stk rest x
                           (p + len ws) 1 eq_refl ltac:(lia) Hd)
      end|]);
    cbn [width_after]; change (len (String _ _)) with 2;
    (eapply bind_eq; [apply emit_ok; lia|]);
    unfold ret;
    replace (p + len ws + 2 - (p + len ws)) with 2 by lia;
    rewrite Hdrop1; reflexivity.
Qed.

Lemma where_or_token_witness :
  0 <= 0 /\
  drop (Z.to_nat 0) " Or b" = (" " ++ "Or" ++ " b")%string /\
  forallb IsSpace (runes " ") = true /\
  map_bytes upper_byte "Or" = "OR" /\
  word_end ascii_tables " b" /\
  (String.length " " < 5)%nat /\
  lexSqlWhereCommaOrLogicOrNext ascii_tables 5
    (mkLexer " Or b" None 0 0 0 [] []) =
  Ret (Some Fn_lexSqlWhereColumn)
      (mkLexer " Or b" None (0 + len " " + 2) (0 + len " " + 2) 1
               [mkToken TokenLogicOr "Or"] []).
Proof.
  assert (H1 : 0 <= 0) by lia.
  assert (H2 : drop (Z.to_nat 0) " Or b" = (" " ++ "Or" ++ " b")%string)
    by reflexivity.
  assert (H3 : forallb IsSpace (runes " ") = true) by reflexivity.
  assert (H4 : map_bytes upper_byte "Or" = "OR") by reflexivity.
  assert (H5 : word_end ascii_tables " b") by (right; reflexivity).
  assert (H6 : (String.length " " < 5)%nat) by (unfold len; simpl; lia).
  exact (conj H1 (conj H2 (conj H3 (conj H4 (conj H5 (conj H6
           (where_or_token ascii_tables 5 " Or b" None 0 0 0 []
              " " "Or" " b" H1 H2 H3 H4 H5 H6))))))).
Defined.

(** ** Column lists *)

(** X24.  In a column list the letters [a] and [s], in any case,
    followed by one blank are the alias keyword: [TokenAs] with the text as
    written, then a value is expected.  The blank is not consumed. *)
Theorem column_alias_keyword
        (U : Tables) (fuel : nat) (inp : string) (st : option StateFn)
        (p s w : Z) (stk : list NamedStateFn) (ws m rest : string) :
  0 <= p ->
  drop (Z.to_nat p) inp = (ws ++ m ++ String " " rest)%string ->
  forallb IsSpace (runes ws) = true ->
  map_bytes lower_byte m = "as" ->
  (String.length ws < fuel)%nat ->
  lexColumnOrComma U fuel (mkLexer inp st p s w [] stk) =
  Ret (Some Fn_lexValue)
      (mkLexer inp st (p + len ws + 2) (p + len ws + 2) 1
               [mkToken TokenAs m] stk).
Proof.
  intros Hp Hdrop Hws Hm Hf.
  pose proof (len_nonneg ws) as Hnw. pose proof (len_nonneg rest) as Hnr.
  assert (Hdrop1 : drop (Z.to_nat (p + len ws)) inp
                   = (m ++ String " " rest)%string).
  { apply (drop_plus p (String.length ws) inp ws _ Hp Hdrop eq_refl). }
  spellings Hm;
    (assert (Hlen : len inp = p + len ws + 3 + len rest)
      by (pose proof (drop_eq_len _ _ _ Hdrop1 ltac:(discriminate)) as H;
          cbn [append String.length] in H; unfold len in *; lia));
    cbn [append] in Hdrop, Hdrop1;
    unfold lexColumnOrComma;
    (eapply bind_eq;
     [match type of Hdrop with
      | _ = (ws ++ String ?c ?t)%string =>
        apply (skipWhiteSpaces_at fuel inp st p s w [] stk ws c t Hp Hdrop
                                  eq_refl eq_refl Hws Hf)
      end|]);
    cbn [DecodeRuneInString snd byte_val]; cbv beta iota;
    match goal with
    | |- context [snd ?d] =>
      let d' := eval vm_compute in d in change d with d'
    | _ => idtac
    end; cbn [snd];
    (eapply bind_eq;
     [eapply next_ascii_at; [|exact Hdrop1|vm_compute; reflexivity]; lia|]);
    match goal with
    | |- context [ToLower U ?r =? ?a] =>
      change (ToLower U r =? a) with true
    end; cbv iota;
    (eapply bind_eq;
     [rewrite peekX_view by (cbn [pos input]; lia); cbn [pos input];
      replace (Z.to_nat (p + len ws + 1)) with (S (Z.to_nat (p + len ws)))
        by lia;
      erewrite drop_succ by exact Hdrop1; reflexivity|]);
    cbn [Z.to_nat Pos.to_nat Pos.iter_op Nat.add take];
    match goal with
    | |- context [(ToLowerString U ?x =? ?y)%string] =>
      change (ToLowerString U x =? y)%string with true
    end; cbv iota;
    (eapply bind_eq;
     [eapply next_ascii_at;
      [|replace (Z.to_nat (p + len ws + 1)) with (S (Z.to_nat (p + len ws)))
          by lia;
        eapply drop_succ; exact Hdrop1
       |vm_compute; reflexivity]; lia|]);
    (eapply bind_eq; [apply emit_ok; lia|]);
    unfold ret;
    replace (p + len ws + 1 + 1) with (p + len ws + 2) by lia;
    replace (p + len ws + 2 - (p + len ws)) with 2 by lia;
    rewrite Hdrop1; reflexivity.
Qed.

Lemma column_alias_keyword_witness :
  0 <= 0 /\
  drop (Z.to_nat 0) " AS total" = (" " ++ "AS" ++ String " " "total")%string /\
  forallb IsSpace (runes " ") = true /\
  map_bytes lower_byte "AS" = "as" /\
  (String.length " " < 5)%nat /\
  lexColumnOrComma ascii_tables 5 (mkLexer " AS total" None 0 0 0 [] []) =
  Ret (Some Fn_lexValue)
      (mkLexer " AS total" None (0 + len " " + 2) (0 + len " " + 2) 1
               [mkToken TokenAs "AS"] []).
Proof.
  assert (H1 : 0 <= 0) by lia.
  assert (H2 : drop (Z.to_nat 0) " AS total"
               = (" " ++ "AS" ++ String " " "total")%string) by reflexivity.
  assert (H3 : forallb IsSpace (runes " ") = true) by reflexivity.
  assert (H4 : map_bytes lower_byte "AS" = "as") by reflexivity.
  assert (H5 : (String.length " " < 5)%nat) by (unfold len; simpl; lia).
  exact (conj H1 (conj H2 (conj H3 (conj H4 (conj H5
           (column_alias_keyword ascii_tables 5 " AS total" None 0 0 0 []
              " " "AS" "total" H1 H2 H3 H4 H5)))))).
Defined.

(** X25.  In front of a column or an expression [lexColumnOrComma]
    consumes nothing, asks for [lexExpressionOrIdentity], and pushes itself as
    the continuation unless ten continuations are waiting already. *)
Theorem lexColumnOrComma_pushes_below_ten
        (U : Tables) (fuel : nat) (inp : string) (st : option StateFn)
        (p s w : Z) (ts : list Token) (stk : list NamedStateFn)
        (ws : string) (c : ascii) (tail : string) :
  0 <= p ->
  drop (Z.to_nat p) inp = (ws ++ String c tail)%string ->
  forallb IsSpace (runes ws) = true ->
  byte_val c < 128 ->
  IsSpace (byte_val c) = false ->
  existsb (Z.eqb (byte_val c)) [ch "("; ch ")"; ch ","; ch "*"] = false ->
  (ToLower U (byte_val c) =? ch "a")
  && (ToLowerString U (take 2 tail) =? "s ")%string = false ->
  (ToUpperString U (peekWord_str U (String c tail) "") =? "FROM")%string
  = false ->
  (String.length ws < fuel)%nat ->
  lexColumnOrComma U fuel (mkLexer inp st p s w ts stk) =
  Ret (Some Fn_lexExpressionOrIdentity)
      (mkLexer inp st (p + len ws) (p + len ws) 1 ts (pushed_below_ten stk)).
Proof.
  intros Hp Hdrop Hws Hc Hsp Hpunct Hnoas Hkw Hf.
  pose proof (len_nonneg ws) as Hnw. pose proof (len_nonneg tail) as Hnt.
  assert (Hdrop1 : drop (Z.to_nat (p + len ws)) inp = String c tail).
  { apply (drop_plus p (String.length ws) inp ws _ Hp Hdrop eq_refl). }
  assert (Hlen : len inp = p + len ws + 1 + len tail).
  { pose proof (drop_eq_len _ _ _ Hdrop1 ltac:(discriminate)) as H.
    cbn [String.length] in H. unfold len in *. lia. }
  cbn [existsb] in Hpunct. rewrite !orb_false_iff in Hpunct.
  destruct Hpunct as (H1 & H2 & H3 & H4 & _).
  assert (Hswitch :
            lexColumnOrComma_switch U (byte_val c)
              (mkLexer inp st (p + len ws + 1) (p + len ws) 1 ts stk) =
            Ret (Some Fn_lexExpressionOrIdentity)
                (mkLexer inp st (p + len ws) (p + len ws) 1 ts
                         (pushed_below_ten stk))).
  { unfold lexColumnOrComma_switch. rewrite H1, H2, H3, H4.
    eapply bind_eq; [reflexivity|]. proj.
    replace (p + len ws + 1 - 1) with (p + len ws) by lia.
    eapply bind_eq.
    { unfold isNextKeyword. eapply bind_eq.
      - rewrite peekWord_view by (cbn [pos input]; lia). cbn [pos input].
        rewrite Hdrop1. reflexivity.
      - rewrite Hkw. reflexivity. }
    cbv iota.
    eapply bind_eq; [reflexivity|]. proj.
    unfold pushed_below_ten.
    destruct (List.length stk <? 10)%nat; reflexivity. }
  unfold lexColumnOrComma.
  eapply bind_eq.
  { apply (skipWhiteSpaces_at fuel inp st p s w ts stk ws c tail);
      [exact Hp | exact Hdrop | apply cont_byte_ascii; exact Hc
       | rewrite DecodeRuneInString_ascii by exact Hc; exact Hsp
       | exact Hws | exact Hf]. }
  rewrite DecodeRuneInString_ascii by exact Hc. cbn [snd].
  eapply bind_eq.
  { apply (next_ascii_at _ _ _ _ _ _ _ c tail);
      [lia | exact Hdrop1 | exact Hc]. }
  destruct (ToLower U (byte_val c) =? ch "a"); [|exact Hswitch].
  cbn [andb] in Hnoas.
  eapply bind_eq.
  { rewrite peekX_view by (cbn [pos input]; lia). cbn [pos input].
    replace (Z.to_nat (p + len ws + 1)) with (S (Z.to_nat (p + len ws)))
      by lia.
    erewrite drop_succ by exact Hdrop1. reflexivity. }
  change (Z.to_nat 2) with 2%nat. rewrite Hnoas. exact Hswitch.
Qed.

Lemma lexColumnOrComma_pushes_below_ten_witness :
  0 <= 0 /\
  drop (Z.to_nat 0) " name from t" = (" " ++ String "n" "ame from t")%string /\
  forallb IsSpace (runes " ") = true /\
  byte_val "n" < 128 /\
  IsSpace (byte_val "n") = false /\
  existsb (Z.eqb (byte_val "n")) [ch "("; ch ")"; ch ","; ch "*"] = false /\
  (ToLower ascii_tables (byte_val "n") =? ch "a")
  && (ToLowerString ascii_tables (take 2 "ame from t") =? "s ")%string
  = false /\
  (ToUpperString ascii_tables
     (peekWord_str ascii_tables (String "n" "ame from t") "") =? "FROM")%string
  = false /\
  (String.length " " < 5)%nat /\
  lexColumnOrComma ascii_tables 5 (mkLexer " name from t" None 0 0 0 [] []) =
  Ret (Some Fn_lexExpressionOrIdentity)
      (mkLexer " name from t" None (0 + len " ") (0 + len " ") 1 []
               (pushed_below_ten [])).
Proof.
  assert (H1 : 0 <= 0) by lia.
  assert (H2 : drop (Z.to_nat 0) " name from t"
               = (" " ++ String "n" "ame from t")%string) by reflexivity.
  assert (H3 : forallb IsSpace (runes " ") = true) by reflexivity.
  assert (H4 : byte_val "n" < 128) by reflexivity.
  assert (H5 : IsSpace (byte_val "n") = false) by reflexivity.
  assert (H6 : existsb (Z.eqb (byte_val "n"))
                       [ch "("; ch ")"; ch ","; ch "*"] = false)
    by reflexivity.
  assert (H7 : (ToLower ascii_tables (byte_val "n") =? ch "a")
               && (ToLowerString ascii_tables (take 2 "ame from t")
                   =? "s ")%string = false) by reflexivity.
  assert (H8 : (ToUpperString ascii_tables
                  (peekWord_str ascii_tables (String "n" "ame from t") "")
                =? "FROM")%string = false) by reflexivity.
  assert (H9 : (String.length " " < 5)%nat) by (unfold len; simpl; lia).
  exact (conj H1 (conj H2 (conj H3 (conj H4 (conj H5 (conj H6 (conj H7
           (conj H8 (conj H9
              (lexColumnOrComma_pushes_below_ten ascii_tables 5
                 " name from t" None 0 0 0 [] [] " " "n" "ame from t"
                 H1 H2 H3 H4 H5 H6 H7 H8 H9)))))))))).
Defined.

(** ** Identifiers *)

(** X26.  A bare identifier behind white space: a letter, then letters,
    digits, underscores and periods up to an ASCII byte that is none of
    these.  [lexIdentifier] queues one token of the kind it was given with
    the identifier as text and returns the state it was given. *)
Theorem lexIdentifier_bare_word
        (U : Tables) (fuel : nat) (typ : TokenType) (nextFn : option StateFn)
        (inp : string) (st : option StateFn) (p s w : Z)
        (stk : list NamedStateFn)
        (ws : string) (c0 : ascii) (ident : string) (c : ascii)
        (tail : string) :
  0 <= p ->
  drop (Z.to_nat p) inp = (ws ++ String c0 ident ++ String c tail)%string ->
  forallb IsSpace (runes ws) = true ->
  cont_byte (byte_val c0) = false ->
  bare_identifier U (String c0 ident) = true ->
  byte_val c < 128 ->
  isIdentifierRune U (byte_val c) = false ->
  (String.length ws + String.length ident + 2 <= fuel)%nat ->
  lexIdentifier U fuel typ nextFn (mkLexer inp st p s w [] stk) =
  Ret nextFn
      (mkLexer inp st (p + len ws + len (String c0 ident))
               (p + len ws + len (String c0 ident)) 1
               [mkToken typ (String c0 ident)] stk).
Proof.
  intros Hp Hdrop Hws Hc0 Hbare Hc Hstop Hf.
  set (id := String c0 ident) in *.
  assert (Hne : id <> EmptyString) by discriminate.
  pose proof (len_nonneg ws) as Hnw. pose proof (len_nonneg id) as Hni.
  pose proof (len_nonneg tail) as Hnt.
  assert (Hdrop1 : drop (Z.to_nat (p + len ws)) inp
                   = (id ++ String c tail)%string).
  { apply (drop_plus p (String.length ws) inp ws _ Hp Hdrop eq_refl). }
  assert (Hlen : len inp = p + len ws + len id + 1 + len tail).
  { pose proof (drop_eq_len _ _ _ Hdrop1 (app_nonempty id c tail)) as H.
    rewrite length_app_string in H. cbn [String.length] in H.
    unfold len in *. lia. }
  assert (Hdec : DecodeRuneInString (id ++ String c tail)
                 = DecodeRuneInString id)
    by (apply DecodeRuneInString_app_ascii; assumption).
  unfold bare_identifier in Hbare. rewrite runes_step in Hbare by exact Hne.
  pose proof (DecodeRuneInString_width id Hne) as Hw.
  destruct (DecodeRuneInString id) as [r1 w1] eqn:Hd1.
  cbn [fst snd] in *.
  apply andb_true_iff in Hbare. destruct Hbare as [Hletter Hrest].
  assert (Hnext : forall s' w',
             next (mkLexer inp st (p + len ws) s' w' [] stk) =
             Ret r1 (mkLexer inp st (p + len ws + w1) s' w1 [] stk)).
  { intros s' w'.
    rewrite (next_rest inp st (p + len ws) s' w' [] stk
                       (id ++ String c tail));
      [rewrite Hdec; reflexivity | lia | exact Hdrop1 | apply app_nonempty]. }
  unfold lexIdentifier.
  eapply bind_eq.
  { apply (skipWhiteSpaces_at fuel inp st p s w [] stk ws c0
                              (ident ++ String c tail));
      [exact Hp | exact Hdrop | exact Hc0 | | exact Hws | lia].
    change (String c0 (ident ++ String c tail))
      with (id ++ String c tail)%string.
    rewrite Hdec. cbn [fst]. apply (IsLetter_not_space U). exact Hletter. }
  change (String c0 (ident ++ String c tail))
    with (id ++ String c tail)%string.
  rewrite Hdec. cbn [snd].
  eapply bind_eq; [apply Hnext|].
  rewrite (IsLetter_not_delim U r1 Hletter). rewrite Hletter. cbv iota.
  cbn [negb]. cbv iota.
  eapply bind_eq.
  { apply (identifier_loop_stop (isIdentifierRune U) fuel
             (mkLexer inp st (p + len ws + w1) (p + len ws) w1 [] stk)
             (drop (Z.to_nat w1) id) c tail); cbn [pos input].
    - lia.
    - replace (Z.to_nat (p + len ws + w1))
        with (Z.to_nat (p + len ws) + Z.to_nat w1)%nat by lia.
      rewrite <- drop_drop, Hdrop1. apply drop_app_le. unfold len in Hw. lia.
    - exact Hc.
    - exact Hstop.
    - exact Hrest.
    - rewrite drop_length. unfold id. cbn [String.length]. lia. }
  cbn [input state pos start tokens stack].
  assert (Hpos : p + len ws + w1 + len (drop (Z.to_nat w1) id) + 1 - 1
                 = p + len ws + len id).
  { unfold len in *. rewrite drop_length. lia. }
  eapply bind_eq; [reflexivity|]. proj. rewrite Hpos.
  eapply bind_eq; [apply emit_ok; lia|].
  unfold ret. do 3 f_equal.
  replace (Z.to_nat (p + len ws + len id - (p + len ws)))
    with (String.length id) by (unfold len; lia).
  rewrite Hdrop1, take_app_length. reflexivity.
Qed.

Lemma lexIdentifier_bare_word_witness :
  0 <= 0 /\
  drop (Z.to_nat 0) " users " =
    (" " ++ String "u" "sers" ++ String " " "")%string /\
  forallb IsSpace (runes " ") = true /\
  cont_byte (byte_val "u") = false /\
  bare_identifier ascii_tables (String "u" "sers") = true /\
  byte_val " " < 128 /\
  isIdentifierRune ascii_tables (byte_val " ") = false /\
  (String.length " " + String.length "sers" + 2 <= 10)%nat /\
  lexIdentifier ascii_tables 10 TokenTable (Some Fn_lexSqlWhere)
                (mkLexer " users " None 0 0 0 [] []) =
  Ret (Some Fn_lexSqlWhere)
      (mkLexer " users " None (0 + len " " + len (String "u" "sers"))
               (0 + len " " + len (String "u" "sers")) 1
               [mkToken TokenTable (String "u" "sers")] []).
Proof.
  assert (H1 : 0 <= 0) by lia.
  assert (H2 : drop (Z.to_nat 0) " users " =
               (" " ++ String "u" "sers" ++ String " " "")%string)
    by reflexivity.
  assert (H3 : forallb IsSpace (runes " ") = true) by reflexivity.
  assert (H4 : cont_byte (byte_val "u") = false) by reflexivity.
  assert (H5 : bare_identifier ascii_tables (String "u" "sers") = true)
    by reflexivity.
  assert (H6 : byte_val " " < 128) by reflexivity.
  assert (H7 : isIdentifierRune ascii_tables (byte_val " ") = false)
    by reflexivity.
  assert (H8 : (String.length " " + String.length "sers" + 2 <= 10)%nat)
    by (unfold len; simpl; lia).
  exact (conj H1 (conj H2 (conj H3 (conj H4 (conj H5 (conj H6 (conj H7
           (conj H8
              (lexIdentifier_bare_word ascii_tables 10 TokenTable
                 (Some Fn_lexSqlWhere) " users " None 0 0 0 []
                 " " "u" "sers" " " "" H1 H2 H3 H4 H5 H6 H7 H8))))))))).
Defined.

(** ** Quoted identifiers *)

Lemma opens_ascii (op : ascii) :
  opens op = true ->
  byte_val op < 128 /\ IsSpace (byte_val op) = false /\
  (byte_val op =? ch "[") || (byte_val op =? squote) = true.
Proof.
  intros H. split; [|split; [|exact H]].
  - unfold opens in H. apply orb_true_iff in H. rewrite !Z.eqb_eq in H.
    change (ch "[") with 91 in H. change squote with 39 in H. lia.
  - unfold opens in H. apply orb_true_iff in H. rewrite !Z.eqb_eq in H.
    destruct H as [H|H]; rewrite H; reflexivity.
Qed.

Lemma lexeme_ok (inp : string) (st : option StateFn) (p s w : Z)
      (ts : list Token) (stk : list NamedStateFn) :
  0 <= s <= p -> p <= len inp ->
  lexeme (mkLexer inp st p s w ts stk) =
  Ret (take (Z.to_nat (p - s)) (drop (Z.to_nat s) inp))
      (mkLexer inp st p s w ts stk).
Proof.
  intros H1 H2. unfold lexeme. cbn [input start pos].
  rewrite slice_ok by lia. reflexivity.
Qed.

(** The steps of [lexIdentifier] on a quoted identifier, up to the byte
    behind the name. *)
Lemma lexIdentifier_quoted_name
      (U : Tables) (fuel : nat) (typ : TokenType) (nextFn : option StateFn)
      (inp : string) (st : option StateFn) (p s w : Z)
      (stk : list NamedStateFn)
      (ws : string) (op : ascii) (name : string) (cl : ascii)
      (tail : string) :
  0 <= p ->
  drop (Z.to_nat p) inp = (ws ++ String op (name ++ String cl tail))%string ->
  forallb IsSpace (runes ws) = true ->
  opens op = true ->
  lax_name U name = true ->
  byte_val cl < 128 ->
  isLaxIdentifierRune U (byte_val cl) = false ->
  (String.length ws + String.length name + 2 <= fuel)%nat ->
  lexIdentifier U fuel typ nextFn (mkLexer inp st p s w [] stk) =
  (if closes op cl
   then backup ;; _ <- lexeme ;; emit typ ;; _ <- next ;; ignore ;; ret nextFn
   else errorToken ("unexpected character in identifier:  "
                    ++ string_of_rune (byte_val cl)))
    (mkLexer inp st (p + len ws + len name + 2) (p + len ws + 1) 1 [] stk).
Proof.
  intros Hp Hdrop Hws Hop Hname Hcl Hstop Hf.
  destruct (opens_ascii op Hop) as (Hopa & Hopsp & Hopd).
  assert (Hne : name <> EmptyString).
  { intros ->. discriminate Hname. }
  pose proof (len_nonneg ws) as Hnw. pose proof (len_nonneg name) as Hnn.
  pose proof (len_nonneg tail) as Hnt.
  assert (Hdrop0 : drop (Z.to_nat (p + len ws)) inp
                   = String op (name ++ String cl tail)).
  { apply (drop_plus p (String.length ws) inp ws _ Hp Hdrop eq_refl). }
  assert (Hdrop1 : drop (Z.to_nat (p + len ws + 1)) inp
                   = (name ++ String cl tail)%string).
  { replace (Z.to_nat (p + len ws + 1)) with (S (Z.to_nat (p + len ws)))
      by lia.
    eapply drop_succ. exact Hdrop0. }
  assert (Hdec : DecodeRuneInString (name ++ String cl tail)
                 = DecodeRuneInString name)
    by (apply DecodeRuneInString_app_ascii; assumption).
  unfold lax_name in Hname. rewrite runes_step in Hname by exact Hne.
  pose proof (DecodeRuneInString_width name Hne) as Hw.
  destruct (DecodeRuneInString name) as [r1 w1] eqn:Hd1.
  cbn [fst snd] in *.
  apply andb_true_iff in Hname. destruct Hname as [Hletter Hrest].
  unfold lexIdentifier.
  eapply bind_eq.
  { apply (skipWhiteSpaces_at fuel inp st p s w [] stk ws op
                              (name ++ String cl tail));
      [exact Hp | exact Hdrop | apply cont_byte_ascii; exact Hopa
       | rewrite DecodeRuneInString_ascii by exact Hopa; exact Hopsp
       | exact Hws | lia]. }
  rewrite DecodeRuneInString_ascii by exact Hopa. cbn [snd].
  eapply bind_eq.
  { apply (next_ascii_at _ _ _ _ _ _ _ op (name ++ String cl tail));
      [lia | exact Hdrop0 | exact Hopa]. }
  rewrite Hopd. cbv iota.
  eapply bind_eq; [reflexivity|]. proj.
  eapply bind_eq.
  { rewrite (next_rest inp st (p + len ws + 1) (p + len ws + 1) 1 [] stk
                       (name ++ String cl tail));
      [rewrite Hdec; reflexivity | lia | exact Hdrop1 | apply app_nonempty]. }
  cbn [fst snd]. rewrite Hletter. cbn [negb]. cbv iota.
  eapply bind_eq.
  { apply (identifier_loop_stop (isLaxIdentifierRune U) fuel
             (mkLexer inp st (p + len ws + 1 + w1) (p + len ws + 1) w1 [] stk)
             (drop (Z.to_nat w1) name) cl tail); cbn [pos input].
    - lia.
    - replace (Z.to_nat (p + len ws + 1 + w1))
        with (Z.to_nat (p + len ws + 1) + Z.to_nat w1)%nat by lia.
      rewrite <- drop_drop, Hdrop1. apply drop_app_le. unfold len in Hw. lia.
    - exact Hcl.
    - exact Hstop.
    - exact Hrest.
    - rewrite drop_length. lia. }
  cbn [input state pos start tokens stack].
  replace (p + len ws + 1 + w1 + len (drop (Z.to_nat w1) name) + 1)
    with (p + len ws + len name + 2)
    by (unfold len in *; rewrite drop_length; lia).
  unfold closes, opens in *.
  destruct (byte_val op =? ch "["), (byte_val op =? squote),
    (byte_val cl =? ch "]"), (byte_val cl =? squote); reflexivity.
Qed.

(** C9.  [lexIdentifier] on a quoted identifier: an opening bracket or
    single quote, a name (a letter, then letters, digits, underscores,
    periods, slashes and blanks), and an ASCII byte that cannot go on the
    name.  If that byte closes the opening one (a bracket for a bracket, a
    quote for a quote) one token of the kind asked for is queued whose text is
    the name, both delimiters left out, and the state given is returned.  If
    it does not, as in [[first name'] or ['first name]], one error token is
    queued and no state is returned.  In both cases the cursor is behind that
    byte. *)
Theorem quoted_identifiers
        (U : Tables) (fuel : nat) (typ : TokenType) (nextFn : option StateFn)
        (inp : string) (st : option StateFn) (p s w : Z)
        (stk : list NamedStateFn)
        (ws : string) (op : ascii) (name : string) (cl : ascii)
        (tail : string) :
  0 <= p ->
  drop (Z.to_nat p) inp = (ws ++ String op (name ++ String cl tail))%string ->
  forallb IsSpace (runes ws) = true ->
  opens op = true ->
  lax_name U name = true ->
  byte_val cl < 128 ->
  isLaxIdentifierRune U (byte_val cl) = false ->
  (String.length ws + String.length name + 2 <= fuel)%nat ->
  lexIdentifier U fuel typ nextFn (mkLexer inp st p s w [] stk) =
  Ret (if closes op cl then nextFn else None)
      (mkLexer inp st (p + len ws + len name + 2) (p + len ws + len name + 2) 1
               [if closes op cl then mkToken typ name
                else mkToken TokenError (name ++ String cl "")] stk).
Proof.
  intros Hp Hdrop Hws Hop Hname Hcl Hstop Hf.
  rewrite (lexIdentifier_quoted_name U fuel typ nextFn inp st p s w stk
             ws op name cl tail Hp Hdrop Hws Hop Hname Hcl Hstop Hf).
  pose proof (len_nonneg ws) as Hnw. pose proof (len_nonneg name) as Hnn.
  pose proof (len_nonneg tail) as Hnt.
  assert (Hdrop1 : drop (Z.to_nat (p + len ws + 1)) inp
                   = (name ++ String cl tail)%string).
  { pose proof (drop_plus p (String.length ws) inp ws _ Hp Hdrop eq_refl)
      as H0.
    replace (Z.to_nat (p + len ws + 1)) with (S (Z.to_nat (p + len ws)))
      by lia.
    eapply drop_succ. exact H0. }
  assert (Hdrop2 : drop (Z.to_nat (p + len ws + 1 + len name)) inp
                   = String cl tail).
  { apply (drop_plus (p + len ws + 1) (String.length name) inp name _
                     ltac:(lia) Hdrop1 eq_refl). }
  assert (Hlen : len inp = p + len ws + len name + 2 + len tail).
  { pose proof (drop_eq_len _ _ _ Hdrop2 ltac:(discriminate)) as H.
    cbn [String.length] in H. unfold len in *. lia. }
  destruct (closes op cl).
  - eapply bind_eq; [reflexivity|]. proj.
    replace (p + len ws + len name + 2 - 1) with (p + len ws + 1 + len name)
      by lia.
    eapply bind_eq; [apply lexeme_ok; lia|].
    eapply bind_eq; [apply emit_ok; lia|].
    eapply bind_eq.
    { eapply next_ascii_at; [|exact Hdrop2|exact Hcl]. lia. }
    eapply bind_eq; [reflexivity|]. proj. unfold ret.
    replace (p + len ws + 1 + len name + 1) with (p + len ws + len name + 2)
      by lia.
    replace (Z.to_nat (p + len ws + 1 + len name - (p + len ws + 1)))
      with (String.length name) by (unfold len; lia).
    rewrite Hdrop1, take_app_length. reflexivity.
  - unfold errorToken.
    eapply bind_eq; [apply emit_ok; lia|]. unfold ret.
    replace (Z.to_nat (p + len ws + len name + 2 - (p + len ws + 1)))
      with (String.length (name ++ String cl "")).
    + rewrite Hdrop1.
      replace (name ++ String cl tail)%string
        with ((name ++ String cl "") ++ tail)%string
        by (rewrite app_assoc_string; reflexivity).
      rewrite take_app_length. reflexivity.
    + rewrite length_app_string. cbn [String.length]. unfold len. lia.
Qed.

Lemma quoted_identifiers_witness :
  0 <= 0 /\
  drop (Z.to_nat 0) "[first name]" =
    ("" ++ String "[" ("first name" ++ String "]" ""))%string /\
  forallb IsSpace (runes "") = true /\
  opens "[" = true /\
  lax_name ascii_tables "first name" = true /\
  byte_val "]" < 128 /\
  isLaxIdentifierRune ascii_tables (byte_val "]") = false /\
  (String.length "" + String.length "first name" + 2 <= 16)%nat /\
  lexIdentifier ascii_tables 16 TokenColumn None
                (mkLexer "[first name]" None 0 0 0 [] []) =
  Ret None (mkLexer "[first name]" None 12 12 1
                    [mkToken TokenColumn "first name"] []).
Proof.
  assert (H1 : 0 <= 0) by lia.
  assert (H2 : drop (Z.to_nat 0) "[first name]" =
               ("" ++ String "[" ("first name" ++ String "]" ""))%string)
    by reflexivity.
  assert (H3 : forallb IsSpace (runes "") = true) by reflexivity.
  assert (H4 : opens "[" = true) by reflexivity.
  assert (H5 : lax_name ascii_tables "first name" = true) by reflexivity.
  assert (H6 : byte_val "]" < 128) by reflexivity.
  assert (H7 : isLaxIdentifierRune ascii_tables (byte_val "]") = false)
    by reflexivity.
  assert (H8 : (String.length "" + String.length "first name" + 2 <= 16)%nat)
    by (simpl; lia).
  exact (conj H1 (conj H2 (conj H3 (conj H4 (conj H5 (conj H6 (conj H7
           (conj H8
              (quoted_identifiers ascii_tables 16 TokenColumn None
                 "[first name]" None 0 0 0 [] "" "[" "first name" "]" ""
                 H1 H2 H3 H4 H5 H6 H7 H8))))))))).
Defined.

(** A quoted identifier that the input ends in: the loop stops on [eof],
    which closes nothing, and the name comes back in an error token. *)
Lemma quoted_identifier_unclosed
      (U : Tables) (fuel : nat) (typ : TokenType) (nextFn : option StateFn)
      (inp : string) (st : option StateFn) (p s w : Z)
      (stk : list NamedStateFn) (ws : string) (op : ascii) (name : string) :
  0 <= p ->
  drop (Z.to_nat p) inp = (ws ++ String op name)%string ->
  forallb IsSpace (runes ws) = true ->
  opens op = true ->
  lax_name U name = true ->
  (String.length ws + String.length name + 2 <= fuel)%nat ->
  lexIdentifier U fuel typ nextFn (mkLexer inp st p s w [] stk) =
  Ret None (mkLexer inp st (len inp) (len inp) 0
                    [mkToken TokenError name] stk).
Proof.
  intros Hp Hdrop Hws Hop Hname Hf.
  destruct (opens_ascii op Hop) as (Hopa & Hopsp & Hopd).
  assert (Hne : name <> EmptyString).
  { intros ->. discriminate Hname. }
  pose proof (len_nonneg ws) as Hnw. pose proof (len_nonneg name) as Hnn.
  assert (Hdrop0 : drop (Z.to_nat (p + len ws)) inp = String op name).
  { apply (drop_plus p (String.length ws) inp ws _ Hp Hdrop eq_refl). }
  assert (Hdrop1 : drop (Z.to_nat (p + len ws + 1)) inp = name).
  { replace (Z.to_nat (p + len ws + 1)) with (S (Z.to_nat (p + len ws)))
      by lia.
    eapply drop_succ. exact Hdrop0. }
  assert (Hlen : len inp = p + len ws + 1 + len name).
  { pose proof (drop_eq_len _ _ _ Hdrop1 Hne) as H. unfold len in *. lia. }
  unfold lax_name in Hname. rewrite runes_step in Hname by exact Hne.
  pose proof (DecodeRuneInString_width name Hne) as Hw.
  destruct (DecodeRuneInString name) as [r1 w1] eqn:Hd1.
  cbn [fst snd] in *.
  apply andb_true_iff in Hname. destruct Hname as [Hletter Hrest].
  unfold lexIdentifier.
  eapply bind_eq.
  { apply (skipWhiteSpaces_at fuel inp st p s w [] stk ws op name);
      [exact Hp | exact Hdrop | apply cont_byte_ascii; exact Hopa
       | rewrite DecodeRuneInString_ascii by exact Hopa; exact Hopsp
       | exact Hws | lia]. }
  rewrite DecodeRuneInString_ascii by exact Hopa. cbn [snd].
  eapply bind_eq.
  { apply (next_ascii_at _ _ _ _ _ _ _ op name);
      [lia | exact Hdrop0 | exact Hopa]. }
  rewrite Hopd. cbv iota.
  eapply bind_eq; [reflexivity|]. proj.
  eapply bind_eq.
  { rewrite (next_rest inp st (p + len ws + 1) (p + len ws + 1) 1 [] stk name);
      [rewrite Hd1; reflexivity | lia | exact Hdrop1 | exact Hne]. }
  cbn [fst snd]. rewrite Hletter. cbn [negb]. cbv iota.
  eapply bind_eq.
  { apply (identifier_loop_end (isLaxIdentifierRune U) eq_refl fuel
             (mkLexer inp st (p + len ws + 1 + w1) (p + len ws + 1) w1 [] stk));
      cbn [pos input].
    - lia.
    - replace (Z.to_nat (p + len ws + 1 + w1))
        with (Z.to_nat (p + len ws + 1) + Z.to_nat w1)%nat by lia.
      rewrite <- drop_drop, Hdrop1. exact Hrest.
    - replace (Z.to_nat (p + len ws + 1 + w1))
        with (Z.to_nat (p + len ws + 1) + Z.to_nat w1)%nat by lia.
      rewrite <- drop_drop, Hdrop1, drop_length. lia. }
  cbn [input state pos start tokens stack].
  change (eof =? ch "]") with false. change (eof =? squote) with false.
  rewrite !andb_false_r. cbn [orb]. cbv iota.
  unfold errorToken.
  eapply bind_eq; [apply emit_ok; lia|]. unfold ret.
  replace (Z.to_nat (len inp - (p + len ws + 1))) with (String.length name)
    by (unfold len in *; lia).
  rewrite Hdrop1, take_all by lia. reflexivity.
Qed.

(** ** Helper predicates *)

(** X27.  [isIdentCh] is [isAlNum]: its second case, the underscore, is
    never reached, [isAlNum] accepting the underscore already. *)
Theorem isIdentCh_is_isAlNum (U : Tables) (r : rune) :
  isIdentCh U r = isAlNum U r.
Proof.
  unfold isIdentCh. destruct (isAlNum U r) eqn:E; [reflexivity|].
  unfold isAlNum in E. rewrite !orb_false_iff in E.
  destruct E as [[E _] _]. rewrite E. reflexivity.
Qed.

(** ** Line and column *)

Lemma count_newlines_app (a b : string) :
  count_newlines (a ++ b) = count_newlines a + count_newlines b.
Proof.
  induction a as [|c a IH]; [reflexivity|].
  cbn [append count_newlines]. rewrite IH. lia.
Qed.

Lemma count_newlines_nonneg (s : string) : 0 <= count_newlines s.
Proof.
  induction s as [|c s IH]; cbn [count_newlines]; [lia|].
  destruct (byte_val c =? 10); lia.
Qed.

Lemma LastIndex_newline_from_app (a b : string) :
  forall (i found : Z),
    LastIndex_newline_from i (a ++ b) found =
    LastIndex_newline_from (i + len a) b (LastIndex_newline_from i a found).
Proof.
  induction a as [|c a IH]; intros i found.
  - cbn [append LastIndex_newline_from]. change (len "") with 0.
    rewrite Z.add_0_r. reflexivity.
  - cbn [append LastIndex_newline_from]. rewrite IH, len_String.
    f_equal. lia.
Qed.

Lemma LastIndex_newline_from_none (b : string) :
  forall (i found : Z),
    count_newlines b = 0 -> LastIndex_newline_from i b found = found.
Proof.
  induction b as [|c b IH]; intros i found H; [reflexivity|].
  cbn [count_newlines LastIndex_newline_from] in *.
  pose proof (count_newlines_nonneg b).
  destruct (byte_val c =? 10); [lia|]. apply IH. lia.
Qed.

Lemma take_len_app (a b : string) : take (Z.to_nat (len a)) (a ++ b) = a.
Proof.
  replace (Z.to_nat (len a)) with (String.length a) by (unfold len; lia).
  apply take_app_length.
Qed.

(** X28.  Lines count from 1.  Columns count from 0 on the first line
    and from 1 on every later line: without a newline before the cursor
    [columnNumber] is the offset itself, with one it is the distance to the
    last newline. *)
Theorem line_and_column (a b rest : string) (st : option StateFn)
        (s w : Z) (ts : list Token) (stk : list NamedStateFn) :
  count_newlines b = 0 ->
  let l1 := mkLexer (b ++ rest) st (len b) s w ts stk in
  let l2 := mkLexer ((a ++ String "010" b) ++ rest) st
                    (len (a ++ String "010" b)) s w ts stk in
  lineNumber l1 = Ret 1 l1 /\
  columnNumber l1 = Ret (len b) l1 /\
  lineNumber l2 = Ret (count_newlines a + 2) l2 /\
  columnNumber l2 = Ret (len b + 1) l2.
Proof.
  intros Hb l1 l2.
  pose proof (len_nonneg a) as Hna. pose proof (len_nonneg b) as Hnb.
  pose proof (len_nonneg rest) as Hnr.
  unfold lineNumber, columnNumber, l1, l2. cbn [input pos].
  rewrite !slice_ok by (rewrite ?len_app, ?len_String; lia).
  rewrite !Z.sub_0_r. cbn [Z.to_nat drop]. rewrite !take_len_app.
  unfold LastIndex_newline.
  rewrite !LastIndex_newline_from_app.
  cbn [LastIndex_newline_from]. change (byte_val "010" =? 10) with true.
  cbv iota.
  rewrite !LastIndex_newline_from_none by exact Hb.
  rewrite count_newlines_app. cbn [count_newlines].
  change (byte_val "010" =? 10) with true. cbv iota. rewrite Hb.
  change (-1 =? -1) with true. cbv iota.
  rewrite len_app, len_String.
  repeat split; try reflexivity.
  - f_equal. lia.
  - f_equal. lia.
  - destruct (Z.eqb_spec (0 + len a) (-1)); [lia|]. f_equal. lia.
Qed.

Lemma line_and_column_witness :
  count_newlines "cd" = 0 /\
  (let l1 := mkLexer ("cd" ++ "e") None (len "cd") 0 0 [] [] in
   let l2 := mkLexer (("ab" ++ String "010" "cd") ++ "e") None
                     (len ("ab" ++ String "010" "cd")) 0 0 [] [] in
   lineNumber l1 = Ret 1 l1 /\
   columnNumber l1 = Ret (len "cd") l1 /\
   lineNumber l2 = Ret (count_newlines "ab" + 2) l2 /\
   columnNumber l2 = Ret (len "cd" + 1) l2).
Proof.
  assert (H : count_newlines "cd" = 0) by reflexivity.
  exact (conj H (line_and_column "ab" "cd" "e" None 0 0 [] [] H)).
Defined.

(** ** Comments through the driver *)

(** At the end of the input [lexStatement] queues the end-of-input token. *)
Lemma lexStatement_at_end (U : Tables) (fuel : nat) (inp : string)
      (st : option StateFn) (s w : Z) (stk : list NamedStateFn) :
  (1 <= fuel)%nat ->
  lexStatement U fuel (mkLexer inp st (len inp) s w [] stk) =
  Ret None (mkLexer inp st (len inp) (len inp) 0 [mkToken TokenEOF ""] stk).
Proof.
  intros Hf. destruct fuel as [|fuel]; [lia|].
  pose proof (len_nonneg inp) as Hn.
  unfold lexStatement.
  eapply bind_eq.
  { apply (skipWhiteSpaces_to_end (S fuel) inp st (len inp) s w [] stk);
      [lia | | ]; rewrite drop_all by (unfold len; lia);
      [reflexivity | cbn; lia]. }
  eapply bind_eq.
  { unfold peek. eapply bind_eq; [apply next_at_end; cbn [pos input]; lia|].
    eapply bind_eq; reflexivity. }
  proj. change (eof =? ch "/") with false. change (eof =? ch "-") with false.
  change (eof =? ch "#") with false. change (eof =? ch "s") with false.
  change (eof =? ch "S") with false. cbn [orb]. cbv iota.
  rewrite Z.sub_0_r.
  eapply bind_eq.
  { unfold peek. eapply bind_eq; [apply next_at_end; cbn [pos input]; lia|].
    eapply bind_eq; reflexivity. }
  proj. rewrite Z.sub_0_r.
  eapply bind_eq; [reflexivity|]. eapply bind_eq; [reflexivity|]. proj.
  replace (len inp >? len inp) with false
    by (symmetry; rewrite Z.gtb_ltb; apply Z.ltb_irrefl).
  eapply bind_eq; [reflexivity|].
  eapply bind_eq; [apply emit_ok; lia|].
  rewrite Z.sub_diag. reflexivity.
Qed.

(** X29.  A single-line comment ([#], [--] or [//]) is the first token
    [NextToken] returns; its text runs from the prefix to the newline or the
    end of the input, which is not consumed, and [lexStatement] runs
    next. *)
Theorem single_line_comment (U : Tables) (fuel : nat)
        (prefix body tail : string) :
  comment_prefix prefix ->
  forallb in_line (runes body) = true ->
  tail = EmptyString \/ (exists t, tail = String "010" t) ->
  (String.length body + 4 <= fuel)%nat ->
  exists w : Z,
    NextToken U fuel (NewLexer (prefix ++ body ++ tail)) =
    Ret (mkToken TokenComment (prefix ++ body))
        (mkLexer (prefix ++ body ++ tail) (Some Fn_lexStatement)
                 (len (prefix ++ body)) (len (prefix ++ body)) w [] []).
Proof.
  intros Hprefix Hbody Htail Hfuel.
  destruct fuel as [|[|fuel]]; try lia.
  destruct (lexStatement_line_comment U (S fuel) prefix body tail
              Hprefix Hbody Htail ltac:(lia)) as [w Hstmt].
  exists w. unfold NewLexer in *.
  cbn [NextToken]. cbn [tokens state stack].
  eapply bind_eq.
  { unfold step. eapply bind_eq; [reflexivity|]. cbn [state].
    eapply bind_eq; [exact Hstmt|]. reflexivity. }
  reflexivity.
Qed.

Lemma single_line_comment_witness :
  comment_prefix "--" /\
  forallb in_line (runes " note") = true /\
  (String "010" "select" = EmptyString \/
   (exists t, String "010" "select" = String "010" t)) /\
  (String.length " note" + 4 <= 20)%nat /\
  exists w : Z,
    NextToken ascii_tables 20
              (NewLexer ("--" ++ " note" ++ String "010" "select")) =
    Ret (mkToken TokenComment ("--" ++ " note"))
        (mkLexer ("--" ++ " note" ++ String "010" "select")
                 (Some Fn_lexStatement)
                 (len ("--" ++ " note")) (len ("--" ++ " note")) w [] []).
Proof.
  assert (H1 : comment_prefix "--") by (right; left; reflexivity).
  assert (H2 : forallb in_line (runes " note") = true) by reflexivity.
  assert (H3 : String "010" "select" = EmptyString \/
               (exists t, String "010" "select" = String "010" t))
    by (right; exists "select"; reflexivity).
  assert (H4 : (String.length " note" + 4 <= 20)%nat)
    by (unfold len; simpl; lia).
  exact (conj H1 (conj H2 (conj H3 (conj H4
           (single_line_comment ascii_tables 20 "--" " note"
                                (String "010" "select") H1 H2 H3 H4))))).
Defined.

(** X30.  An input that is one single-line comment: two calls of
    [NextToken] return the comment and the end-of-input token, and the lexer
    has come to rest. *)
Theorem comment_only_input (U : Tables) (fuel : nat)
        (prefix body : string) :
  comment_prefix prefix ->
  forallb in_line (runes body) = true ->
  (String.length body + 4 <= fuel)%nat ->
  NextTokens U fuel 2 (NewLexer (prefix ++ body)) =
  Ret [mkToken TokenComment (prefix ++ body); mkToken TokenEOF ""]
      (mkLexer (prefix ++ body) None
               (len (prefix ++ body)) (len (prefix ++ body)) 0 [] []).
Proof.
  intros Hprefix Hbody Hfuel.
  destruct fuel as [|[|fuel]]; try lia.
  destruct (lexStatement_line_comment U (S fuel) prefix body ""
              Hprefix Hbody ltac:(left; reflexivity) ltac:(lia))
    as [w Hstmt].
  rewrite app_empty_r in Hstmt. unfold NewLexer in *.
  cbn [NextTokens].
  eapply bind_eq.
  { cbn [NextToken]. cbn [tokens state stack].
    eapply bind_eq.
    { unfold step. eapply bind_eq; [reflexivity|]. cbn [state].
      eapply bind_eq; [exact Hstmt|]. reflexivity. }
    reflexivity. }
  proj.
  eapply bind_eq.
  { eapply bind_eq.
    { cbn [NextToken]. cbn [tokens state stack].
      eapply bind_eq.
      { unfold step. eapply bind_eq; [reflexivity|]. cbn [state].
        eapply bind_eq;
          [apply (lexStatement_at_end U (S fuel)); lia|].
        reflexivity. }
      reflexivity. }
    reflexivity. }
  reflexivity.
Qed.

Lemma comment_only_input_witness :
  comment_prefix "#" /\
  forallb in_line (runes " note") = true /\
  (String.length " note" + 4 <= 20)%nat /\
  NextTokens ascii_tables 20 2 (NewLexer ("#" ++ " note")) =
  Ret [mkToken TokenComment ("#" ++ " note"); mkToken TokenEOF ""]
      (mkLexer ("#" ++ " note") None
               (len ("#" ++ " note")) (len ("#" ++ " note")) 0 [] []).
Proof.
  assert (H1 : comment_prefix "#") by (left; reflexivity).
  assert (H2 : forallb in_line (runes " note") = true) by reflexivity.
  assert (H3 : (String.length " note" + 4 <= 20)%nat)
    by (unfold len; simpl; lia).
  exact (conj H1 (conj H2 (conj H3
           (comment_only_input ascii_tables 20 "#" " note" H1 H2 H3)))).
Defined.
